(** * energia-prep-2: the hourly calculation pipeline, embedded and verified

    The pipeline of [src/energia_prep2/calc] works on [numpy.float64] vectors,
    one slot per hour.  The stages are embedded here once, over an abstract
    numeric interface [Num], and instantiated twice:

    - at [Q], exact rational arithmetic, where the universal properties of the
      stages are proved (rounding is idealised away);
    - at [float], the kernel's IEEE-754 binary64 numbers, which are the numbers
      the Python code computes with, and on which concrete runs are evaluated.

    Sections follow the stages: 03_commit, 02_proposer, 01_ingest (masks) and
    04b_pricing_dyst (K coefficient). *)

From Stdlib Require Import QArith Qminmax Qround Lqa ZArith Lia List Bool Arith.
From Stdlib Require String.
From Stdlib Require Import Permutation Sorted.
From Stdlib Require Import Floats.PrimFloat Uint63.
Import ListNotations.
Import String.StringSyntax.

Set Warnings "-inexact-float".

(* ================================================================== *)
(** * Numbers *)
(* ================================================================== *)

(** What the stages need from their numbers.  [n_ltb a b] is Python's
    [a < b] (so [a > b] is [n_ltb b a]); [n_leb a b] is [a <= b]. *)
Class Num (F : Type) : Type := {
  n_zero : F;
  n_one : F;
  n_hundred : F;
  n_eps : F;          (* EPS = 1e-12 of 02_proposer.py and 03_commit.py *)
  n_big : F;          (* 1e9, the "infinite" Delta-S of 04b_pricing_dyst.py *)
  n_add : F -> F -> F;
  n_sub : F -> F -> F;
  n_mul : F -> F -> F;
  n_div : F -> F -> F;
  n_opp : F -> F;
  n_of_nat : nat -> F;   (* float(n) for a count n *)
  n_ltb : F -> F -> bool;
  n_leb : F -> F -> bool;
  n_isfinite : F -> bool   (* np.isfinite *)
}.

Declare Scope num_scope.
Delimit Scope num_scope with num.
Notation "x + y" := (n_add x y) : num_scope.
Notation "x - y" := (n_sub x y) : num_scope.
Notation "x * y" := (n_mul x y) : num_scope.
Notation "x / y" := (n_div x y) : num_scope.
Notation "- x" := (n_opp x) : num_scope.
Notation "x <? y" := (n_ltb x y) : num_scope.
Notation "x >? y" := (n_ltb y x) : num_scope.
Notation "x <=? y" := (n_leb x y) : num_scope.
Notation "x >=? y" := (n_leb y x) : num_scope.

Definition Qltb (a b : Q) : bool := negb (Qle_bool b a).

(** Exact arithmetic: every number is finite. *)
#[export] Instance NumQ : Num Q := {|
  n_zero := 0%Q;
  n_one := 1%Q;
  n_hundred := 100%Q;
  n_eps := (1 # 1000000000000)%Q;
  n_big := 1000000000%Q;
  n_add := Qplus;
  n_sub := Qminus;
  n_mul := Qmult;
  n_div := Qdiv;
  n_opp := Qopp;
  n_of_nat := fun n => inject_Z (Z.of_nat n);
  n_ltb := Qltb;
  n_leb := Qle_bool;
  n_isfinite := fun _ => true
|}.

(** IEEE-754 binary64, the arithmetic of [float] and [numpy.float64]. *)
#[export] Instance NumFloat : Num float := {|
  n_zero := 0%float;
  n_one := 1%float;
  n_hundred := 100%float;
  n_eps := 1e-12%float;
  n_big := 1e9%float;
  n_add := PrimFloat.add;
  n_sub := PrimFloat.sub;
  n_mul := PrimFloat.mul;
  n_div := PrimFloat.div;
  n_opp := PrimFloat.opp;
  n_of_nat := fun n => PrimFloat.of_uint63 (Uint63.of_Z (Z.of_nat n));
  n_ltb := PrimFloat.ltb;
  n_leb := PrimFloat.leb;
  n_isfinite := PrimFloat.is_finite
|}.

(** An input slot that the code reads only behind [np.isfinite]: a finite
    number, or one of the three non-finite values. *)
Inductive xval (F : Type) : Type :=
| Fin (x : F)
| PInf
| NInf
| NaN.
Arguments Fin {F} x.
Arguments PInf {F}.
Arguments NInf {F}.
Arguments NaN {F}.

Definition x_isfinite {F} (v : xval F) : bool :=
  match v with Fin _ => true | _ => false end.

(** How a raw binary64 value is read as such a slot. *)
Definition xval_of_float (f : float) : xval float :=
  if PrimFloat.is_nan f then NaN
  else if PrimFloat.eqb f infinity then PInf
  else if PrimFloat.eqb f neg_infinity then NInf
  else Fin f.

(** A BESS budget of the hour: the cap when it is finite, [np.inf]
    otherwise ([None]). *)
Definition budget (F : Type) : Type := option F.

Section PythonBuiltins.
Context {F : Type} `{Num F}.
Local Open Scope num_scope.

(** Python's [min(a, b)]: the first argument unless a later one is
    strictly smaller; [max(a, b)] likewise. *)
Definition pymin2 (a b : F) : F := if b <? a then b else a.
Definition pymax2 (a b : F) : F := if b >? a then b else a.
Definition pymin3 (a b c : F) : F := pymin2 (pymin2 a b) c.

Definition budget_of_cap (c : xval F) : budget F :=
  match c with Fin x => Some x | _ => None end.

(** [b > EPS] *)
Definition budget_gt_eps (b : budget F) : bool :=
  match b with Some v => v >? n_eps | None => true end.

(** [min(a, b)] and [min(a, x, b)] with a budget [b] as last argument:
    [np.inf] is never strictly smaller. *)
Definition pymin2b (a : F) (b : budget F) : F :=
  match b with Some v => pymin2 a v | None => a end.
Definition pymin3b (a x : F) (b : budget F) : F := pymin2b (pymin2 a x) b.

(** [max(0.0, b - x)] for a budget [b].  It is only called with [x > EPS];
    [inf - x] is [inf] for finite [x], and NaN (so the [max] gives 0.0)
    for [x = inf]. *)
Definition budget_spend (b : budget F) (x : F) : budget F :=
  match b with
  | Some v => Some (pymax2 n_zero (v - x))
  | None => if n_isfinite x then None else Some n_zero
  end.

(** [min(b + r, cap)] for a finite [cap] *)
Definition budget_restore (b : budget F) (r cap : F) : budget F :=
  match b with
  | Some v => Some (pymin2 (v + r) cap)
  | None => Some cap
  end.

(** [np.where(np.isfinite(p), p, 0.0)] at one slot *)
Definition price_eff (p : xval F) : F :=
  match p with Fin x => x | _ => n_zero end.
End PythonBuiltins.

Notation "s |> f" := (f s) (at level 65, left associativity, only parsing).

(** A stable sort: [insert_by lt x l] puts [x] before the first element that
    is not strictly smaller than it. *)
Fixpoint insert_by {A} (lt : A -> A -> bool) (x : A) (l : list A) : list A :=
  match l with
  | [] => [x]
  | y :: t => if lt y x then y :: insert_by lt x t else x :: y :: t
  end.

Definition sort_by {A} (lt : A -> A -> bool) (l : list A) : list A :=
  fold_right (insert_by lt) [] l.

(* ================================================================== *)
(** * Stage 03: commit (03_commit.py) *)
(* ================================================================== *)

Module Commit.

(** The numeric columns of the dict [out] that [run] returns, one slot per
    hour. *)
Inductive col : Set :=
| charge_from_surplus_mwh | charge_from_grid_mwh
| discharge_to_load_mwh | discharge_to_grid_mwh
| e_import_mwh | e_export_mwh
| export_from_surplus_ac_mwh | export_from_arbi_ac_mwh
| import_for_load_ac_mwh | import_for_arbi_ac_mwh
| soc_oze_before_idle_mwh | soc_oze_after_idle_mwh
| soc_arbi_before_idle_mwh | soc_arbi_after_idle_mwh
| soc_arbi_pct_of_arbi | soc_arbi_pct_of_total
| soc_oze_pct_of_oze | soc_oze_pct_of_total
| loss_idle_oze_mwh | loss_idle_arbi_mwh
| loss_conv_ch_mwh | loss_conv_dis_to_grid_mwh | loss_conv_dis_to_load_mwh
| wasted_surplus_due_to_export_cap_mwh
| cap_blocked_dis_ac_mwh | cap_blocked_ch_ac_mwh
| unserved_load_after_cap_ac_mwh
| rev_arbi_to_grid_pln | rev_surplus_export_pln
| cost_grid_to_arbi_pln | cost_import_for_load_pln
| cashflow_arbi_pln | cashflow_net_pln.

Scheme Equality for col.

Section Stage.
Context {F : Type} `{Num F}.
Local Open Scope num_scope.

(** The scalars [run] reads from [H]. *)
Record scalars : Type := {
  emax_arbi_mwh : F;
  emax_oze_mwh : F;
  eta_ch_frac : F;
  eta_dis_frac : F;
  bess_lambda_h_frac : F;
  arbi_dis_to_load : bool;
  soc0_oze_mwh : F;
  soc0_arbi_mwh : F
}.

(** Slot [i] of the vectors [run] reads from [H] and from [P]. *)
Record hour_in : Type := {
  cap_grid_export_ac_mwh : xval F;
  cap_grid_import_ac_mwh : xval F;
  cap_bess_charge_net_mwh : xval F;
  cap_bess_discharge_net_mwh : xval F;
  surplus_net_mwh : F;
  deficit_net_mwh : F;
  price_import_pln_mwh : xval F;
  price_export_pln_mwh : xval F;
  prop_arbi_dis_to_grid_ac_mwh : F;
  prop_arbi_ch_from_grid_ac_mwh : F
}.

(** The variables of the hourly loop: the two SOCs carried from hour to
    hour; the BESS budgets of the hour; slot [i] of the copied surplus
    vector; the local [deficit]; slot [i] of every output vector. *)
Record loop_state : Type := {
  soc_oze : F;
  soc_arbi : F;
  dis_net_budget : budget F;
  ch_net_budget : budget F;
  surplus_net_i : F;
  deficit : F;
  buf : col -> F;
  bind_export_cap : bool;
  bind_import_cap : bool
}.

Definition set_soc_oze (v : F) (s : loop_state) : loop_state :=
  {| soc_oze := v; soc_arbi := soc_arbi s; dis_net_budget := dis_net_budget s; ch_net_budget
     := ch_net_budget s; surplus_net_i := surplus_net_i s; deficit := deficit s; buf := buf s;
     bind_export_cap := bind_export_cap s; bind_import_cap := bind_import_cap s |}.
Definition set_soc_arbi (v : F) (s : loop_state) : loop_state :=
  {| soc_oze := soc_oze s; soc_arbi := v; dis_net_budget := dis_net_budget s; ch_net_budget :=
     ch_net_budget s; surplus_net_i := surplus_net_i s; deficit := deficit s; buf := buf s;
     bind_export_cap := bind_export_cap s; bind_import_cap := bind_import_cap s |}.
Definition set_dis_net_budget (v : budget F) (s : loop_state) : loop_state :=
  {| soc_oze := soc_oze s; soc_arbi := soc_arbi s; dis_net_budget := v; ch_net_budget :=
     ch_net_budget s; surplus_net_i := surplus_net_i s; deficit := deficit s; buf := buf s;
     bind_export_cap := bind_export_cap s; bind_import_cap := bind_import_cap s |}.
Definition set_ch_net_budget (v : budget F) (s : loop_state) : loop_state :=
  {| soc_oze := soc_oze s; soc_arbi := soc_arbi s; dis_net_budget := dis_net_budget s;
     ch_net_budget := v; surplus_net_i := surplus_net_i s; deficit := deficit s; buf := buf s;
     bind_export_cap := bind_export_cap s; bind_import_cap := bind_import_cap s |}.
Definition set_surplus_net_i (v : F) (s : loop_state) : loop_state :=
  {| soc_oze := soc_oze s; soc_arbi := soc_arbi s; dis_net_budget := dis_net_budget s;
     ch_net_budget := ch_net_budget s; surplus_net_i := v; deficit := deficit s; buf := buf s;
     bind_export_cap := bind_export_cap s; bind_import_cap := bind_import_cap s |}.
Definition set_deficit (v : F) (s : loop_state) : loop_state :=
  {| soc_oze := soc_oze s; soc_arbi := soc_arbi s; dis_net_budget := dis_net_budget s;
     ch_net_budget := ch_net_budget s; surplus_net_i := surplus_net_i s; deficit := v; buf :=
     buf s; bind_export_cap := bind_export_cap s; bind_import_cap := bind_import_cap s |}.
Definition set_buf (v : col -> F) (s : loop_state) : loop_state :=
  {| soc_oze := soc_oze s; soc_arbi := soc_arbi s; dis_net_budget := dis_net_budget s;
     ch_net_budget := ch_net_budget s; surplus_net_i := surplus_net_i s; deficit := deficit s;
     buf := v; bind_export_cap := bind_export_cap s; bind_import_cap := bind_import_cap s |}.
Definition set_bind_export_cap (v : bool) (s : loop_state) : loop_state :=
  {| soc_oze := soc_oze s; soc_arbi := soc_arbi s; dis_net_budget := dis_net_budget s;
     ch_net_budget := ch_net_budget s; surplus_net_i := surplus_net_i s; deficit := deficit s;
     buf := buf s; bind_export_cap := v; bind_import_cap := bind_import_cap s |}.
Definition set_bind_import_cap (v : bool) (s : loop_state) : loop_state :=
  {| soc_oze := soc_oze s; soc_arbi := soc_arbi s; dis_net_budget := dis_net_budget s;
     ch_net_budget := ch_net_budget s; surplus_net_i := surplus_net_i s; deficit := deficit s;
     buf := buf s; bind_export_cap := bind_export_cap s; bind_import_cap := v |}.

(** [x[i]], [x[i] = v], [x[i] += v] and [x[i] -= v] on an output vector *)
Definition get (c : col) (s : loop_state) : F := buf s c.
Definition put (c : col) (v : F) (s : loop_state) : loop_state :=
  set_buf (fun c' => if col_beq c c' then v else buf s c') s.
Definition inc (c : col) (v : F) (s : loop_state) : loop_state :=
  put c (get c s + v) s.
Definition dec (c : col) (v : F) (s : loop_state) : loop_state :=
  put c (get c s - v) s.

Variable P : scalars.
Variable h : hour_in.

Definition EPS : F := n_eps.

(** The state at the top of the loop body: the buffers were made by
    [np.zeros(N)], the flags by [np.zeros(N, dtype=bool)]. *)
Definition hour_init (soc_oze0 soc_arbi0 : F) : loop_state :=
  {| soc_oze := soc_oze0;
     soc_arbi := soc_arbi0;
     dis_net_budget := budget_of_cap (cap_bess_discharge_net_mwh h);
     ch_net_budget := budget_of_cap (cap_bess_charge_net_mwh h);
     surplus_net_i := surplus_net_mwh h;
     deficit := n_zero;
     buf := fun _ => n_zero;
     bind_export_cap := false;
     bind_import_cap := false |}.

(** ** 1) surplus: OZE, then ARBI, then export *)

(** 1a) OZE charging is not under the BESS cap *)
Definition surplus_to_oze (s : loop_state) : loop_state :=
  let headroom_oze := pymax2 n_zero (emax_oze_mwh P - soc_oze s) in
  let to_oze_net := pymin2 (surplus_net_i s) headroom_oze in
  if to_oze_net >? EPS then
    s |> set_soc_oze (pymin2 (emax_oze_mwh P) (soc_oze s + to_oze_net))
      |> set_surplus_net_i (surplus_net_i s - to_oze_net)
  else s.

(** 1b) ARBI charging under the BESS cap C_ch *)
Definition surplus_to_arbi (s : loop_state) : loop_state :=
  let headroom_arbi := pymax2 n_zero (emax_arbi_mwh P - soc_arbi s) in
  let to_arbi_net := pymin3b (surplus_net_i s) headroom_arbi (ch_net_budget s) in
  if to_arbi_net >? EPS then
    let s := s |> inc charge_from_surplus_mwh to_arbi_net
               |> set_surplus_net_i (surplus_net_i s - to_arbi_net)
               |> set_soc_arbi (pymin2 (emax_arbi_mwh P) (soc_arbi s + to_arbi_net)) in
    if x_isfinite (cap_bess_charge_net_mwh h)
    then set_ch_net_budget (budget_spend (ch_net_budget s) to_arbi_net) s
    else s
  else s.

(** 1c) what is left is the candidate export (the grid cap comes later) *)
Definition surplus_to_export (s : loop_state) : loop_state :=
  if surplus_net_i s >? EPS then
    let export_ac := surplus_net_i s in
    s |> inc e_export_mwh export_ac
      |> inc export_from_surplus_ac_mwh export_ac
      |> set_surplus_net_i n_zero
  else s.

Definition absorb_surplus (s : loop_state) : loop_state :=
  if surplus_net_i s >? EPS
  then s |> surplus_to_oze |> surplus_to_arbi |> surplus_to_export
  else s.

(** ** 2) deficit: OZE, then (by policy) ARBI, then import *)

(** [x * (1.0 / eta_dis - 1.0) if eta_dis > EPS else 0.0] *)
Definition conv_loss_to_load (x : F) : F :=
  if eta_dis_frac P >? EPS then x * (n_one / eta_dis_frac P - n_one) else n_zero.

(** 2a) OZE to the load, not under the BESS cap *)
Definition deficit_from_oze (s : loop_state) : loop_state :=
  let from_oze := pymin2 (deficit s) (soc_oze s) in
  if from_oze >? EPS then
    s |> set_soc_oze (pymax2 n_zero (soc_oze s - from_oze))
      |> set_deficit (deficit s - from_oze)
      |> inc discharge_to_load_mwh from_oze
      |> inc loss_conv_dis_to_load_mwh (conv_loss_to_load from_oze)
  else s.

(** 2b) ARBI to the load, under the BESS cap C_dis *)
Definition deficit_from_arbi (s : loop_state) : loop_state :=
  if (deficit s >? EPS) && arbi_dis_to_load P && budget_gt_eps (dis_net_budget s) then
    let can_from_arbi := pymin3b (deficit s) (soc_arbi s) (dis_net_budget s) in
    if can_from_arbi >? EPS then
      s |> set_soc_arbi (pymax2 n_zero (soc_arbi s - can_from_arbi))
        |> set_deficit (deficit s - can_from_arbi)
        |> set_dis_net_budget (budget_spend (dis_net_budget s) can_from_arbi)
        |> inc discharge_to_load_mwh can_from_arbi
        |> inc loss_conv_dis_to_load_mwh (conv_loss_to_load can_from_arbi)
    else s
  else s.

(** 2c) the rest of the deficit is the candidate import *)
Definition deficit_to_import (s : loop_state) : loop_state :=
  if deficit s >? EPS then
    let import_ac := deficit s in
    s |> inc e_import_mwh import_ac |> inc import_for_load_ac_mwh import_ac
  else s.

Definition cover_deficit (s : loop_state) : loop_state :=
  let s := set_deficit (pymax2 n_zero (deficit_net_mwh h)) s in
  if deficit s >? EPS
  then s |> deficit_from_oze |> deficit_from_arbi |> deficit_to_import
  else s.

(** ** 3) ARBI to grid, as the proposer asked, within SOC and C_dis *)
Definition arbi_to_grid (s : loop_state) : loop_state :=
  if budget_gt_eps (dis_net_budget s) then
    let max_net_for_grid := pymin2b (soc_arbi s) (dis_net_budget s) in
    let max_ac_for_grid := max_net_for_grid * eta_dis_frac P in
    let out_ac := pymin2 (prop_arbi_dis_to_grid_ac_mwh h) max_ac_for_grid in
    if out_ac >? EPS then
      let used_net := if eta_dis_frac P >? EPS then out_ac / eta_dis_frac P else out_ac in
      let used_net := pymin2 used_net max_net_for_grid in
      s |> set_soc_arbi (pymax2 n_zero (soc_arbi s - used_net))
        |> set_dis_net_budget (budget_spend (dis_net_budget s) used_net)
        |> inc discharge_to_grid_mwh out_ac
        |> inc export_from_arbi_ac_mwh out_ac
        |> inc e_export_mwh out_ac
        |> inc loss_conv_dis_to_grid_mwh (used_net - out_ac)
    else
      let want_ac := prop_arbi_dis_to_grid_ac_mwh h in
      let possible_ac := max_net_for_grid * eta_dis_frac P in
      let blocked := pymax2 n_zero (want_ac - possible_ac) in
      if blocked >? EPS then inc cap_blocked_dis_ac_mwh blocked s else s
  else s.

(** ** 4) ARBI from grid, as the proposer asked, within headroom and C_ch *)
Definition arbi_from_grid (s : loop_state) : loop_state :=
  let in_ac := prop_arbi_ch_from_grid_ac_mwh h in
  let net_to_arbi := in_ac * eta_ch_frac P in
  let headroom_arbi := pymax2 n_zero (emax_arbi_mwh P - soc_arbi s) in
  let net_to_arbi := pymin3b net_to_arbi headroom_arbi (ch_net_budget s) in
  if net_to_arbi >? EPS then
    let ac_needed := if eta_ch_frac P >? EPS then net_to_arbi / eta_ch_frac P else net_to_arbi in
    let s := s |> set_soc_arbi (pymin2 (emax_arbi_mwh P) (soc_arbi s + net_to_arbi))
               |> inc charge_from_grid_mwh net_to_arbi
               |> inc e_import_mwh ac_needed
               |> inc import_for_arbi_ac_mwh ac_needed
               |> inc loss_conv_ch_mwh (ac_needed - net_to_arbi) in
    if x_isfinite (cap_bess_charge_net_mwh h)
    then set_ch_net_budget (budget_spend (ch_net_budget s) net_to_arbi) s
    else s
  else
    let want_net := prop_arbi_ch_from_grid_ac_mwh h * eta_ch_frac P in
    let blocked_net :=
      pymax2 n_zero (want_net - pymax2 n_zero (pymin2b headroom_arbi (ch_net_budget s))) in
    if blocked_net >? EPS then inc cap_blocked_ch_ac_mwh blocked_net s else s.

(** ** 5) contractual power on the summed AC flows *)

(** Export, first cut: ARBI to grid; the energy goes back to the SOC (over
    eta_dis) and to the discharge budget. *)
Definition export_cut_arbi (cut_arbi : F) (s : loop_state) : loop_state :=
  if cut_arbi >? EPS then
    let net_revert :=
      if eta_dis_frac P >? EPS then cut_arbi / eta_dis_frac P else cut_arbi in
    let s := s |> dec export_from_arbi_ac_mwh cut_arbi
               |> dec e_export_mwh cut_arbi
               |> set_soc_arbi (pymin2 (emax_arbi_mwh P) (soc_arbi s + net_revert)) in
    match cap_bess_discharge_net_mwh h with
    | Fin cap_dis =>
      set_dis_net_budget (budget_restore (dis_net_budget s) net_revert cap_dis) s
    | _ => s
    end
  else s.

(** Export, second cut: the surplus; what is cut is wasted. *)
Definition export_cut_surplus (overflow : F) (s : loop_state) : loop_state :=
  if overflow >? EPS then
    let cut_surplus := pymin2 (get export_from_surplus_ac_mwh s) overflow in
    if cut_surplus >? EPS then
      s |> dec export_from_surplus_ac_mwh cut_surplus
        |> dec e_export_mwh cut_surplus
        |> inc wasted_surplus_due_to_export_cap_mwh cut_surplus
    else s
  else s.

Definition enforce_export_cap (s : loop_state) : loop_state :=
  let export_total := get export_from_surplus_ac_mwh s + get export_from_arbi_ac_mwh s in
  match cap_grid_export_ac_mwh h with
  | Fin cap =>
    if export_total >? cap + EPS then
      let overflow := export_total - cap in
      let cut_arbi := pymin2 (get export_from_arbi_ac_mwh s) overflow in
      s |> export_cut_arbi cut_arbi
        |> export_cut_surplus (overflow - cut_arbi)
        |> set_bind_export_cap true
    else s
  | _ => s
  end.

(** Import, first cut: the ARBI charge; SOC, NET charge and conversion loss
    are taken back, the charge budget is given back. *)
Definition import_cut_arbi (cut_arbi : F) (s : loop_state) : loop_state :=
  if cut_arbi >? EPS then
    let s := s |> dec import_for_arbi_ac_mwh cut_arbi
               |> dec e_import_mwh cut_arbi in
    let net_revert := cut_arbi * eta_ch_frac P in
    if net_revert >? EPS then
      let s :=
        s |> set_soc_arbi (pymax2 n_zero (soc_arbi s - net_revert))
          |> put charge_from_grid_mwh
               (pymax2 n_zero (get charge_from_grid_mwh s - net_revert))
          |> put loss_conv_ch_mwh
               (pymax2 n_zero (get loss_conv_ch_mwh s - (cut_arbi - net_revert))) in
      match cap_bess_charge_net_mwh h with
      | Fin cap_ch =>
        set_ch_net_budget (budget_restore (ch_net_budget s) net_revert cap_ch) s
      | _ => s
      end
    else s
  else s.

(** Import, second cut: the import for the load; what is cut is unserved. *)
Definition import_cut_load (overflow : F) (s : loop_state) : loop_state :=
  if overflow >? EPS then
    let cut_load := pymin2 (get import_for_load_ac_mwh s) overflow in
    if cut_load >? EPS then
      s |> dec import_for_load_ac_mwh cut_load
        |> dec e_import_mwh cut_load
        |> inc unserved_load_after_cap_ac_mwh cut_load
    else s
  else s.

Definition enforce_import_cap (s : loop_state) : loop_state :=
  let import_total := get import_for_load_ac_mwh s + get import_for_arbi_ac_mwh s in
  match cap_grid_import_ac_mwh h with
  | Fin cap =>
    if import_total >? cap + EPS then
      let overflow := import_total - cap in
      let cut_arbi := pymin2 (get import_for_arbi_ac_mwh s) overflow in
      s |> import_cut_arbi cut_arbi
        |> import_cut_load (overflow - cut_arbi)
        |> set_bind_import_cap true
    else s
  | _ => s
  end.

(** ** 6) idle loss and the SOC snapshots, then the SOC percentages *)

Definition idle_loss (s : loop_state) : loop_state :=
  if bess_lambda_h_frac P >? EPS then
    let loss_oze := soc_oze s * bess_lambda_h_frac P in
    let loss_arbi := soc_arbi s * bess_lambda_h_frac P in
    s |> set_soc_oze (pymax2 n_zero (soc_oze s - loss_oze))
      |> set_soc_arbi (pymax2 n_zero (soc_arbi s - loss_arbi))
      |> inc loss_idle_oze_mwh loss_oze
      |> inc loss_idle_arbi_mwh loss_arbi
  else s.

(** [(100.0 * soc / emax) if emax > EPS else 0.0] *)
Definition pct_of (soc emax : F) : F :=
  if emax >? EPS then n_hundred * soc / emax else n_zero.

Definition soc_percentages (s : loop_state) : loop_state :=
  let total_emax := pymax2 n_zero (emax_oze_mwh P + emax_arbi_mwh P) in
  s |> put soc_arbi_pct_of_arbi (pct_of (get soc_arbi_after_idle_mwh s) (emax_arbi_mwh P))
    |> put soc_arbi_pct_of_total (pct_of (get soc_arbi_after_idle_mwh s) total_emax)
    |> put soc_oze_pct_of_oze (pct_of (get soc_oze_after_idle_mwh s) (emax_oze_mwh P))
    |> put soc_oze_pct_of_total (pct_of (get soc_oze_after_idle_mwh s) total_emax).

Definition snapshot_before (s : loop_state) : loop_state :=
  s |> put soc_oze_before_idle_mwh (soc_oze s)
    |> put soc_arbi_before_idle_mwh (soc_arbi s).

Definition snapshot_after (s : loop_state) : loop_state :=
  s |> put soc_oze_after_idle_mwh (soc_oze s)
    |> put soc_arbi_after_idle_mwh (soc_arbi s).

Definition idle_and_snapshot (s : loop_state) : loop_state :=
  s |> snapshot_before |> idle_loss |> snapshot_after |> soc_percentages.

(** One turn of [for i in range(N)]. *)
Definition hour_body (s : loop_state) : loop_state :=
  s |> absorb_surplus |> cover_deficit |> arbi_to_grid |> arbi_from_grid
    |> enforce_export_cap |> enforce_import_cap |> idle_and_snapshot.

(** ** The financial KPIs

    They are computed on whole vectors after the loop; slot [i] depends on
    slot [i] of the flows and of the effective prices only. *)
Definition kpi (s : loop_state) : loop_state :=
  let price_import_eff := price_eff (price_import_pln_mwh h) in
  let price_export_eff := price_eff (price_export_pln_mwh h) in
  let rev_arbi_to_grid := get export_from_arbi_ac_mwh s * price_export_eff in
  let rev_surplus_export := get export_from_surplus_ac_mwh s * price_export_eff in
  let cost_grid_to_arbi := get import_for_arbi_ac_mwh s * price_import_eff in
  let cost_import_for_load := get import_for_load_ac_mwh s * price_import_eff in
  s |> put rev_arbi_to_grid_pln rev_arbi_to_grid
    |> put rev_surplus_export_pln rev_surplus_export
    |> put cost_grid_to_arbi_pln cost_grid_to_arbi
    |> put cost_import_for_load_pln cost_import_for_load
    |> put cashflow_arbi_pln (rev_arbi_to_grid - cost_grid_to_arbi)
    |> put cashflow_net_pln
         (rev_arbi_to_grid + rev_surplus_export - cost_grid_to_arbi - cost_import_for_load).
End Stage.

Section Run.
Context {F : Type} `{Num F}.

(** Row [i] of the returned dict [out]. *)
Record out_row : Type := {
  cols : col -> F;
  out_bind_export_cap : bool;
  out_bind_import_cap : bool;
  out_price_import_pln_mwh : xval F;
  out_price_export_pln_mwh : xval F
}.

Definition row_of (h : hour_in) (s : loop_state) : out_row :=
  let s := kpi h s in
  {| cols := buf s;
     out_bind_export_cap := bind_export_cap s;
     out_bind_import_cap := bind_import_cap s;
     out_price_import_pln_mwh := price_import_pln_mwh h;
     out_price_export_pln_mwh := price_export_pln_mwh h |}.

(** The hourly loop from the SOCs [so], [sa]: the state at the end of each
    hour. *)
Fixpoint loop (P : scalars) (so sa : F) (hs : list hour_in) : list loop_state :=
  match hs with
  | [] => []
  | h :: tl =>
    let s := hour_body P h (hour_init h so sa) in
    s :: loop P (soc_oze s) (soc_arbi s) tl
  end.

(** [run(H, P)]: the scalars of [H], and the vectors of [H] and [P] given
    row by row. *)
Definition run (P : scalars) (hs : list hour_in) : list out_row :=
  map (fun hs => row_of (fst hs) (snd hs))
      (combine hs (loop P (soc0_oze_mwh P) (soc0_arbi_mwh P) hs)).
End Run.

End Commit.

(* ================================================================== *)
(** * Stage 02: proposer (02_proposer.py) *)
(* ================================================================== *)

Module Proposer.

(** A Python dict with integer keys, as the list of its assignments, the
    latest first: [d[k] = v] is a cons, [d[k]] and [k in d] read the first
    entry for [k]. *)
Definition dict : Type := list (nat * nat).

Fixpoint lookup (k : nat) (d : dict) : option nat :=
  match d with
  | [] => None
  | (k', v) :: d' => if Nat.eqb k k' then Some v else lookup k d'
  end.

Definition contains (k : nat) (d : dict) : bool :=
  match lookup k d with Some _ => true | None => false end.

(** [l[:k]] for a Python int [k] *)
Definition slice_to {A} (k : Z) (l : list A) : list A :=
  if (0 <=? k)%Z then firstn (Z.to_nat k) l
  else firstn (length l - Z.to_nat (- k)) l.

(** [np.unique] on the day keys, up to the order of the result: the loop
    over the days writes disjoint keys of the two dicts, so its order does
    not show in them. *)
Definition unique (l : list String.string) : list String.string := nodup String.string_dec l.

(** [np.argsort(a)] with its default [kind]: the positions of [a] in an
    order that sorts it.  The default kind is not stable: NumPy leaves
    open in which order the positions of equal values come, and the
    outcome differs between its sort kernels.  The stage is therefore
    embedded over any such function; what it is known to do is stated
    where a theorem needs it. *)
Class Argsort (F : Type) : Type := { np_argsort : list F -> list nat }.

Section Pairs.
Context {F : Type} `{Num F} {AS : Argsort F}.
Local Open Scope num_scope.

Variable date_key : list String.string.
Variable price_import price_export : nat -> F.
Variable cycles_per_day : Z.

(** [hours[date_key == day]] *)
Definition hours_of (day : String.string) : list nat :=
  filter (fun i => String.eqb (nth i date_key String.EmptyString) day)
         (seq 0 (length date_key)).

(** [idx[perm]]: the hours of [idx] at the positions [perm] *)
Definition take (idx perm : list nat) : list nat :=
  map (fun p => nth p idx 0%nat) perm.

(** [idx[np.argsort(price_import[idx])][:cycles_per_day]] *)
Definition cand_low (idx : list nat) : list nat :=
  slice_to cycles_per_day (take idx (np_argsort (map price_import idx))).

(** [idx[np.argsort(-price_export[idx])][:cycles_per_day]] *)
Definition cand_high (idx : list nat) : list nat :=
  slice_to cycles_per_day
    (take idx (np_argsort (map (fun i => - price_export i) idx))).

(** [next((h for h in cand_high if h not in used_high and h > i_low), None)] *)
Definition next_high (cand_high used_high : list nat) (i_low : nat) : option nat :=
  find (fun h => negb (existsb (Nat.eqb h) used_high) && (i_low <? h)%nat) cand_high.

(** [for i_low in cand_low: ...] *)
Fixpoint greedy (cand_high used_high lows : list nat) (k_low_by_hour k_high_by_hour : dict)
  : dict * dict :=
  match lows with
  | [] => (k_low_by_hour, k_high_by_hour)
  | i_low :: rest =>
    match next_high cand_high used_high i_low with
    | None => greedy cand_high used_high rest k_low_by_hour k_high_by_hour
    | Some i_high =>
      greedy cand_high (i_high :: used_high) rest
             ((i_low, i_high) :: k_low_by_hour) ((i_high, i_low) :: k_high_by_hour)
    end
  end.

(** The body of [for day in np.unique(date_key)]. *)
Definition pair_day (dicts : dict * dict) (day : String.string) : dict * dict :=
  let idx := hours_of day in
  match idx with
  | [] => dicts
  | _ =>
    let lows := sort_by Nat.ltb (cand_low idx) in   (* cand_low.sort() *)
    greedy (cand_high idx) [] lows (fst dicts) (snd dicts)
  end.

Definition _build_daily_pairs : dict * dict :=
  fold_left pair_day (unique date_key) ([], []).
End Pairs.

Section Stage.
Context {F : Type} `{Num F} {AS : Argsort F}.
Local Open Scope num_scope.

(** The scalars [run] reads from [H]. *)
Record scalars : Type := {
  emax_arbi_mwh : F;
  eta_ch_frac : F;
  eta_dis_frac : F;
  base_min_profit_pln_mwh : F;
  cycles_per_day : Z;
  allow_carry_over : bool;
  force_order : bool;
  soc_low_threshold : F;      (* percent *)
  soc_high_threshold : F;     (* percent *)
  bonus_ch_window : F;        (* read as hour_bonus_ch *)
  bonus_dis_window : F;       (* read as hour_bonus_dis *)
  bonus_low_soc_ch : F;       (* soc_bonus_ch *)
  bonus_high_soc_dis : F;     (* soc_bonus_dis *)
  soc0_arbi_mwh : F
}.

(** Slot [i] of the vectors [run] reads from [H]; a BESS cap vector that
    is not in [H] stands for [np.full(N, np.inf)]. *)
Record hour_in : Type := {
  date_key : String.string;
  price_import_pln_mwh : F;
  price_export_pln_mwh : F;
  cap_grid_import_ac_mwh : F;
  cap_grid_export_ac_mwh : F;
  cap_bess_charge_net_mwh : option F;
  cap_bess_discharge_net_mwh : option F;
  bonus_hrs_ch : bool;
  bonus_hrs_dis : bool
}.

(** Slot [i] of the vectors [run] writes. *)
Record out_row : Type := {
  prop_arbi_ch_from_grid_ac_mwh : F;
  prop_arbi_dis_to_grid_ac_mwh : F;
  dec_ch : bool;
  dec_dis : bool;
  dec_ch_base : bool;
  dec_dis_base : bool;
  thr_low : F;
  thr_high : F;
  delta_k : xval F;              (* NaN outside the pairs *)
  margin_ch : xval F;            (* delta_k - thr_low *)
  margin_dis : xval F;           (* delta_k - thr_high *)
  dk_minus_thr_low : xval F;
  dk_minus_thr_high : xval F;
  pending_arbi_net_mwh : F;
  soc_arbi_sim_mwh : F;
  in_ch_bonus : bool;
  in_dis_bonus : bool;
  low_soc_bonus_hit : bool;
  high_soc_bonus_hit : bool;
  cycles_used_today : Z;
  pair_low_hour : Z;             (* -1 outside the pairs *)
  pair_high_hour : Z
}.

(** The variables carried from hour to hour; [cycles_used] is the
    [defaultdict(int)]. *)
Record loop_state : Type := {
  soc_curr : F;
  pending_arbi_net : F;
  cycles_used : list (String.string * Z);
  prev_day : option String.string
}.

Fixpoint cycles_of (day : String.string) (c : list (String.string * Z)) : Z :=
  match c with
  | [] => 0%Z
  | (d, n) :: c' => if String.eqb day d then n else cycles_of day c'
  end.

Variable P : scalars.
Variable hs : list hour_in.

Definition EPS : F := n_eps.

Definition price_import_at (i : nat) : F :=
  match nth_error hs i with Some r => price_import_pln_mwh r | None => n_zero end.
Definition price_export_at (i : nat) : F :=
  match nth_error hs i with Some r => price_export_pln_mwh r | None => n_zero end.

(** [np.minimum] on two finite numbers *)
Definition np_minimum (a b : F) : F := if b <? a then b else a.

(** [cap_eff_ch_ac[i]] and [cap_eff_dis_ac[i]] *)
Definition cap_eff_ch_ac (r : hour_in) : F :=
  match cap_bess_charge_net_mwh r with
  | Some c => np_minimum (cap_grid_import_ac_mwh r) (c / pymax2 (eta_ch_frac P) n_eps)
  | None => cap_grid_import_ac_mwh r
  end.
Definition cap_eff_dis_ac (r : hour_in) : F :=
  match cap_bess_discharge_net_mwh r with
  | Some c => np_minimum (cap_grid_export_ac_mwh r) (c * pymax2 (eta_dis_frac P) n_eps)
  | None => cap_grid_export_ac_mwh r
  end.

Definition pairs : dict * dict :=
  _build_daily_pairs (map date_key hs) price_import_at price_export_at (cycles_per_day P).
Definition k_low_by_hour : dict := fst pairs.
Definition k_high_by_hour : dict := snd pairs.

(** 0) the day boundary *)
Definition day_boundary (day : String.string) (st : loop_state) : loop_state :=
  let new_day :=
    match prev_day st with
    | None => true
    | Some d => negb (String.eqb day d)
    end in
  if new_day then
    {| soc_curr := soc_curr st;
       pending_arbi_net := if allow_carry_over P then pending_arbi_net st else n_zero;
       cycles_used := cycles_used st;
       prev_day := Some day |}
  else st.

(** 4) the two thresholds *)
Definition thr_l_of (in_ch_bonus low_soc_bonus_hit : bool) : F :=
  base_min_profit_pln_mwh P
  + (if in_ch_bonus then bonus_ch_window P else n_zero)
  + (if low_soc_bonus_hit then bonus_low_soc_ch P else n_zero).
Definition thr_h_of (in_dis_bonus high_soc_bonus_hit : bool) : F :=
  base_min_profit_pln_mwh P
  + (if in_dis_bonus then bonus_dis_window P else n_zero)
  + (if high_soc_bonus_hit then bonus_high_soc_dis P else n_zero).

(** One turn of [for i in range(N)]. *)
Definition hour_body (i : nat) (r : hour_in) (st : loop_state) : loop_state * out_row :=
  let day := date_key r in
  let st := day_boundary day st in
  (* 1) *)
  let is_low := contains i k_low_by_hour in
  let is_high := contains i k_high_by_hour in
  (* 2) *)
  let in_ch_bonus := bonus_hrs_ch r in
  let in_dis_bonus := bonus_hrs_dis r in
  (* 3) *)
  let emax := emax_arbi_mwh P in
  let headroom := pymax2 n_zero (emax - soc_curr st) in
  let low_thr_soc := emax * (soc_low_threshold P / n_hundred) in
  let high_thr_soc := emax * (soc_high_threshold P / n_hundred) in
  let low_soc_bonus_hit := soc_curr st <=? low_thr_soc in
  let high_soc_bonus_hit := soc_curr st >=? high_thr_soc in
  (* 4) *)
  let thr_l := thr_l_of in_ch_bonus low_soc_bonus_hit in
  let thr_h := thr_h_of in_dis_bonus high_soc_bonus_hit in
  if negb (is_low || is_high) then
    (* 5) *)
    (st,
     {| prop_arbi_ch_from_grid_ac_mwh := n_zero; prop_arbi_dis_to_grid_ac_mwh := n_zero;
        dec_ch := false; dec_dis := false; dec_ch_base := false; dec_dis_base := false;
        thr_low := thr_l; thr_high := thr_h;
        delta_k := NaN; margin_ch := NaN; margin_dis := NaN;
        dk_minus_thr_low := NaN; dk_minus_thr_high := NaN;
        pending_arbi_net_mwh := pending_arbi_net st; soc_arbi_sim_mwh := soc_curr st;
        in_ch_bonus := in_ch_bonus; in_dis_bonus := in_dis_bonus;
        low_soc_bonus_hit := low_soc_bonus_hit; high_soc_bonus_hit := high_soc_bonus_hit;
        cycles_used_today := cycles_of day (cycles_used st);
        pair_low_hour := (-1)%Z; pair_high_hour := (-1)%Z |})
  else
    (* 6) *)
    let '(il, ih) :=
      if is_low then (i, match lookup i k_low_by_hour with Some x => x | None => i end)
      else (match lookup i k_high_by_hour with Some x => x | None => i end, i) in
    let dk := price_export_at ih - price_import_at il in
    (* 7) *)
    let dec_ch_base :=
      is_low && ((dk - thr_l) >=? n_zero) && (headroom >? EPS)
      && (cycles_of day (cycles_used st) <? cycles_per_day P)%Z in
    let charge_net := pymin2 (cap_eff_ch_ac r * pymax2 (eta_ch_frac P) EPS) headroom in
    let dec_ch := dec_ch_base && (charge_net >? EPS) in
    let prop_ch_ac := if dec_ch then charge_net / pymax2 (eta_ch_frac P) EPS else n_zero in
    let st :=
      if dec_ch then
        {| soc_curr := pymin2 emax (soc_curr st + charge_net);
           pending_arbi_net := pending_arbi_net st + charge_net;
           cycles_used := cycles_used st;
           prev_day := prev_day st |}
      else st in
    (* 8) *)
    let cap_dis_net_from_ac := cap_eff_dis_ac r / pymax2 (eta_dis_frac P) EPS in
    let can_dis := pymin2 cap_dis_net_from_ac (soc_curr st) in
    let can_dis := if force_order P then pymin2 can_dis (pending_arbi_net st) else can_dis in
    let dec_dis_base :=
      is_high && ((dk - thr_h) >=? n_zero) && (can_dis >? EPS)
      && (cycles_of day (cycles_used st) <? cycles_per_day P)%Z in
    let prop_dis_ac := if dec_dis_base then can_dis * pymax2 (eta_dis_frac P) EPS else n_zero in
    let st :=
      if dec_dis_base then
        let pending := pymax2 n_zero (pending_arbi_net st - can_dis) in
        {| soc_curr := pymax2 n_zero (soc_curr st - can_dis);
           pending_arbi_net := pending;
           cycles_used :=
             if pending <=? EPS
             then (day, (cycles_of day (cycles_used st) + 1)%Z) :: cycles_used st
             else cycles_used st;
           prev_day := prev_day st |}
      else st in
    (* 9) *)
    (st,
     {| prop_arbi_ch_from_grid_ac_mwh := prop_ch_ac;
        prop_arbi_dis_to_grid_ac_mwh := prop_dis_ac;
        dec_ch := dec_ch; dec_dis := dec_dis_base;
        dec_ch_base := dec_ch_base; dec_dis_base := dec_dis_base;
        thr_low := thr_l; thr_high := thr_h;
        delta_k := Fin dk;
        margin_ch := Fin (dk - thr_l); margin_dis := Fin (dk - thr_h);
        dk_minus_thr_low := Fin (dk - thr_l); dk_minus_thr_high := Fin (dk - thr_h);
        pending_arbi_net_mwh := pending_arbi_net st; soc_arbi_sim_mwh := soc_curr st;
        in_ch_bonus := in_ch_bonus; in_dis_bonus := in_dis_bonus;
        low_soc_bonus_hit := low_soc_bonus_hit; high_soc_bonus_hit := high_soc_bonus_hit;
        cycles_used_today := cycles_of day (cycles_used st);
        pair_low_hour := Z.of_nat il; pair_high_hour := Z.of_nat ih |}).

Fixpoint loop (i : nat) (rs : list hour_in) (st : loop_state) : list out_row :=
  match rs with
  | [] => []
  | r :: rs' =>
    let '(st', o) := hour_body i r st in
    o :: loop (S i) rs' st'
  end.

Definition init_state : loop_state :=
  {| soc_curr := soc0_arbi_mwh P;
     pending_arbi_net := soc0_arbi_mwh P;
     cycles_used := [];
     prev_day := None |}.

(** [run(H, P)], the vectors it adds to [P] given row by row. *)
Definition run : list out_row := loop 0 hs init_state.
End Stage.

End Proposer.

(* ================================================================== *)
(** * Stage 01: ingest, the tariff-zone masks (01_ingest.py) *)
(* ================================================================== *)

Module Ingest.

(** A result, or the [RuntimeError] the code raises. *)
Inductive result (A : Type) : Type :=
| Ok (a : A)
| RuntimeError.
Arguments Ok {A} a.
Arguments RuntimeError {A}.

(** [m[a:b] = 1] on a vector of 24 ints, for [0 <= a, b <= 24] *)
Definition assign_slice (a b : Z) (m : list Z) : list Z :=
  map (fun ix => if ((a <=? Z.of_nat (fst ix)) && (Z.of_nat (fst ix) <? b))%Z
                 then 1%Z else snd ix)
      (combine (seq 0 (length m)) m).

Definition zeros24 : list Z := repeat 0%Z 24.
Definition ones24 : list Z := repeat 1%Z 24.

(** [_window]: the two bounds, already through [int(float(x or 0))] *)
Definition _window (s e : Z) : result (Z * Z) :=
  if ((0 <=? s) && (s <=? 24) && (0 <=? e) && (e <=? 24))%Z
  then Ok (s, e) else RuntimeError.

Definition _mask_from_se (s e : Z) : list Z :=
  let m := zeros24 in
  if ((s =? e) && (e =? 0))%Z then m
  else if (s <? e)%Z then assign_slice s e m
  else assign_slice 0 e (assign_slice s 24 m).

(** [_build_peak_masks_24h_am_pm], on the four bounds it looks up *)
Definition _build_peak_masks_24h_am_pm (s_morn e_morn s_aft e_aft : Z)
  : result (list Z * list Z) :=
  match _window s_morn e_morn with
  | RuntimeError => RuntimeError
  | Ok (s_am, e_am) =>
    match _window s_aft e_aft with
    | RuntimeError => RuntimeError
    | Ok (s_pm, e_pm) => Ok (_mask_from_se s_am e_am, _mask_from_se s_pm e_pm)
    end
  end.

Definition sum (m : list Z) : Z := fold_left Z.add m 0%Z.

(** What [run] stores in [cache_masks] for a (month, mode): the masks AM,
    PM and OFF. *)
Definition month_masks (s_morn e_morn s_aft e_aft : Z)
  : result (list Z * list Z * list Z) :=
  match _build_peak_masks_24h_am_pm s_morn e_morn s_aft e_aft with
  | RuntimeError => RuntimeError
  | Ok (hours24_am, hours24_pm) =>
    let am_sum := sum hours24_am in
    let pm_sum := sum hours24_pm in
    if ((am_sum =? 0) && (pm_sum =? 0))%Z then
      Ok (zeros24, zeros24, ones24)
    else
      let overlap := sum (map (fun ab => Z.land (fst ab) (snd ab))
                              (combine hours24_am hours24_pm)) in
      if (overlap >? 0)%Z then RuntimeError
      else
        let hours24_off :=
          map (fun ab => (1 - Z.lor (fst ab) (snd ab))%Z) (combine hours24_am hours24_pm) in
        if negb (sum hours24_off + am_sum + pm_sum =? 24)%Z then RuntimeError
        else Ok (hours24_am, hours24_pm, hours24_off)
  end.

End Ingest.

(* ================================================================== *)
(** * Stage 04b: pricing, the K coefficient (04b_pricing_dyst.py) *)
(* ================================================================== *)

Module Pricing.

Inductive Kgroup : Set := K1 | K2 | K3 | K4.

Section Stage.
Context {F : Type} `{Num F}.
Local Open Scope num_scope.

(** Slot [i] of [pobor], [is_cap_peak] and [day_id]. *)
Record hour : Type := {
  pobor : F;
  is_cap_peak : Z;
  day_id : Z
}.

(** [k_A_values.get(Kg, 1.0)] on the dict as a partial function *)
Definition A_of (k_A_values : Kgroup -> option F) (Kg : Kgroup) : F :=
  match k_A_values Kg with Some a => a | None => n_one end.

(** [to_K]; [None] is the [IndexError] of [thr[j]] on a short list *)
Definition to_K (thr : list F) (delta_s : F) : option Kgroup :=
  match thr with
  | [] => None
  | t0 :: thr1 =>
    if delta_s <? t0 then Some K1
    else match thr1 with
         | [] => None
         | t1 :: thr2 =>
           if delta_s <? t1 then Some K2
           else match thr2 with
                | [] => None
                | t2 :: _ => if delta_s <? t2 then Some K3 else Some K4
                end
         end
  end.

(** [np.sum] of a vector *)
Definition np_sum (l : list F) : F := fold_left n_add l n_zero.

(** The body of [for did in np.unique(day_id)]: Delta-S of the day. *)
Definition delta_s_of_day (hs : list hour) (did : Z) : F :=
  let idx := filter (fun h => (day_id h =? did)%Z) hs in
  let peak := map pobor (filter (fun h => (is_cap_peak h =? 1)%Z) idx) in
  let off := map pobor (filter (fun h => (is_cap_peak h =? 0)%Z) idx) in
  let Np := length peak in
  let Nf := length off in
  let E_peak := np_sum peak in
  let E_off := np_sum off in
  if Nat.eqb Nf 0 then n_big
  else
    let avg_peak := E_peak / n_of_nat (Nat.max Np 1) in
    let avg_off := E_off / n_of_nat (Nat.max Nf 1) in
    if (avg_off <=? n_zero) && (avg_peak >? n_zero) then n_big
    else if (avg_off <=? n_zero) && (avg_peak <=? n_zero) then n_zero
    else (avg_peak / avg_off - n_one) * n_hundred.

(** The three dicts keyed by day, as one list of entries. *)
Definition by_day (hs : list hour) (thr : list F) (k_A_values : Kgroup -> option F)
  : list (Z * (F * option (F * Kgroup))) :=
  map (fun did =>
         let delta_s := delta_s_of_day hs did in
         (did, (delta_s,
                match to_K thr delta_s with
                | Some Kg => Some (A_of k_A_values Kg, Kg)
                | None => None
                end)))
      (nodup Z.eq_dec (map day_id hs)).

Fixpoint day_entry {A} (did : Z) (d : list (Z * A)) : option A :=
  match d with
  | [] => None
  | (k, v) :: d' => if (k =? did)%Z then Some v else day_entry did d'
  end.

(** [_compute_K_A_per_day]: per hour, Delta-S, A and the K group of its
    day; [None] when [to_K] raised. *)
Definition _compute_K_A_per_day (hs : list hour) (k_thresholds_pct : list F)
           (k_A_values : Kgroup -> option F) : option (list (F * F * Kgroup)) :=
  let thr := sort_by n_ltb k_thresholds_pct in
  let d := by_day hs thr k_A_values in
  fold_right
    (fun h acc =>
       match acc, day_entry (day_id h) d with
       | Some rows, Some (delta_s, Some (A, Kg)) => Some ((delta_s, A, Kg) :: rows)
       | _, _ => None
       end)
    (Some []) hs.

(** [sys_moc_i] of [run], for the scenario whose consumption is [pobor] *)
Definition sys_moc (sys_moc_rate : F) (h : hour) (A_day_i : F) : F :=
  pobor h * sys_moc_rate * A_day_i * (if (is_cap_peak h =? 1)%Z then n_one else n_zero).

(** The capacity fee of every hour. *)
Definition sys_moc_per_hour (sys_moc_rate : F) (hs : list hour)
           (k_thresholds_pct : list F) (k_A_values : Kgroup -> option F)
  : option (list F) :=
  match _compute_K_A_per_day hs k_thresholds_pct k_A_values with
  | Some rows =>
    Some (map (fun hr => sys_moc sys_moc_rate (fst hr) (snd (fst (snd hr))))
              (combine hs rows))
  | None => None
  end.
End Stage.

End Pricing.

(* ================================================================== *)
(** * Properties of the stages, and the scenarios they are tried on *)
(* ================================================================== *)

Module CommitSpec.
Import Commit.

Section Exact.
Local Open Scope Q_scope.

(** Both SOCs of a loop state are within the capacities. *)
Definition soc_ok (P : @scalars Q) (s : @loop_state Q) : Prop :=
  0 <= soc_oze s <= emax_oze_mwh P /\ 0 <= soc_arbi s <= emax_arbi_mwh P.

(** The four SOC snapshots of a row are within the capacities. *)
Definition snapshots_ok (P : @scalars Q) (b : col -> Q) : Prop :=
  (0 <= b soc_oze_before_idle_mwh <= emax_oze_mwh P /\
   0 <= b soc_oze_after_idle_mwh <= emax_oze_mwh P) /\
  (0 <= b soc_arbi_before_idle_mwh <= emax_arbi_mwh P /\
   0 <= b soc_arbi_after_idle_mwh <= emax_arbi_mwh P).

(** A flow that a step of the hour either left at 0.0 or set above EPS. *)
Definition zero_or_above (x : Q) : Prop := x == 0 \/ EPS < x.

(** Slot [i] of the AC flows before the caps are enforced. *)
Definition tentative (b : col -> Q) : Prop :=
  zero_or_above (b export_from_surplus_ac_mwh) /\
  zero_or_above (b export_from_arbi_ac_mwh) /\
  zero_or_above (b import_for_load_ac_mwh) /\
  zero_or_above (b import_for_arbi_ac_mwh) /\
  b wasted_surplus_due_to_export_cap_mwh == 0 /\
  b unserved_load_after_cap_ac_mwh == 0.

Definition import_tentative (b : col -> Q) : Prop :=
  zero_or_above (b import_for_load_ac_mwh) /\
  zero_or_above (b import_for_arbi_ac_mwh) /\
  b unserved_load_after_cap_ac_mwh == 0.

(** The export side after the enforcement: the sum is within the cap (up
    to EPS), and surplus was wasted only once the ARBI export was cut to
    nothing. *)
Definition export_capped (h : @hour_in Q) (b : col -> Q) : Prop :=
  (forall c, cap_grid_export_ac_mwh h = Fin c -> 0 <= c ->
     b export_from_surplus_ac_mwh + b export_from_arbi_ac_mwh <= c + EPS) /\
  (0 < b wasted_surplus_due_to_export_cap_mwh -> b export_from_arbi_ac_mwh == 0).

(** The import side, likewise. *)
Definition import_capped (h : @hour_in Q) (b : col -> Q) : Prop :=
  (forall c, cap_grid_import_ac_mwh h = Fin c -> 0 <= c ->
     b import_for_load_ac_mwh + b import_for_arbi_ac_mwh <= c + EPS) /\
  (0 < b unserved_load_after_cap_ac_mwh -> b import_for_arbi_ac_mwh == 0).

Definition caps_done (h : @hour_in Q) (b : col -> Q) : Prop :=
  export_capped h b /\ import_capped h b.





End Exact.

Section AnyNumbers.
Context {F : Type} `{Num F}.
Local Open Scope num_scope.

(** The cash flows of a row, the way [run] computes them from the row's
    revenues and costs. *)
Definition cashflow_as_computed (r : @out_row F) : Prop :=
  cols r cashflow_arbi_pln
    = cols r rev_arbi_to_grid_pln - cols r cost_grid_to_arbi_pln /\
  cols r cashflow_net_pln
    = cols r rev_arbi_to_grid_pln + cols r rev_surplus_export_pln
      - cols r cost_grid_to_arbi_pln - cols r cost_import_for_load_pln.

(** The cash-flow identities as the specification writes them, up to the
    equality [eq] of the numbers. *)
Definition cashflow_identities (eq : F -> F -> Prop) (r : @out_row F) : Prop :=
  eq (cols r cashflow_arbi_pln)
     (cols r rev_arbi_to_grid_pln - cols r cost_grid_to_arbi_pln) /\
  eq (cols r cashflow_net_pln)
     (cols r cashflow_arbi_pln + cols r rev_surplus_export_pln
      - cols r cost_import_for_load_pln).

(** A price slot with 0.0 in the place of a missing price. *)
Definition zero_if_missing (p : xval F) : xval F :=
  match p with Fin x => Fin x | _ => Fin n_zero end.

Definition with_zero_prices (h : @hour_in F) : @hour_in F :=
  {| cap_grid_export_ac_mwh := cap_grid_export_ac_mwh h;
     cap_grid_import_ac_mwh := cap_grid_import_ac_mwh h;
     cap_bess_charge_net_mwh := cap_bess_charge_net_mwh h;
     cap_bess_discharge_net_mwh := cap_bess_discharge_net_mwh h;
     surplus_net_mwh := surplus_net_mwh h;
     deficit_net_mwh := deficit_net_mwh h;
     price_import_pln_mwh := zero_if_missing (price_import_pln_mwh h);
     price_export_pln_mwh := zero_if_missing (price_export_pln_mwh h);
     prop_arbi_dis_to_grid_ac_mwh := prop_arbi_dis_to_grid_ac_mwh h;
     prop_arbi_ch_from_grid_ac_mwh := prop_arbi_ch_from_grid_ac_mwh h |}.

(** The revenues and costs of a row are its flows times the effective
    prices of the hour. *)
Definition priced_with_effective (h : @hour_in F) (r : @out_row F) : Prop :=
  cols r rev_arbi_to_grid_pln
    = cols r export_from_arbi_ac_mwh * price_eff (price_export_pln_mwh h) /\
  cols r rev_surplus_export_pln
    = cols r export_from_surplus_ac_mwh * price_eff (price_export_pln_mwh h) /\
  cols r cost_grid_to_arbi_pln
    = cols r import_for_arbi_ac_mwh * price_eff (price_import_pln_mwh h) /\
  cols r cost_import_for_load_pln
    = cols r import_for_load_ac_mwh * price_eff (price_import_pln_mwh h).

(** Two rows agree on every numeric column and on both flags. *)
Definition same_numbers (r r' : @out_row F) : Prop :=
  (forall c, cols r c = cols r' c) /\
  out_bind_export_cap r = out_bind_export_cap r' /\
  out_bind_import_cap r = out_bind_import_cap r'.
End AnyNumbers.

(** The range check of [_check_03_commit] (06_validate.py) on the rows of
    stage 03: the counts [out_of_range_soc_oze] and [out_of_range_soc_arbi];
    the validator raises when one of them is positive. *)
Definition out_of_range {F} `{Num F} (x : F) : bool :=
  (n_ltb x n_zero || n_ltb n_one x)%bool.

Definition out_of_range_soc_oze {F} `{Num F} (rows : list (@out_row F)) : nat :=
  length (filter (fun r => out_of_range (cols r soc_oze_pct_of_total)) rows).

Definition out_of_range_soc_arbi {F} `{Num F} (rows : list (@out_row F)) : nat :=
  length (filter (fun r => out_of_range (cols r soc_arbi_pct_of_total)) rows).

(** ** Scenarios *)

(** A full ARBI pool of 1 MWh and no OZE pool; no losses. *)
Definition full_arbi_Q : @scalars Q :=
  {| emax_arbi_mwh := 1; emax_oze_mwh := 0; eta_ch_frac := 1; eta_dis_frac := 1;
     bess_lambda_h_frac := 0; arbi_dis_to_load := true;
     soc0_oze_mwh := 0; soc0_arbi_mwh := 1 |}.

(** S4: a surplus of 5 MWh against an export cap of 1 MWh, with an ARBI
    discharge of 0.5 MWh proposed; the import price is missing. *)
Definition hour_S4_Q : @hour_in Q :=
  {| cap_grid_export_ac_mwh := Fin 1; cap_grid_import_ac_mwh := Fin 10;
     cap_bess_charge_net_mwh := PInf; cap_bess_discharge_net_mwh := PInf;
     surplus_net_mwh := 5; deficit_net_mwh := 0;
     price_import_pln_mwh := NaN; price_export_pln_mwh := Fin 300;
     prop_arbi_dis_to_grid_ac_mwh := 1 # 2; prop_arbi_ch_from_grid_ac_mwh := 0 |}.

(** A deficit of 3 MWh against an import cap of 2 MWh, with an ARBI charge
    of 0.5 MWh proposed into a pool at 0.25 MWh. *)
Definition quarter_arbi_Q : @scalars Q :=
  {| emax_arbi_mwh := 1; emax_oze_mwh := 0; eta_ch_frac := 9 # 10; eta_dis_frac := 9 # 10;
     bess_lambda_h_frac := 1 # 1000; arbi_dis_to_load := false;
     soc0_oze_mwh := 0; soc0_arbi_mwh := 1 # 4 |}.

Definition hour_import_cut_Q : @hour_in Q :=
  {| cap_grid_export_ac_mwh := Fin 1; cap_grid_import_ac_mwh := Fin 2;
     cap_bess_charge_net_mwh := Fin 1; cap_bess_discharge_net_mwh := Fin 1;
     surplus_net_mwh := 0; deficit_net_mwh := 3;
     price_import_pln_mwh := Fin 400; price_export_pln_mwh := PInf;
     prop_arbi_dis_to_grid_ac_mwh := 0; prop_arbi_ch_from_grid_ac_mwh := 1 # 2 |}.





(** The same pool in binary64, with an hour in which ARBI sells 0.3 MWh,
    0.1 MWh of surplus is exported and ARBI buys 0.3 MWh back, all at
    1 PLN/MWh; no cap binds. *)
Definition full_arbi_f : @scalars float :=
  {| emax_arbi_mwh := 1; emax_oze_mwh := 0; eta_ch_frac := 1; eta_dis_frac := 1;
     bess_lambda_h_frac := 0; arbi_dis_to_load := true;
     soc0_oze_mwh := 0; soc0_arbi_mwh := 1 |}%float.

Definition hour_round_trip_f : @hour_in float :=
  {| cap_grid_export_ac_mwh := Fin 10; cap_grid_import_ac_mwh := Fin 10;
     cap_bess_charge_net_mwh := PInf; cap_bess_discharge_net_mwh := PInf;
     surplus_net_mwh := 0.1; deficit_net_mwh := 0;
     price_import_pln_mwh := Fin 1; price_export_pln_mwh := Fin 1;
     prop_arbi_dis_to_grid_ac_mwh := 0.3; prop_arbi_ch_from_grid_ac_mwh := 0.3 |}%float.

(** An idle hour: no surplus, no deficit, nothing proposed. *)
Definition hour_idle_f : @hour_in float :=
  {| cap_grid_export_ac_mwh := Fin 10; cap_grid_import_ac_mwh := Fin 10;
     cap_bess_charge_net_mwh := Fin 1; cap_bess_discharge_net_mwh := Fin 1;
     surplus_net_mwh := 0; deficit_net_mwh := 0;
     price_import_pln_mwh := Fin 1; price_export_pln_mwh := Fin 1;
     prop_arbi_dis_to_grid_ac_mwh := 0; prop_arbi_ch_from_grid_ac_mwh := 0 |}%float.

End CommitSpec.

Module ProposerSpec.
Import Proposer.



(** ** What is known of [np.argsort] *)

(** What NumPy promises of [np.argsort(a)], whatever the kind: a
    permutation of the positions of [a] in which no position comes after
    one of a strictly larger value. *)
Definition sorts {F} `{Num F} (A : Argsort F) (a : list F) : Prop :=
  Permutation (np_argsort a) (seq 0 (length a)) /\
  StronglySorted (fun p q => n_ltb (nth q a n_zero) (nth p a n_zero) = false)
                 (np_argsort a).

Definition argsort_ok {F} `{Num F} (A : Argsort F) : Prop := forall a : list F, sorts A a.

(** [np.argsort(a, kind="stable")]: positions of equal values in ascending
    order.  This is the order the comments at the two calls of the source
    count on ("przy remisie rosnaco po czasie dzieki idx"), and the tie
    rule of the specification. *)
Definition argsort_stable {F} `{Num F} : Argsort F :=
  {| np_argsort := fun a =>
       sort_by (fun p q => n_ltb (nth p a n_zero) (nth q a n_zero)) (seq 0 (length a)) |}.

(** ** The pairing, as the specification tells it *)

Section Pairing.
Local Open Scope nat_scope.

(** [sel] is made of the [k] first hours of [idx] in the order [before] (all
    of them when there are fewer). *)
Definition selects_first (before : nat -> nat -> Prop) (k : nat) (idx sel : list nat) : Prop :=
  NoDup sel /\ incl sel idx /\ length sel = Nat.min k (length idx) /\
  StronglySorted before sel /\
  forall i j, In i sel -> In j idx -> ~ In j sel -> before i j.

(** The pairs [greedy] makes, in the order it makes them. *)
Fixpoint greedy_pairs (cand_high used_high lows : list nat) : list (nat * nat) :=
  match lows with
  | [] => []
  | i_low :: rest =>
    match next_high cand_high used_high i_low with
    | None => greedy_pairs cand_high used_high rest
    | Some i_high => (i_low, i_high) :: greedy_pairs cand_high (i_high :: used_high) rest
    end
  end.

Definition swap (p : nat * nat) : nat * nat := (snd p, fst p).
End Pairing.

Section PairingOrders.
Local Open Scope Q_scope.

(** [i] is at most as dear to buy in as [j]; [i] is at least as dear to
    sell in as [j]; [i] is strictly dearer to sell in than [j]. *)
Definition as_cheap (price_import : nat -> Q) (i j : nat) : Prop :=
  price_import i <= price_import j.
Definition as_dear (price_export : nat -> Q) (i j : nat) : Prop :=
  price_export j <= price_export i.
Definition dearer (price_export : nat -> Q) (i j : nat) : Prop :=
  price_export j < price_export i.

(** The tie rule: [i] ranks before [j] when it is cheaper, or as cheap and
    earlier; when it is dearer, or as dear and earlier. *)
Definition cheaper_or_earlier (price_import : nat -> Q) (i j : nat) : Prop :=
  price_import i < price_import j \/ (price_import i == price_import j /\ (i < j)%nat).

(** The pairs of one day. *)
Definition day_pairs {AS : Argsort Q} (date_key : list String.string)
  (price_import price_export : nat -> Q) (K : Z) (day : String.string)
  : list (nat * nat) :=
  let idx := hours_of date_key day in
  greedy_pairs (cand_high price_export K idx) []
               (sort_by Nat.ltb (cand_low price_import K idx)).
End PairingOrders.

(** The count [both_flags] of [_check_02_proposer] (06_validate.py): the
    rows with [dec_ch AND dec_dis]; the validator raises when it is
    positive. *)
Definition both_flags {F} (rows : list (@out_row F)) : nat :=
  length (filter (fun o => dec_ch o && dec_dis o) rows).

(** ** Scenarios *)

Local Open Scope string_scope.
Definition day_2025_01_01 : String.string := "2025-01-01".
Local Close Scope string_scope.

(** S5: a pool of 1 MWh at 5 percent; the low-SOC bonus of 30 applies below
    10 percent; the base threshold is 50; one cycle a day. *)
Definition scalars_S5 : @scalars Q :=
  {| emax_arbi_mwh := 1; eta_ch_frac := 1; eta_dis_frac := 1;
     base_min_profit_pln_mwh := 50; cycles_per_day := 1;
     allow_carry_over := false; force_order := true;
     soc_low_threshold := 10; soc_high_threshold := 90;
     bonus_ch_window := 0; bonus_dis_window := 0;
     bonus_low_soc_ch := 30; bonus_high_soc_dis := 0;
     soc0_arbi_mwh := 5 # 100 |}.

Definition hour_S5 (price_import price_export : Q) : @hour_in Q :=
  {| date_key := day_2025_01_01;
     price_import_pln_mwh := price_import; price_export_pln_mwh := price_export;
     cap_grid_import_ac_mwh := 1; cap_grid_export_ac_mwh := 1;
     cap_bess_charge_net_mwh := Some 1; cap_bess_discharge_net_mwh := Some 1;
     bonus_hrs_ch := false; bonus_hrs_dis := false |}.

(** Two hours: buy at 100, sell at 185 (spread 85) or at 170 (spread 70). *)
Definition hours_S5_85 : list (@hour_in Q) := [hour_S5 100 100; hour_S5 150 185].

(** Three hours of one day in binary64, two cycles a day, AC caps of
    0.5 MWh: hour 1 is the high hour of the pair (0, 1) and the low hour of
    the pair (1, 2). *)
Definition scalars_chain : @scalars float :=
  {| emax_arbi_mwh := 1; eta_ch_frac := 1; eta_dis_frac := 1;
     base_min_profit_pln_mwh := 50; cycles_per_day := 2;
     allow_carry_over := false; force_order := false;
     soc_low_threshold := 0; soc_high_threshold := 100;
     bonus_ch_window := 0; bonus_dis_window := 0;
     bonus_low_soc_ch := 0; bonus_high_soc_dis := 0;
     soc0_arbi_mwh := 0 |}%float.

Definition hour_chain (price_import price_export : float) : @hour_in float :=
  {| date_key := day_2025_01_01;
     price_import_pln_mwh := price_import; price_export_pln_mwh := price_export;
     cap_grid_import_ac_mwh := 0.5%float; cap_grid_export_ac_mwh := 0.5%float;
     cap_bess_charge_net_mwh := Some 1%float; cap_bess_discharge_net_mwh := Some 1%float;
     bonus_hrs_ch := false; bonus_hrs_dis := false |}.

Definition hours_chain : list (@hour_in float) :=
  [hour_chain 10 0; hour_chain 20 100; hour_chain 100 90]%float.

(** The two vectors [np.argsort] is called on for that day:
    [price_import[idx]] and [-price_export[idx]]. *)
Definition chain_low_keys : list float := [10; 20; 100]%float.
Definition chain_high_keys : list float := [-0; -100; -90]%float.

(** The same day and prices in exact arithmetic, for the pairing alone. *)
Definition chain_days : list String.string :=
  [day_2025_01_01; day_2025_01_01; day_2025_01_01].
Definition chain_import (i : nat) : Q := nth i [10; 20; 100] 0.
Definition chain_export (i : nat) : Q := nth i [0; 100; 90] 0.





End ProposerSpec.

(* ================================================================== *)
(** * Stage 01: the zone masks of a month *)
(* ================================================================== *)

Module IngestSpec.
Import Ingest.
Local Open Scope Z_scope.

(** Hour [h] is marked by the window with bounds [s] and [e]: no hour for
    the bounds 0 and 0, the hours of [s, e) when [s < e], those of
    [s, 24) and [0, e) otherwise. *)
Definition in_window (s e : Z) (h : nat) : bool :=
  negb ((s =? 0) && (e =? 0)) &&
  (if s <? e then (s <=? Z.of_nat h) && (Z.of_nat h <? e)
   else (s <=? Z.of_nat h) || (Z.of_nat h <? e)).

(** The 24-hour 0/1 vector of a set of hours. *)
Definition mask_of (f : nat -> bool) : list Z :=
  map (fun h => Z.b2z (f h)) (seq 0 24).

Definition in_range (s : Z) : Prop := 0 <= s <= 24.

(** The number of hours of the half-open interval [s, e) on the 24-hour
    ring. *)
Definition ring_size (s e : Z) : Z := (e - s) mod 24.

End IngestSpec.

(* ================================================================== *)
(** * Stage 04b: the K group of a day *)
(* ================================================================== *)

Module PricingSpec.
Import Pricing.

(** What the three dicts hold for day [did] when [to_K] returns. *)
Definition day_row {F} `{Num F} (hs : list (@hour F)) (thr : list F)
           (k_A_values : Kgroup -> option F) (did : Z) : F * F * Kgroup :=
  let delta_s := delta_s_of_day hs did in
  let Kg := match to_K thr delta_s with Some Kg => Kg | None => K4 end in
  (delta_s, A_of k_A_values Kg, Kg).

(** The default [k_A_values] of the parameters. *)
Definition k_A_default (Kg : Kgroup) : option Q :=
  Some match Kg with K1 => 17 # 100 | K2 => 1 # 2 | K3 => 83 # 100 | K4 => 1 end.

(** S6: a day (number 1) with the peak-fee hours at 6 MWh and the off
    hours at 2 MWh, followed by an hour of the next day. *)
Definition hours_S6 : list (@hour Q) :=
  [ {| pobor := 2; is_cap_peak := 0; day_id := 1 |};
    {| pobor := 6; is_cap_peak := 1; day_id := 1 |};
    {| pobor := 6; is_cap_peak := 1; day_id := 1 |};
    {| pobor := 2; is_cap_peak := 0; day_id := 1 |};
    {| pobor := 3; is_cap_peak := 0; day_id := 2 |} ].

End PricingSpec.

(* ================================================================== *)
(** * Stage 03: resuming a run *)
(* ================================================================== *)

Module CommitResume.
Import Commit.

(** The scalars with other initial SOCs. *)
Definition with_soc0 {F} (P : @scalars F) (so sa : F) : @scalars F :=
  {| emax_arbi_mwh := emax_arbi_mwh P; emax_oze_mwh := emax_oze_mwh P;
     eta_ch_frac := eta_ch_frac P; eta_dis_frac := eta_dis_frac P;
     bess_lambda_h_frac := bess_lambda_h_frac P; arbi_dis_to_load := arbi_dis_to_load P;
     soc0_oze_mwh := so; soc0_arbi_mwh := sa |}.

(** The SOCs after the idle loss of the last row, the initial SOCs when
    there is no row. *)
Definition soc_at_end {F} `{Num F} (P : @scalars F) (rows : list (@out_row F)) : F * F :=
  match rev rows with
  | r :: _ => (cols r soc_oze_after_idle_mwh, cols r soc_arbi_after_idle_mwh)
  | [] => (soc0_oze_mwh P, soc0_arbi_mwh P)
  end.

(** The same on the loop states, from the SOCs [so], [sa]. *)
Definition end_soc {F} (so sa : F) (l : list (@loop_state F)) : F * F :=
  match rev l with
  | s :: _ => (soc_oze s, soc_arbi s)
  | [] => (so, sa)
  end.

End CommitResume.

(* ================================================================== *)
(** * Stage 03: what every hour keeps *)
(* ================================================================== *)

Module CommitLaws.
Import Commit.
Local Open Scope Q_scope.

(** The two totals are the sums of their parts. *)
Definition totals_ok (b : col -> Q) : Prop :=
  b e_export_mwh == b export_from_surplus_ac_mwh + b export_from_arbi_ac_mwh /\
  b e_import_mwh == b import_for_load_ac_mwh + b import_for_arbi_ac_mwh.

(** Nothing was done for the load yet. *)
Definition load_zero (b : col -> Q) : Prop :=
  b discharge_to_load_mwh == 0 /\ b import_for_load_ac_mwh == 0 /\
  b unserved_load_after_cap_ac_mwh == 0.

(** While the deficit is being covered: what was discharged to the load and
    what is left of the deficit make up [max(0.0, deficit_net_mwh[i])]. *)
Definition load_open (h : @hour_in Q) (s : @loop_state Q) : Prop :=
  buf s discharge_to_load_mwh + deficit s == pymax2 0 (deficit_net_mwh h) /\
  0 <= deficit s /\ 0 <= buf s discharge_to_load_mwh /\
  (pymax2 0 (deficit_net_mwh h) <= EPS -> buf s discharge_to_load_mwh == 0) /\
  buf s import_for_load_ac_mwh == 0 /\
  buf s unserved_load_after_cap_ac_mwh == 0.

(** The deficit of the hour went to the discharge to the load, the import
    for the load and the unserved load, up to a rest of at most EPS. *)
Definition load_served (h : @hour_in Q) (b : col -> Q) : Prop :=
  (deficit_net_mwh h <= EPS ->
   b discharge_to_load_mwh + b import_for_load_ac_mwh
   + b unserved_load_after_cap_ac_mwh == 0) /\
  (EPS < deficit_net_mwh h ->
   deficit_net_mwh h - EPS
   <= b discharge_to_load_mwh + b import_for_load_ac_mwh
      + b unserved_load_after_cap_ac_mwh
   <= deficit_net_mwh h).

(** While the surplus is being absorbed: the ARBI charge, the export and
    what is left of the surplus are within the surplus of the hour. *)
Definition surplus_open (h : @hour_in Q) (s : @loop_state Q) : Prop :=
  buf s wasted_surplus_due_to_export_cap_mwh == 0 /\
  0 <= buf s charge_from_surplus_mwh /\ 0 <= buf s export_from_surplus_ac_mwh /\
  0 <= surplus_net_i s /\
  buf s charge_from_surplus_mwh + buf s export_from_surplus_ac_mwh + surplus_net_i s
  <= surplus_net_mwh h.

(** The ARBI charge from the surplus, the export of surplus and the wasted
    surplus are within the surplus of the hour. *)
Definition surplus_used (h : @hour_in Q) (b : col -> Q) : Prop :=
  (surplus_net_mwh h <= EPS ->
   b charge_from_surplus_mwh + b export_from_surplus_ac_mwh
   + b wasted_surplus_due_to_export_cap_mwh == 0) /\
  (EPS < surplus_net_mwh h ->
   0 <= b charge_from_surplus_mwh + b export_from_surplus_ac_mwh
        + b wasted_surplus_due_to_export_cap_mwh
     <= surplus_net_mwh h).






(** No idle loss was booked yet. *)
Definition idle_zero (b : col -> Q) : Prop :=
  b loss_idle_oze_mwh == 0 /\ b loss_idle_arbi_mwh == 0.

(** The idle loss is the SOC before it times lambda (nothing when lambda is
    at most EPS), and the SOC after it is the SOC before it less the
    loss. *)
Definition idle_books (P : @scalars Q) (b : col -> Q) : Prop :=
  b loss_idle_oze_mwh
  == (if Qltb EPS (bess_lambda_h_frac P)
      then b soc_oze_before_idle_mwh * bess_lambda_h_frac P else 0) /\
  b loss_idle_arbi_mwh
  == (if Qltb EPS (bess_lambda_h_frac P)
      then b soc_arbi_before_idle_mwh * bess_lambda_h_frac P else 0) /\
  b soc_oze_after_idle_mwh == b soc_oze_before_idle_mwh - b loss_idle_oze_mwh /\
  b soc_arbi_after_idle_mwh == b soc_arbi_before_idle_mwh - b loss_idle_arbi_mwh.

(** Nothing went between ARBI and the grid yet. *)
Definition arbi_idle (b : col -> Q) : Prop :=
  b discharge_to_grid_mwh == 0 /\ b export_from_arbi_ac_mwh == 0 /\
  b import_for_arbi_ac_mwh == 0.

(** After 3): the discharge to the grid is within what was asked for. *)
Definition dis_asked (h : @hour_in Q) (b : col -> Q) : Prop :=
  0 <= b export_from_arbi_ac_mwh /\
  b export_from_arbi_ac_mwh <= b discharge_to_grid_mwh /\
  (0 < b discharge_to_grid_mwh ->
   b discharge_to_grid_mwh <= prop_arbi_dis_to_grid_ac_mwh h) /\
  b import_for_arbi_ac_mwh == 0.

(** The ARBI flows at the grid are within what the proposer asked for. *)
Definition asked_ok (h : @hour_in Q) (b : col -> Q) : Prop :=
  0 <= b export_from_arbi_ac_mwh /\
  b export_from_arbi_ac_mwh <= b discharge_to_grid_mwh /\
  (0 < b discharge_to_grid_mwh ->
   b discharge_to_grid_mwh <= prop_arbi_dis_to_grid_ac_mwh h) /\
  0 <= b import_for_arbi_ac_mwh /\
  (0 < b import_for_arbi_ac_mwh ->
   b import_for_arbi_ac_mwh <= prop_arbi_ch_from_grid_ac_mwh h).

(** No energy flow of the hour is negative. *)
Definition flows_nonneg (b : col -> Q) : Prop :=
  0 <= b charge_from_surplus_mwh /\ 0 <= b charge_from_grid_mwh /\
  0 <= b discharge_to_load_mwh /\ 0 <= b discharge_to_grid_mwh /\
  0 <= b export_from_surplus_ac_mwh /\ 0 <= b export_from_arbi_ac_mwh /\
  0 <= b import_for_load_ac_mwh /\ 0 <= b import_for_arbi_ac_mwh /\
  0 <= b wasted_surplus_due_to_export_cap_mwh /\
  0 <= b unserved_load_after_cap_ac_mwh /\
  0 <= b cap_blocked_dis_ac_mwh /\ 0 <= b cap_blocked_ch_ac_mwh.

(** No loss of the hour is negative. *)
Definition losses_nonneg (b : col -> Q) : Prop :=
  0 <= b loss_idle_oze_mwh /\ 0 <= b loss_idle_arbi_mwh /\
  0 <= b loss_conv_ch_mwh /\ 0 <= b loss_conv_dis_to_grid_mwh /\
  0 <= b loss_conv_dis_to_load_mwh.

End CommitLaws.

(* ================================================================== *)
(** * Stage 02: what every hour of the proposer keeps *)
(* ================================================================== *)

Module ProposerLaws.
Import Proposer.
Local Open Scope Q_scope.

(** The simulated SOC is within the capacity and the pending energy is not
    negative. *)
Definition sim_ok (P : @scalars Q) (st : @loop_state Q) : Prop :=
  0 <= soc_curr st <= emax_arbi_mwh P /\ 0 <= pending_arbi_net st.

(** The cycles counted for every day are within [cycles_per_day]. *)
Definition cycles_ok (P : @scalars Q) (st : @loop_state Q) : Prop :=
  forall day, (0 <= cycles_of day (cycles_used st) <= Z.max 0 (cycles_per_day P))%Z.

(** A proposal is zero without its decision flag, and with it positive and
    within the effective AC cap of the hour. *)
Definition proposals_ok (P : @scalars Q) (r : @hour_in Q) (o : @out_row Q) : Prop :=
  (dec_ch o = false -> prop_arbi_ch_from_grid_ac_mwh o == 0) /\
  (dec_ch o = true ->
   0 < prop_arbi_ch_from_grid_ac_mwh o <= cap_eff_ch_ac P r) /\
  (dec_dis o = false -> prop_arbi_dis_to_grid_ac_mwh o == 0) /\
  (dec_dis o = true ->
   0 < prop_arbi_dis_to_grid_ac_mwh o <= cap_eff_dis_ac P r).

End ProposerLaws.

(* ================================================================== *)
(** * Lists: [zip] of two images of one list *)
(* ================================================================== *)

Lemma combine_map_self {A B} (f : A -> B) (l : list A) :
  combine l (map f l) = map (fun x => (x, f x)) l.
Proof. induction l as [|x l IH]; cbn; [reflexivity | now rewrite IH]. Qed.

Lemma combine_map_map {A B C} (f : A -> B) (g : A -> C) (l : list A) :
  combine (map f l) (map g l) = map (fun x => (f x, g x)) l.
Proof. induction l as [|x l IH]; cbn; [reflexivity | now rewrite IH]. Qed.

(* ================================================================== *)
(** * Exact arithmetic: comparisons, [min] and [max] *)
(* ================================================================== *)

Section ExactArithmetic.
Local Open Scope Q_scope.

Lemma Qltb_true_iff (a b : Q) : Qltb a b = true <-> a < b.
Proof.
  unfold Qltb. rewrite negb_true_iff. split; intro E.
  - apply Qnot_le_lt. intro L. apply Qle_bool_iff in L. congruence.
  - destruct (Qle_bool b a) eqn:L; [|reflexivity]. apply Qle_bool_iff in L. lra.
Qed.

Lemma Qltb_false_iff (a b : Q) : Qltb a b = false <-> b <= a.
Proof. unfold Qltb. rewrite negb_false_iff. apply Qle_bool_iff. Qed.

Lemma Qle_bool_false_iff (a b : Q) : Qle_bool a b = false <-> b < a.
Proof.
  split; intro E.
  - apply Qnot_le_lt. intro L. apply Qle_bool_iff in L. congruence.
  - destruct (Qle_bool a b) eqn:L; [|reflexivity]. apply Qle_bool_iff in L. lra.
Qed.

Lemma pymin2_Q (a b : Q) : (pymin2 a b = a /\ a <= b) \/ (pymin2 a b = b /\ b < a).
Proof.
  unfold pymin2; cbn. destruct (Qltb b a) eqn:E.
  - right. split; [reflexivity | now apply Qltb_true_iff].
  - left. split; [reflexivity | now apply Qltb_false_iff].
Qed.

Lemma pymax2_Q (a b : Q) : (pymax2 a b = a /\ b <= a) \/ (pymax2 a b = b /\ a < b).
Proof.
  unfold pymax2; cbn. destruct (Qltb a b) eqn:E.
  - right. split; [reflexivity | now apply Qltb_true_iff].
  - left. split; [reflexivity | now apply Qltb_false_iff].
Qed.

Lemma Qdiv_pos (a b : Q) : 0 < a -> 0 < b -> 0 < a / b.
Proof. intros Ha Hb. apply Qlt_shift_div_l; lra. Qed.

Lemma Qdiv_ge_self (a e : Q) : 0 <= a -> 0 < e -> e <= 1 -> a <= a / e.
Proof. intros Ha He He1. apply Qle_shift_div_l; [exact He|]. nra. Qed.
End ExactArithmetic.

(** Unfolds the operations of [NumQ] into those of [Q]. *)
Ltac unfold_num :=
  cbn [n_zero n_one n_hundred n_eps n_big n_add n_sub n_mul n_div n_opp n_of_nat
       n_ltb n_leb n_isfinite NumQ] in *.

Ltac no_if t := lazymatch t with context [if _ then _ else _] => fail | _ => idtac end.

(** Splits on the innermost condition of the goal. *)
Ltac break_if :=
  match goal with
  | |- context [if Qltb ?a ?b then _ else _] =>
      no_if a; no_if b;
      let E := fresh "E" in
      destruct (Qltb a b) eqn:E;
      [apply Qltb_true_iff in E | apply Qltb_false_iff in E]
  | |- context [if Qle_bool ?a ?b then _ else _] =>
      no_if a; no_if b;
      let E := fresh "E" in
      destruct (Qle_bool a b) eqn:E;
      [apply Qle_bool_iff in E | apply Qle_bool_false_iff in E]
  | |- context [match ?x with Fin _ => _ | _ => _ end] => destruct x
  | |- context [match ?x with Some _ => _ | None => _ end] => destruct x
  | |- context [if ?b then _ else _] => no_if b; destruct b
  end.

(** Splits on which argument a [min] or [max] returns. *)
Ltac qcase :=
  match goal with
  | |- context [@pymin2 Q _ ?a ?b] =>
      let H := fresh "Hm" in let L := fresh "Lm" in
      destruct (pymin2_Q a b) as [[H L]|[H L]]; rewrite H in *; clear H
  | |- context [@pymax2 Q _ ?a ?b] =>
      let H := fresh "Hm" in let L := fresh "Lm" in
      destruct (pymax2_Q a b) as [[H L]|[H L]]; rewrite H in *; clear H
  | H0 : context [@pymin2 Q _ ?a ?b] |- _ =>
      let H := fresh "Hm" in let L := fresh "Lm" in
      destruct (pymin2_Q a b) as [[H L]|[H L]]; rewrite H in *; clear H
  | H0 : context [@pymax2 Q _ ?a ?b] |- _ =>
      let H := fresh "Hm" in let L := fresh "Lm" in
      destruct (pymax2_Q a b) as [[H L]|[H L]]; rewrite H in *; clear H
  end.

(** Names a quotient of two positive numbers, keeping only that it is
    positive. *)
Ltac div_pos :=
  try (match goal with
       | E1 : _ < ?e, E2 : _ < ?o |- context [?o / ?e] =>
           let D := fresh "D" in
           assert (D : 0 < o / e) by (apply Qdiv_pos; lra);
           revert D; generalize (o / e); intros
       end).

(* ================================================================== *)
(** * Stage 03: commit *)
(* ================================================================== *)

Section CommitProofs.
Import Commit CommitSpec.
Local Open Scope Q_scope.

Ltac unfold_state :=
  cbv [Commit.EPS get put inc dec set_soc_oze set_soc_arbi set_dis_net_budget
       set_ch_net_budget set_surplus_net_i set_deficit set_buf set_bind_export_cap
       set_bind_import_cap soc_oze soc_arbi dis_net_budget ch_net_budget surplus_net_i
       deficit buf bind_export_cap bind_import_cap col_beq
       pymin3b pymin2b budget_gt_eps budget_spend budget_restore budget_of_cap
       x_isfinite] in *;
  unfold_num.

Ltac step_ok := intros; repeat break_if; unfold_state; try tauto; div_pos;
                repeat qcase; try lra.

(** ** The SOCs stay within the capacities *)

Lemma surplus_to_oze_ok P s : soc_ok P s -> soc_ok P (surplus_to_oze P s).
Proof. unfold soc_ok, surplus_to_oze. destruct s. unfold_state. step_ok. Qed.

Lemma surplus_to_arbi_ok P h s : soc_ok P s -> soc_ok P (surplus_to_arbi P h s).
Proof. unfold soc_ok, surplus_to_arbi. destruct s. unfold_state. step_ok. Qed.

Lemma surplus_to_export_ok P s : soc_ok P s -> soc_ok P (surplus_to_export s).
Proof. unfold soc_ok, surplus_to_export. destruct s. unfold_state. step_ok. Qed.

Lemma absorb_surplus_ok P h s : soc_ok P s -> soc_ok P (absorb_surplus P h s).
Proof.
  intros Hs. unfold absorb_surplus.
  destruct (n_ltb Commit.EPS (surplus_net_i s)); [|exact Hs].
  now apply surplus_to_export_ok, surplus_to_arbi_ok, surplus_to_oze_ok.
Qed.

Lemma deficit_from_oze_ok P s : soc_ok P s -> soc_ok P (deficit_from_oze P s).
Proof. unfold soc_ok, deficit_from_oze. destruct s. unfold_state. step_ok. Qed.

Lemma deficit_from_arbi_ok P s : soc_ok P s -> soc_ok P (deficit_from_arbi P s).
Proof. unfold soc_ok, deficit_from_arbi. destruct s. unfold_state. step_ok. Qed.

Lemma deficit_to_import_ok P s : soc_ok P s -> soc_ok P (deficit_to_import s).
Proof. unfold soc_ok, deficit_to_import. destruct s. unfold_state. step_ok. Qed.

Lemma set_deficit_ok P v s : soc_ok P s -> soc_ok P (set_deficit v s).
Proof. unfold soc_ok. destruct s. unfold_state. tauto. Qed.

Lemma cover_deficit_ok P h s : soc_ok P s -> soc_ok P (cover_deficit P h s).
Proof.
  intros Hs. unfold cover_deficit. cbv zeta.
  apply (set_deficit_ok P (pymax2 n_zero (deficit_net_mwh h))) in Hs.
  destruct (n_ltb _ _); [|exact Hs].
  now apply deficit_to_import_ok, deficit_from_arbi_ok, deficit_from_oze_ok.
Qed.

Lemma arbi_to_grid_ok P h s : soc_ok P s -> soc_ok P (arbi_to_grid P h s).
Proof. unfold soc_ok, arbi_to_grid. destruct s. unfold_state. step_ok. Qed.

Lemma arbi_from_grid_ok P h s : soc_ok P s -> soc_ok P (arbi_from_grid P h s).
Proof. unfold soc_ok, arbi_from_grid. destruct s. unfold_state. step_ok. Qed.

Lemma export_cut_arbi_ok P h c s : soc_ok P s -> soc_ok P (export_cut_arbi P h c s).
Proof. unfold soc_ok, export_cut_arbi. destruct s. unfold_state. step_ok. Qed.

Lemma export_cut_surplus_ok P o s : soc_ok P s -> soc_ok P (export_cut_surplus o s).
Proof. unfold soc_ok, export_cut_surplus. destruct s. unfold_state. step_ok. Qed.

Lemma set_bind_export_cap_ok P v s : soc_ok P s -> soc_ok P (set_bind_export_cap v s).
Proof. unfold soc_ok. destruct s. unfold_state. tauto. Qed.

Lemma set_bind_import_cap_ok P v s : soc_ok P s -> soc_ok P (set_bind_import_cap v s).
Proof. unfold soc_ok. destruct s. unfold_state. tauto. Qed.

Lemma enforce_export_cap_ok P h s : soc_ok P s -> soc_ok P (enforce_export_cap P h s).
Proof.
  intros Hs. unfold enforce_export_cap. cbv zeta.
  destruct (cap_grid_export_ac_mwh h); try exact Hs.
  destruct (n_ltb _ _); [|exact Hs].
  now apply set_bind_export_cap_ok, export_cut_surplus_ok, export_cut_arbi_ok.
Qed.

Lemma import_cut_arbi_ok P h c s : soc_ok P s -> soc_ok P (import_cut_arbi P h c s).
Proof. unfold soc_ok, import_cut_arbi. destruct s. unfold_state. step_ok. Qed.

Lemma import_cut_load_ok P o s : soc_ok P s -> soc_ok P (import_cut_load o s).
Proof. unfold soc_ok, import_cut_load. destruct s. unfold_state. step_ok. Qed.

Lemma enforce_import_cap_ok P h s : soc_ok P s -> soc_ok P (enforce_import_cap P h s).
Proof.
  intros Hs. unfold enforce_import_cap. cbv zeta.
  destruct (cap_grid_import_ac_mwh h); try exact Hs.
  destruct (n_ltb _ _); [|exact Hs].
  now apply set_bind_import_cap_ok, import_cut_load_ok, import_cut_arbi_ok.
Qed.

Lemma idle_and_snapshot_ok P s :
  soc_ok P s ->
  soc_ok P (idle_and_snapshot P s) /\ snapshots_ok P (buf (idle_and_snapshot P s)).
Proof.
  unfold soc_ok, snapshots_ok, idle_and_snapshot, soc_percentages, snapshot_after,
    idle_loss, snapshot_before.
  destruct s. unfold_state. intros.
  repeat break_if; unfold_state.
  - assert (0 <= soc_oze0 * bess_lambda_h_frac P) by (apply Qmult_le_0_compat; lra).
    assert (0 <= soc_arbi0 * bess_lambda_h_frac P) by (apply Qmult_le_0_compat; lra).
    repeat qcase; lra.
  - lra.
Qed.

Lemma hour_body_ok P h s :
  soc_ok P s ->
  soc_ok P (hour_body P h s) /\ snapshots_ok P (buf (hour_body P h s)).
Proof.
  intros Hs. unfold hour_body.
  now apply idle_and_snapshot_ok, enforce_import_cap_ok, enforce_export_cap_ok,
    arbi_from_grid_ok, arbi_to_grid_ok, cover_deficit_ok, absorb_surplus_ok.
Qed.

Lemma kpi_snapshots P h s : snapshots_ok P (buf s) -> snapshots_ok P (buf (kpi h s)).
Proof. unfold snapshots_ok, kpi. destruct s. unfold_state. tauto. Qed.

Lemma loop_snapshots P hs : forall so sa,
  0 <= so <= emax_oze_mwh P -> 0 <= sa <= emax_arbi_mwh P ->
  Forall (fun s => snapshots_ok P (buf s)) (loop P so sa hs).
Proof.
  induction hs as [|h tl IH]; intros so sa Ho Ha; cbn [loop]; [constructor|].
  destruct (hour_body_ok P h (hour_init h so sa)) as [[Ho' Ha'] Hsnap].
  { split; assumption. }
  constructor; [exact Hsnap | now apply IH].
Qed.

Lemma in_run {F} `{Num F} (P : @scalars F) hs r :
  In r (run P hs) ->
  exists h s, In (h, s) (combine hs (loop P (soc0_oze_mwh P) (soc0_arbi_mwh P) hs)) /\
              r = row_of h s.
Proof.
  unfold run. intros Hin. apply in_map_iff in Hin. destruct Hin as [[h s] [E Hin]].
  exists h, s. split; [exact Hin | now rewrite <- E].
Qed.

(** C1. Whatever the hourly inputs, the caps, the efficiencies and the
    self-discharge rate are: when the initial SOCs are within the
    capacities, the four SOC snapshots of every hour (OZE and ARBI, before
    and after the idle loss) are within [0, emax_oze] and [0, emax_arbi];
    the hours in which the grid-cap enforcement takes an ARBI charge or
    discharge back are among them. *)
Theorem soc_within_bounds (P : @scalars Q) (hs : list hour_in) (r : out_row) :
  0 <= soc0_oze_mwh P <= emax_oze_mwh P ->
  0 <= soc0_arbi_mwh P <= emax_arbi_mwh P ->
  In r (run P hs) ->
  (0 <= cols r soc_oze_before_idle_mwh <= emax_oze_mwh P /\
   0 <= cols r soc_oze_after_idle_mwh <= emax_oze_mwh P) /\
  (0 <= cols r soc_arbi_before_idle_mwh <= emax_arbi_mwh P /\
   0 <= cols r soc_arbi_after_idle_mwh <= emax_arbi_mwh P).
Proof.
  intros Ho Ha Hin. apply in_run in Hin. destruct Hin as (h & s & Hin & ->).
  apply in_combine_r in Hin.
  pose proof (loop_snapshots P hs _ _ Ho Ha) as Hall.
  rewrite Forall_forall in Hall. specialize (Hall s Hin).
  apply (kpi_snapshots P h) in Hall. exact Hall.
Qed.

(** The theorem at the hour of scenario S4, run twice: the export cap takes
    the whole ARBI discharge back. *)
Lemma soc_within_bounds_witness :
  Forall (fun r : out_row =>
            (0 <= cols r soc_oze_before_idle_mwh <= 0 /\
             0 <= cols r soc_oze_after_idle_mwh <= 0) /\
            (0 <= cols r soc_arbi_before_idle_mwh <= 1 /\
             0 <= cols r soc_arbi_after_idle_mwh <= 1))
         (run full_arbi_Q [hour_S4_Q; hour_S4_Q]).
Proof.
  apply Forall_forall. intros r Hr.
  apply (soc_within_bounds full_arbi_Q [hour_S4_Q; hour_S4_Q] r).
  - cbn. lra.
  - cbn. lra.
  - exact Hr.
Defined.

(** ** The grid caps hold on the summed AC flows *)

Ltac flows_step := unfold tentative, zero_or_above; intros; repeat break_if; unfold_state;
  try tauto; repeat qcase; try lra.

Lemma surplus_to_oze_flows P s : tentative (buf s) -> tentative (buf (surplus_to_oze P s)).
Proof. unfold surplus_to_oze. destruct s. unfold_state. flows_step. Qed.

Lemma surplus_to_arbi_flows P h s :
  tentative (buf s) -> tentative (buf (surplus_to_arbi P h s)).
Proof. unfold surplus_to_arbi. destruct s. unfold_state. flows_step. Qed.

Lemma surplus_to_export_flows s : tentative (buf s) -> tentative (buf (surplus_to_export s)).
Proof. unfold surplus_to_export. destruct s. unfold_state. flows_step. Qed.

Lemma absorb_surplus_flows P h s :
  tentative (buf s) -> tentative (buf (absorb_surplus P h s)).
Proof.
  intros Hs. unfold absorb_surplus. destruct (n_ltb _ _); [|exact Hs].
  now apply surplus_to_export_flows, surplus_to_arbi_flows, surplus_to_oze_flows.
Qed.

Lemma deficit_from_oze_flows P s :
  tentative (buf s) -> tentative (buf (deficit_from_oze P s)).
Proof. unfold deficit_from_oze. destruct s. unfold_state. flows_step. Qed.

Lemma deficit_from_arbi_flows P s :
  tentative (buf s) -> tentative (buf (deficit_from_arbi P s)).
Proof. unfold deficit_from_arbi. destruct s. unfold_state. flows_step. Qed.

Lemma deficit_to_import_flows s : tentative (buf s) -> tentative (buf (deficit_to_import s)).
Proof. unfold deficit_to_import. destruct s. unfold_state. flows_step. Qed.

Lemma cover_deficit_flows P h s :
  tentative (buf s) -> tentative (buf (cover_deficit P h s)).
Proof.
  intros Hs. unfold cover_deficit. cbv zeta.
  assert (Hs' : tentative (buf (set_deficit (pymax2 n_zero (deficit_net_mwh h)) s)))
    by (destruct s; exact Hs).
  destruct (n_ltb _ _); [|exact Hs'].
  now apply deficit_to_import_flows, deficit_from_arbi_flows, deficit_from_oze_flows.
Qed.

Lemma arbi_to_grid_flows P h s : tentative (buf s) -> tentative (buf (arbi_to_grid P h s)).
Proof. unfold arbi_to_grid. destruct s. unfold_state. flows_step. Qed.

(** The AC energy bought for a NET charge above EPS is above EPS as well,
    the charging efficiency being at most 1. *)
Lemma arbi_from_grid_flows P h s :
  eta_ch_frac P <= 1 ->
  tentative (buf s) -> tentative (buf (arbi_from_grid P h s)).
Proof.
  unfold arbi_from_grid. destruct s. unfold_state.
  unfold tentative, zero_or_above; intros Heta Hs.
  repeat break_if; unfold_state; try tauto.
  all: try (match goal with
       | E1 : _ < ?e, E2 : _ < ?o |- context [?o / ?e] =>
           let D := fresh "D" in
           assert (D : o <= o / e) by (apply Qdiv_ge_self; lra);
           revert D; generalize (o / e); intros
       end).
  all: lra.
Qed.

Lemma hour_init_flows h so sa : tentative (buf (@hour_init Q _ h so sa)).
Proof.
  unfold tentative, zero_or_above. cbn.
  repeat split; try (left; reflexivity); reflexivity.
Qed.

Lemma enforce_export_cap_post P h s :
  tentative (buf s) ->
  export_capped h (buf (enforce_export_cap P h s)) /\
  import_tentative (buf (enforce_export_cap P h s)).
Proof.
  unfold enforce_export_cap, export_cut_arbi, export_cut_surplus.
  unfold tentative, export_capped, import_tentative, zero_or_above.
  destruct s. unfold_state. intros Hs.
  destruct (cap_grid_export_ac_mwh h) as [c| | |] eqn:Ecap.
  2-4: split; [split; [intros c Hc; discriminate | lra] | tauto].
  repeat break_if; unfold_state;
    (split; [split; [intros c' Hc' Hpos; injection Hc' as <- | ] | tauto]).
  all: repeat qcase; try lra.
Qed.

Lemma enforce_import_cap_post P h s :
  export_capped h (buf s) /\ import_tentative (buf s) ->
  export_capped h (buf (enforce_import_cap P h s)) /\
  import_capped h (buf (enforce_import_cap P h s)).
Proof.
  unfold enforce_import_cap, import_cut_arbi, import_cut_load.
  unfold export_capped, import_capped, import_tentative, zero_or_above.
  destruct s. unfold_state. intros [Hex Hs].
  destruct (cap_grid_import_ac_mwh h) as [c| | |] eqn:Ecap.
  2-4: split; [exact Hex | split; [intros c Hc; discriminate | lra]].
  repeat break_if; unfold_state;
    (split; [exact Hex | split; [intros c' Hc' Hpos; injection Hc' as <- | ]]).
  all: repeat qcase; try lra.
Qed.

Lemma idle_and_snapshot_caps P h s :
  caps_done h (buf s) -> caps_done h (buf (idle_and_snapshot P s)).
Proof.
  unfold idle_and_snapshot, soc_percentages, snapshot_after, idle_loss, snapshot_before.
  unfold caps_done, export_capped, import_capped.
  destruct s. unfold_state. intros Hs. repeat break_if; unfold_state; exact Hs.
Qed.


Lemma hour_body_caps P h so sa :
  eta_ch_frac P <= 1 ->
  caps_done h (buf (hour_body P h (hour_init h so sa))).
Proof.
  intros Heta. unfold hour_body.
  apply idle_and_snapshot_caps, enforce_import_cap_post, enforce_export_cap_post.
  apply arbi_from_grid_flows; [exact Heta|].
  apply arbi_to_grid_flows, cover_deficit_flows, absorb_surplus_flows, hour_init_flows.
Qed.

Lemma loop_caps P hs : forall so sa h s,
  eta_ch_frac P <= 1 ->
  In (h, s) (combine hs (loop P so sa hs)) -> caps_done h (buf s).
Proof.
  induction hs as [|h0 tl IH]; intros so sa h s Heta Hin; cbn in Hin; [contradiction|].
  destruct Hin as [E|Hin].
  - injection E as <- <-. now apply hour_body_caps.
  - eapply IH; eauto.
Qed.

Lemma combine_run {F} `{Num F} (P : @scalars F) hs h r :
  In (h, r) (combine hs (run P hs)) ->
  exists s, In (h, s) (combine hs (loop P (soc0_oze_mwh P) (soc0_arbi_mwh P) hs)) /\
            r = row_of h s.
Proof.
  unfold run. generalize (loop P (soc0_oze_mwh P) (soc0_arbi_mwh P) hs) as ss.
  induction hs as [|h0 tl IH]; intros ss Hin; [contradiction|].
  destruct ss as [|s0 ss']; [contradiction|].
  cbn in Hin. destruct Hin as [E|Hin].
  - injection E as <- <-. exists s0. split; [now left | reflexivity].
  - destruct (IH ss' Hin) as (s & Hs & ->). exists s. split; [now right | reflexivity].
Qed.


(** ** The cash flows *)

Lemma cashflow_columns {F} `{Num F} (P : @scalars F) hs r :
  In r (run P hs) -> cashflow_as_computed r.
Proof.
  intros Hin. apply in_run in Hin. destruct Hin as (h & s & _ & ->).
  unfold cashflow_as_computed, row_of, kpi. cbn [cols].
  cbv [put get set_buf buf col_beq]. split; reflexivity.
Qed.

(** C4, as the code has it.  In any arithmetic, the row's cashflow_arbi is
    rev_arbi_to_grid - cost_grid_to_arbi, and its cashflow_net is
    ((rev_arbi_to_grid + rev_surplus_export) - cost_grid_to_arbi)
    - cost_import_for_load, the operations taken in this order.  In exact
    arithmetic this cashflow_net equals cashflow_arbi + rev_surplus_export
    - cost_import_for_load. *)
Theorem cashflow_identities_exact :
  (forall (F : Type) (N : Num F) (P : @scalars F) hs r,
     In r (run P hs) -> cashflow_as_computed r) /\
  (forall (P : @scalars Q) hs r,
     In r (run P hs) -> cashflow_identities Qeq r).
Proof.
  split.
  - intros F N P hs r Hin. exact (cashflow_columns P hs r Hin).
  - intros P hs r Hin. destruct (cashflow_columns P hs r Hin) as [Ea En].
    unfold cashflow_identities. rewrite En, Ea. unfold_num. split; [reflexivity | ring].
Qed.

(** The theorem at scenario S4, in exact arithmetic and in binary64. *)
Lemma cashflow_identities_exact_witness :
  Forall (fun r : @out_row Q => cashflow_identities Qeq r) (run full_arbi_Q [hour_S4_Q]) /\
  Forall (fun r : @out_row float => cashflow_as_computed r)
         (run full_arbi_f [hour_round_trip_f]).
Proof.
  split; apply Forall_forall; intros r Hr.
  - exact (proj2 cashflow_identities_exact full_arbi_Q [hour_S4_Q] r Hr).
  - exact (proj1 cashflow_identities_exact float NumFloat full_arbi_f [hour_round_trip_f] r Hr).
Defined.

(** In binary64 the second identity is not exact: in the hour of
    [hour_round_trip_f] the revenues are 0.3 and 0.1 and the ARBI cost is
    0.3, so that cashflow_net = (0.3 + 0.1) - 0.3 - 0 is
    0.10000000000000003 while cashflow_arbi + rev_surplus_export
    - cost_import_for_load = (0.3 - 0.3) + 0.1 - 0 is 0.1. *)
Lemma cashflow_net_not_exact_in_binary64 :
  ~ (forall (P : @scalars float) hs r,
       In r (run P hs) -> cashflow_identities (@eq float) r).
Proof.
  intro Hall.
  destruct (Hall full_arbi_f [hour_round_trip_f] _ (or_introl eq_refl)) as [_ E].
  match type of E with
  | ?a = ?b => assert (X : PrimFloat.eqb a b = false) by (vm_compute; reflexivity)
  end.
  rewrite <- E in X. vm_compute in X. discriminate X.
Qed.

(** ** Missing prices *)

Lemma price_eff_zero_if_missing {F} `{Num F} (p : xval F) :
  price_eff (zero_if_missing p) = price_eff p.
Proof. destruct p; reflexivity. Qed.

Lemma hour_init_with_zero_prices {F} `{Num F} (h : @hour_in F) so sa :
  hour_init (with_zero_prices h) so sa = hour_init h so sa.
Proof. reflexivity. Qed.

Lemma absorb_surplus_with_zero_prices {F} `{Num F} (P : @scalars F) h s :
  absorb_surplus P (with_zero_prices h) s = absorb_surplus P h s.
Proof. reflexivity. Qed.

Lemma cover_deficit_with_zero_prices {F} `{Num F} (P : @scalars F) h s :
  cover_deficit P (with_zero_prices h) s = cover_deficit P h s.
Proof. reflexivity. Qed.

Lemma arbi_to_grid_with_zero_prices {F} `{Num F} (P : @scalars F) h s :
  arbi_to_grid P (with_zero_prices h) s = arbi_to_grid P h s.
Proof. reflexivity. Qed.

Lemma arbi_from_grid_with_zero_prices {F} `{Num F} (P : @scalars F) h s :
  arbi_from_grid P (with_zero_prices h) s = arbi_from_grid P h s.
Proof. reflexivity. Qed.

Lemma enforce_export_cap_with_zero_prices {F} `{Num F} (P : @scalars F) h s :
  enforce_export_cap P (with_zero_prices h) s = enforce_export_cap P h s.
Proof. reflexivity. Qed.

Lemma enforce_import_cap_with_zero_prices {F} `{Num F} (P : @scalars F) h s :
  enforce_import_cap P (with_zero_prices h) s = enforce_import_cap P h s.
Proof. reflexivity. Qed.

Lemma hour_body_with_zero_prices {F} `{Num F} (P : @scalars F) h so sa :
  hour_body P (with_zero_prices h) (hour_init (with_zero_prices h) so sa)
  = hour_body P h (hour_init h so sa).
Proof.
  unfold hour_body.
  rewrite hour_init_with_zero_prices, absorb_surplus_with_zero_prices,
    cover_deficit_with_zero_prices, arbi_to_grid_with_zero_prices,
    arbi_from_grid_with_zero_prices, enforce_export_cap_with_zero_prices,
    enforce_import_cap_with_zero_prices.
  reflexivity.
Qed.

Lemma loop_with_zero_prices {F} `{Num F} (P : @scalars F) hs : forall so sa,
  loop P so sa (map with_zero_prices hs) = loop P so sa hs.
Proof.
  induction hs as [|h tl IH]; intros so sa; [reflexivity|].
  cbn [map loop]. rewrite hour_body_with_zero_prices. cbv zeta. now rewrite IH.
Qed.

Lemma row_with_zero_prices {F} `{Num F} (h : @hour_in F) s :
  same_numbers (row_of h s) (row_of (with_zero_prices h) s).
Proof.
  unfold same_numbers, row_of, kpi. cbn [cols out_bind_export_cap out_bind_import_cap].
  cbn [with_zero_prices price_import_pln_mwh price_export_pln_mwh].
  rewrite !price_eff_zero_if_missing. repeat split.
Qed.

Lemma row_priced_with_effective {F} `{Num F} (h : @hour_in F) s :
  priced_with_effective h (row_of h s).
Proof.
  unfold priced_with_effective, row_of, kpi. cbn [cols].
  cbv [put get set_buf buf col_beq]. repeat split.
Qed.

(** C8. The numeric columns and the flags of [run] are those of the run on
    the input in which every missing price (NaN, +inf, -inf) is replaced by
    0.0; the revenues and costs are the flows times the effective prices,
    which are numbers; the two price columns of the output are the input
    price vectors, missing entries included. *)
Theorem missing_prices_count_as_zero
  (F : Type) (N : Num F) (P : @scalars F) (hs : list hour_in) :
  Forall2 same_numbers (run P hs) (run P (map with_zero_prices hs)) /\
  Forall2 priced_with_effective hs (run P hs) /\
  map out_price_import_pln_mwh (run P hs) = map price_import_pln_mwh hs /\
  map out_price_export_pln_mwh (run P hs) = map price_export_pln_mwh hs.
Proof.
  unfold run. rewrite loop_with_zero_prices.
  generalize (soc0_oze_mwh P) (soc0_arbi_mwh P).
  induction hs as [|h tl IH]; intros so sa.
  - cbn. repeat split; constructor.
  - cbn [loop map combine fst snd]. cbv zeta.
    destruct (IH (soc_oze (hour_body P h (hour_init h so sa)))
                 (soc_arbi (hour_body P h (hour_init h so sa)))) as (I1 & I2 & I3 & I4).
    repeat split.
    + constructor; [apply row_with_zero_prices | exact I1].
    + constructor; [apply row_priced_with_effective | exact I2].
    + cbn [out_price_import_pln_mwh row_of]. now f_equal.
    + cbn [out_price_export_pln_mwh row_of]. now f_equal.
Qed.

(** ** The SOC shares *)

(** C10 at a full ARBI pool and an idle hour, in binary64: the share of the
    total capacity is 100, and the validator's range check [0, 1] counts the
    row as out of range. *)
Lemma soc_share_of_total_is_a_percentage :
  map (fun r => cols r soc_arbi_pct_of_total) (run full_arbi_f [hour_idle_f])
  = [100%float] /\
  out_of_range_soc_arbi (run full_arbi_f [hour_idle_f]) = 1%nat.
Proof. split; vm_compute; reflexivity. Qed.

(** ** Every row is the row of one hour *)

Lemma row_of_an_hour (P : @scalars Q) hs : forall so sa h s,
  0 <= so <= emax_oze_mwh P -> 0 <= sa <= emax_arbi_mwh P ->
  In (h, s) (combine hs (loop P so sa hs)) ->
  exists so' sa',
    soc_ok P (hour_init h so' sa') /\ s = hour_body P h (hour_init h so' sa').
Proof.
  induction hs as [|h0 tl IH]; intros so sa h s Ho Ha Hin; cbn in Hin; [contradiction|].
  destruct Hin as [E|Hin].
  - injection E as <- <-. exists so, sa. split; [split; assumption | reflexivity].
  - destruct (hour_body_ok P h0 (hour_init h0 so sa)) as [[Ho' Ha'] _].
    { split; assumption. }
    exact (IH _ _ h s Ho' Ha' Hin).
Qed.

Lemma run_row_of_an_hour (P : @scalars Q) hs h r :
  0 <= soc0_oze_mwh P <= emax_oze_mwh P ->
  0 <= soc0_arbi_mwh P <= emax_arbi_mwh P ->
  In (h, r) (combine hs (run P hs)) ->
  exists so sa,
    soc_ok P (hour_init h so sa) /\ r = row_of h (hour_body P h (hour_init h so sa)).
Proof.
  intros Ho Ha Hin. apply combine_run in Hin. destruct Hin as (s & Hin & ->).
  destruct (row_of_an_hour P hs _ _ h s Ho Ha Hin) as (so & sa & Hok & ->).
  now exists so, sa.
Qed.

Lemma loop_row_of_an_hour {F} `{Num F} (P : @scalars F) hs : forall so sa h s,
  In (h, s) (combine hs (loop P so sa hs)) ->
  exists so' sa', s = hour_body P h (hour_init h so' sa').
Proof.
  induction hs as [|h0 tl IH]; intros so sa h s Hin; cbn in Hin; [contradiction|].
  destruct Hin as [E|Hin].
  - injection E as <- <-. now exists so, sa.
  - exact (IH _ _ h s Hin).
Qed.

Lemma run_row_of_some_hour {F} `{Num F} (P : @scalars F) hs h r :
  In (h, r) (combine hs (run P hs)) ->
  exists so sa, r = row_of h (hour_body P h (hour_init h so sa)).
Proof.
  intros Hin. apply combine_run in Hin. destruct Hin as (s & Hin & ->).
  destruct (loop_row_of_an_hour P hs _ _ h s Hin) as (so & sa & ->).
  now exists so, sa.
Qed.

(** ** What the enforcement of the caps does to the state *)









(** ** A property that every step keeps is kept by the hour *)

Section Walk.
Context {F : Type} `{Num F}.
Variable P : @scalars F.
Variable h : @hour_in F.
Variable I : @loop_state F -> Prop.

Section Surplus.
Hypothesis to_oze : forall s, I s -> I (surplus_to_oze P s).
Hypothesis to_arbi : forall s, I s -> I (surplus_to_arbi P h s).
Hypothesis to_export : forall s, I s -> I (surplus_to_export s).

Lemma absorb_surplus_walk s : I s -> I (absorb_surplus P h s).
Proof.
  intros Hs. unfold absorb_surplus. destruct (n_ltb _ _); [|exact Hs].
  now apply to_export, to_arbi, to_oze.
Qed.
End Surplus.

Section Deficit.
Hypothesis new_deficit : forall v s, I s -> I (set_deficit v s).
Hypothesis from_oze : forall s, I s -> I (deficit_from_oze P s).
Hypothesis from_arbi : forall s, I s -> I (deficit_from_arbi P s).
Hypothesis to_import : forall s, I s -> I (deficit_to_import s).

Lemma cover_deficit_walk s : I s -> I (cover_deficit P h s).
Proof.
  intros Hs. unfold cover_deficit. cbv zeta.
  destruct (n_ltb _ _); [|now apply new_deficit].
  now apply to_import, from_arbi, from_oze, new_deficit.
Qed.
End Deficit.

Section Tail.
Hypothesis to_grid : forall s, I s -> I (arbi_to_grid P h s).
Hypothesis from_grid : forall s, I s -> I (arbi_from_grid P h s).
Hypothesis cut_export_arbi : forall o s,
  I s -> I (export_cut_arbi P h (pymin2 (get export_from_arbi_ac_mwh s) o) s).
Hypothesis cut_export_surplus : forall o s, I s -> I (export_cut_surplus o s).
Hypothesis bind_export : forall s, I s -> I (set_bind_export_cap true s).
Hypothesis cut_import_arbi : forall o s,
  I s -> I (import_cut_arbi P h (pymin2 (get import_for_arbi_ac_mwh s) o) s).
Hypothesis cut_import_load : forall o s, I s -> I (import_cut_load o s).
Hypothesis bind_import : forall s, I s -> I (set_bind_import_cap true s).

Lemma enforce_export_cap_walk s : I s -> I (enforce_export_cap P h s).
Proof.
  intros Hs. unfold enforce_export_cap. cbv zeta.
  destruct (cap_grid_export_ac_mwh h); try exact Hs.
  destruct (n_ltb _ _); [|exact Hs].
  now apply bind_export, cut_export_surplus, cut_export_arbi.
Qed.

Lemma enforce_import_cap_walk s : I s -> I (enforce_import_cap P h s).
Proof.
  intros Hs. unfold enforce_import_cap. cbv zeta.
  destruct (cap_grid_import_ac_mwh h); try exact Hs.
  destruct (n_ltb _ _); [|exact Hs].
  now apply bind_import, cut_import_load, cut_import_arbi.
Qed.

(** From 3) to the end of 5). *)
Lemma grid_walk s :
  I s -> I (enforce_import_cap P h (enforce_export_cap P h
              (arbi_from_grid P h (arbi_to_grid P h s)))).
Proof.
  intros Hs. now apply enforce_import_cap_walk, enforce_export_cap_walk, from_grid, to_grid.
Qed.
End Tail.
End Walk.

(** Proves that one step keeps a property of the loop state that is stated
    with the operations of [Q]. *)
Ltac sub_steps :=
  unfold surplus_to_oze, surplus_to_arbi, surplus_to_export,
    deficit_from_oze, deficit_from_arbi, deficit_to_import, conv_loss_to_load,
    arbi_to_grid, arbi_from_grid, export_cut_arbi, export_cut_surplus,
    import_cut_arbi, import_cut_load,
    idle_and_snapshot, soc_percentages, snapshot_after, idle_loss, snapshot_before, kpi.

Ltac step_auto :=
  intros;
  repeat match goal with s : @loop_state _ |- _ => destruct s end;
  sub_steps; unfold_state; intros;
  repeat break_if; unfold_state; try tauto; repeat qcase; try lra.

Import CommitLaws CommitResume.

(** ** The totals of an hour *)

Lemma hour_body_totals P h s : totals_ok (buf s) -> totals_ok (buf (hour_body P h s)).
Proof.
  intros Hs. unfold hour_body.
  assert (Hi : forall s, totals_ok (buf s) -> totals_ok (buf (idle_and_snapshot P s)))
    by (unfold totals_ok; step_auto).
  apply Hi.
  apply (grid_walk P h (fun s => totals_ok (buf s))); [unfold totals_ok; step_auto .. |].
  apply (cover_deficit_walk P h (fun s => totals_ok (buf s)));
    [unfold totals_ok; step_auto .. |].
  apply (absorb_surplus_walk P h (fun s => totals_ok (buf s)));
    [unfold totals_ok; step_auto .. |].
  exact Hs.
Qed.

(** In every row e_export_mwh is export_from_surplus_ac_mwh plus
    export_from_arbi_ac_mwh, and e_import_mwh is import_for_load_ac_mwh plus
    import_for_arbi_ac_mwh, also after the cuts of the cap enforcement. *)
Theorem totals_are_sums_of_parts (P : @scalars Q) (hs : list hour_in) (r : out_row) :
  In r (run P hs) ->
  cols r e_export_mwh
  == cols r export_from_surplus_ac_mwh + cols r export_from_arbi_ac_mwh /\
  cols r e_import_mwh
  == cols r import_for_load_ac_mwh + cols r import_for_arbi_ac_mwh.
Proof.
  intros Hin. apply in_run in Hin. destruct Hin as (h & s & Hin & ->).
  destruct (loop_row_of_an_hour P hs _ _ h s Hin) as (so & sa & ->).
  assert (Hk : forall s, totals_ok (buf s) -> totals_ok (buf (kpi h s)))
    by (unfold totals_ok; step_auto).
  apply Hk, hour_body_totals. split; reflexivity.
Qed.

(** The theorem on the hour of scenario S4. *)
Lemma totals_are_sums_of_parts_witness :
  exists r, In r (run full_arbi_Q [hour_S4_Q]) /\
    cols r e_export_mwh
    == cols r export_from_surplus_ac_mwh + cols r export_from_arbi_ac_mwh /\
    cols r e_import_mwh
    == cols r import_for_load_ac_mwh + cols r import_for_arbi_ac_mwh.
Proof.
  eexists. split; [left; reflexivity|].
  apply (totals_are_sums_of_parts full_arbi_Q [hour_S4_Q]). left. reflexivity.
Defined.

(** ** The load of an hour *)

Lemma set_deficit_load_open h s :
  load_zero (buf s) -> load_open h (set_deficit (pymax2 0 (deficit_net_mwh h)) s).
Proof. unfold load_zero, load_open. step_auto. Qed.

Lemma deficit_from_oze_load_open P h s :
  load_open h s -> load_open h (deficit_from_oze P s).
Proof. unfold load_open. step_auto. Qed.

Lemma deficit_from_arbi_load_open P h s :
  load_open h s -> load_open h (deficit_from_arbi P s).
Proof. unfold load_open. step_auto. Qed.

Lemma deficit_to_import_load_served h s :
  load_open h s -> load_served h (buf (deficit_to_import s)).
Proof. unfold load_open, load_served. step_auto. Qed.

Lemma small_deficit_load_served h s :
  load_open h s -> deficit s <= Commit.EPS -> load_served h (buf s).
Proof. unfold load_open, load_served. step_auto. Qed.

Lemma cover_deficit_load P h s :
  load_zero (buf s) -> load_served h (buf (cover_deficit P h s)).
Proof.
  intros Hz. apply (set_deficit_load_open h) in Hz.
  unfold cover_deficit. cbv zeta. unfold_num.
  destruct (Qltb _ _) eqn:E.
  - now apply deficit_to_import_load_served, deficit_from_arbi_load_open,
      deficit_from_oze_load_open.
  - apply Qltb_false_iff in E. now apply small_deficit_load_served.
Qed.

Lemma hour_body_load_served P h so sa :
  load_served h (buf (hour_body P h (hour_init h so sa))).
Proof.
  unfold hour_body.
  assert (Hi : forall s, load_served h (buf s) -> load_served h (buf (idle_and_snapshot P s)))
    by (unfold load_served; step_auto).
  apply Hi.
  apply (grid_walk P h (fun s => load_served h (buf s)));
    [unfold load_served; step_auto .. |].
  apply cover_deficit_load.
  apply (absorb_surplus_walk P h (fun s => load_zero (buf s)));
    [unfold load_zero; step_auto .. |].
  repeat split; reflexivity.
Qed.



(** ** The surplus of an hour *)

Lemma hour_init_surplus_open h so sa :
  Commit.EPS < surplus_net_mwh h -> surplus_open h (@hour_init Q _ h so sa).
Proof. unfold surplus_open, hour_init. step_auto. Qed.

Lemma surplus_open_used h s :
  surplus_open h s -> Commit.EPS < surplus_net_mwh h -> surplus_used h (buf s).
Proof. unfold surplus_open, surplus_used. step_auto. Qed.

Lemma absorb_surplus_used P h so sa :
  surplus_used h (buf (absorb_surplus P h (hour_init h so sa))).
Proof.
  unfold absorb_surplus.
  change (surplus_net_i (hour_init h so sa)) with (surplus_net_mwh h). unfold_num.
  destruct (Qltb _ _) eqn:E.
  - apply Qltb_true_iff in E.
    apply surplus_open_used; [|exact E].
    assert (H1 : forall s, surplus_open h s -> surplus_open h (surplus_to_oze P s))
      by (unfold surplus_open; step_auto).
    assert (H2 : forall s, surplus_open h s -> surplus_open h (surplus_to_arbi P h s))
      by (unfold surplus_open; step_auto).
    assert (H3 : forall s, surplus_open h s -> surplus_open h (surplus_to_export s))
      by (unfold surplus_open; step_auto).
    now apply H3, H2, H1, hour_init_surplus_open.
  - apply Qltb_false_iff in E. revert E. unfold surplus_used, hour_init. step_auto.
Qed.

Lemma hour_body_surplus_used P h so sa :
  surplus_used h (buf (hour_body P h (hour_init h so sa))).
Proof.
  unfold hour_body.
  assert (Hi : forall s, surplus_used h (buf s) -> surplus_used h (buf (idle_and_snapshot P s)))
    by (unfold surplus_used; step_auto).
  apply Hi.
  apply (grid_walk P h (fun s => surplus_used h (buf s)));
    [unfold surplus_used; step_auto .. |].
  apply (cover_deficit_walk P h (fun s => surplus_used h (buf s)));
    [unfold surplus_used; step_auto .. |].
  apply absorb_surplus_used.
Qed.



(** ** The idle loss *)

Lemma before_idle_ok P h s :
  soc_ok P s ->
  soc_ok P (enforce_import_cap P h (enforce_export_cap P h
              (arbi_from_grid P h (arbi_to_grid P h
                 (cover_deficit P h (absorb_surplus P h s)))))).
Proof.
  intros Hs.
  now apply enforce_import_cap_ok, enforce_export_cap_ok, arbi_from_grid_ok,
    arbi_to_grid_ok, cover_deficit_ok, absorb_surplus_ok.
Qed.

Lemma before_idle_zero P h s :
  idle_zero (buf s) ->
  idle_zero (buf (enforce_import_cap P h (enforce_export_cap P h
                    (arbi_from_grid P h (arbi_to_grid P h
                       (cover_deficit P h (absorb_surplus P h s))))))).
Proof.
  intros Hs.
  apply (grid_walk P h (fun s => idle_zero (buf s))); [unfold idle_zero; step_auto .. |].
  apply (cover_deficit_walk P h (fun s => idle_zero (buf s)));
    [unfold idle_zero; step_auto .. |].
  apply (absorb_surplus_walk P h (fun s => idle_zero (buf s)));
    [unfold idle_zero; step_auto .. |].
  exact Hs.
Qed.

Lemma idle_and_snapshot_books P s :
  soc_ok P s -> bess_lambda_h_frac P <= 1 -> idle_zero (buf s) ->
  idle_books P (buf (idle_and_snapshot P s)).
Proof.
  unfold soc_ok, idle_zero, idle_books, idle_and_snapshot, soc_percentages, snapshot_after,
    idle_loss, snapshot_before.
  destruct s. unfold_state. intros [[Ho1 Ho2] [Ha1 Ha2]] Hl [Hz1 Hz2].
  destruct (Qltb _ _) eqn:E; unfold_state.
  - apply Qltb_true_iff in E.
    assert (soc_oze0 * bess_lambda_h_frac P <= soc_oze0) by nra.
    assert (soc_arbi0 * bess_lambda_h_frac P <= soc_arbi0) by nra.
    repeat qcase; repeat split; lra.
  - repeat split; lra.
Qed.

(** With the initial SOCs within the capacities and a self-discharge rate
    of at most 1: in every row the idle loss of a pool is its SOC before
    the idle loss times the rate when the rate is above EPS, and nothing
    otherwise; the SOC after the idle loss is the SOC before it less the
    loss. *)
Theorem idle_loss_is_booked (P : @scalars Q) (hs : list hour_in) (r : out_row) :
  0 <= soc0_oze_mwh P <= emax_oze_mwh P ->
  0 <= soc0_arbi_mwh P <= emax_arbi_mwh P ->
  bess_lambda_h_frac P <= 1 ->
  In r (run P hs) ->
  (Commit.EPS < bess_lambda_h_frac P ->
   cols r loss_idle_oze_mwh == cols r soc_oze_before_idle_mwh * bess_lambda_h_frac P /\
   cols r loss_idle_arbi_mwh == cols r soc_arbi_before_idle_mwh * bess_lambda_h_frac P) /\
  (bess_lambda_h_frac P <= Commit.EPS ->
   cols r loss_idle_oze_mwh == 0 /\ cols r loss_idle_arbi_mwh == 0) /\
  cols r soc_oze_after_idle_mwh
  == cols r soc_oze_before_idle_mwh - cols r loss_idle_oze_mwh /\
  cols r soc_arbi_after_idle_mwh
  == cols r soc_arbi_before_idle_mwh - cols r loss_idle_arbi_mwh.
Proof.
  intros Ho Ha Hl Hin. apply in_run in Hin. destruct Hin as (h & s & Hin & ->).
  destruct (row_of_an_hour P hs _ _ h s Ho Ha Hin) as (so & sa & Hok & ->).
  assert (Hk : forall s, idle_books P (buf s) -> idle_books P (buf (kpi h s)))
    by (unfold idle_books; step_auto).
  assert (Hb : idle_books P (cols (row_of h (hour_body P h (hour_init h so sa))))).
  { apply Hk. unfold hour_body.
    apply idle_and_snapshot_books; [now apply before_idle_ok | exact Hl |].
    apply before_idle_zero. split; reflexivity. }
  revert Hb. generalize (cols (row_of h (hour_body P h (hour_init h so sa)))).
  intros b. unfold idle_books. unfold Commit.EPS. unfold_num.
  destruct (Qltb _ _) eqn:E; intros (H1 & H2 & H3 & H4).
  - apply Qltb_true_iff in E. repeat split; try assumption; lra.
  - apply Qltb_false_iff in E. repeat split; try assumption; lra.
Qed.

(** The theorem on a pool that loses 0.1 percent an hour. *)
Lemma idle_loss_is_booked_witness :
  exists r, In r (run quarter_arbi_Q [hour_import_cut_Q]) /\
    cols r loss_idle_arbi_mwh == cols r soc_arbi_before_idle_mwh * (1 # 1000) /\
    cols r soc_arbi_after_idle_mwh
    == cols r soc_arbi_before_idle_mwh - cols r loss_idle_arbi_mwh.
Proof.
  eexists. split; [left; reflexivity|].
  destruct (idle_loss_is_booked quarter_arbi_Q [hour_import_cut_Q] _
              ltac:(cbn; lra) ltac:(cbn; lra) ltac:(cbn; lra) (or_introl eq_refl))
    as (H1 & _ & _ & H4).
  split; [apply H1; reflexivity | exact H4].
Defined.

(** ** The SOC percentages *)






(** ** What the proposer asked for *)

Lemma arbi_to_grid_asked P h s :
  arbi_idle (buf s) -> dis_asked h (buf (arbi_to_grid P h s)).
Proof. unfold arbi_idle, dis_asked. step_auto. Qed.

Lemma arbi_from_grid_asked P h s :
  0 <= eta_ch_frac P ->
  dis_asked h (buf s) -> asked_ok h (buf (arbi_from_grid P h s)).
Proof.
  unfold dis_asked, asked_ok, arbi_from_grid. destruct s. unfold_state.
  intros Heta (H1 & H2 & H3 & H4).
  repeat break_if; unfold_state; try (repeat split; lra).
  all: try match goal with
       | |- context [?n / ?e] =>
           assert (D1 : 0 < n / e) by (apply Qdiv_pos; repeat qcase; lra);
           assert (D2 : n / e <= prop_arbi_ch_from_grid_ac_mwh h)
             by (apply Qle_shift_div_r; [lra | repeat qcase; lra]);
           revert D1 D2; generalize (n / e); intros
       end.
  all: repeat qcase; repeat split; try lra; intros; nra.
Qed.

Lemma hour_body_asked P h so sa :
  0 <= eta_ch_frac P ->
  asked_ok h (buf (hour_body P h (hour_init h so sa))).
Proof.
  intros Heta. unfold hour_body.
  assert (Hi : forall s, asked_ok h (buf s) -> asked_ok h (buf (idle_and_snapshot P s)))
    by (unfold asked_ok; step_auto).
  apply Hi.
  apply (enforce_import_cap_walk P h (fun s => asked_ok h (buf s)));
    [unfold asked_ok; step_auto .. |].
  apply (enforce_export_cap_walk P h (fun s => asked_ok h (buf s)));
    [unfold asked_ok; step_auto .. |].
  apply arbi_from_grid_asked; [exact Heta|]. apply arbi_to_grid_asked.
  apply (cover_deficit_walk P h (fun s => arbi_idle (buf s)));
    [unfold arbi_idle; step_auto .. |].
  apply (absorb_surplus_walk P h (fun s => arbi_idle (buf s)));
    [unfold arbi_idle; step_auto .. |].
  repeat split; reflexivity.
Qed.

(** With a charging efficiency that is not negative: in every hour the ARBI
    export is at least 0, at most the discharge to the grid, and that is at
    most the discharge the proposer asked for; the import for ARBI is at
    least 0 and at most the charge the proposer asked for.  The cuts of the
    cap enforcement lower the AC flows only. *)
Theorem arbi_flows_within_proposals
  (P : @scalars Q) (hs : list hour_in) (h : hour_in) (r : out_row) :
  0 <= eta_ch_frac P ->
  In (h, r) (combine hs (run P hs)) ->
  0 <= cols r export_from_arbi_ac_mwh /\
  cols r export_from_arbi_ac_mwh <= cols r discharge_to_grid_mwh /\
  (0 < cols r discharge_to_grid_mwh ->
   cols r discharge_to_grid_mwh <= prop_arbi_dis_to_grid_ac_mwh h) /\
  0 <= cols r import_for_arbi_ac_mwh /\
  (0 < cols r import_for_arbi_ac_mwh ->
   cols r import_for_arbi_ac_mwh <= prop_arbi_ch_from_grid_ac_mwh h).
Proof.
  intros Heta Hin. destruct (run_row_of_some_hour P hs h r Hin) as (so & sa & ->).
  assert (Hk : forall s, asked_ok h (buf s) -> asked_ok h (buf (kpi h s)))
    by (unfold asked_ok; step_auto).
  apply Hk, hour_body_asked, Heta.
Qed.

(** The theorem on the hour of scenario S4, where 0.5 MWh were asked for
    and the export cap takes them back. *)
Lemma arbi_flows_within_proposals_witness :
  exists r,
    In (hour_S4_Q, r) (combine [hour_S4_Q] (run full_arbi_Q [hour_S4_Q])) /\
    0 <= cols r export_from_arbi_ac_mwh <= cols r discharge_to_grid_mwh /\
    (0 < cols r discharge_to_grid_mwh -> cols r discharge_to_grid_mwh <= 1 # 2).
Proof.
  eexists. split; [left; reflexivity|].
  destruct (arbi_flows_within_proposals full_arbi_Q [hour_S4_Q] hour_S4_Q _
              ltac:(cbn; lra) (or_introl eq_refl)) as (H1 & H2 & H3 & _).
  split; [split; assumption | exact H3].
Defined.

(** ** No negative energy *)

Lemma arbi_from_grid_flows_nonneg P h s :
  flows_nonneg (buf s) -> flows_nonneg (buf (arbi_from_grid P h s)).
Proof.
  unfold flows_nonneg, arbi_from_grid. destruct s. unfold_state. intros Hf.
  repeat break_if; unfold_state; try tauto.
  all: try match goal with
       | |- context [?n / ?e] =>
           assert (D1 : 0 < n / e) by (apply Qdiv_pos; repeat qcase; lra);
           revert D1; generalize (n / e); intros
       end.
  all: repeat qcase; lra.
Qed.

Lemma hour_body_flows_nonneg P h s :
  flows_nonneg (buf s) -> flows_nonneg (buf (hour_body P h s)).
Proof.
  intros Hs. unfold hour_body.
  assert (Hi : forall s, flows_nonneg (buf s) -> flows_nonneg (buf (idle_and_snapshot P s)))
    by (unfold flows_nonneg; step_auto).
  apply Hi.
  apply (enforce_import_cap_walk P h (fun s => flows_nonneg (buf s)));
    [unfold flows_nonneg; step_auto .. |].
  apply (enforce_export_cap_walk P h (fun s => flows_nonneg (buf s)));
    [unfold flows_nonneg; step_auto .. |].
  apply arbi_from_grid_flows_nonneg.
  assert (Hg : forall s, flows_nonneg (buf s) -> flows_nonneg (buf (arbi_to_grid P h s)))
    by (unfold flows_nonneg; step_auto).
  apply Hg.
  apply (cover_deficit_walk P h (fun s => flows_nonneg (buf s)));
    [unfold flows_nonneg; step_auto .. |].
  apply (absorb_surplus_walk P h (fun s => flows_nonneg (buf s)));
    [unfold flows_nonneg; step_auto .. |].
  exact Hs.
Qed.

(** Whatever the input is, no energy flow of a row is negative: the charges
    and discharges, the exports and imports and their totals, the wasted
    surplus, the unserved load and the two blocked amounts. *)
Theorem flows_are_never_negative (P : @scalars Q) (hs : list hour_in) (r : out_row) :
  In r (run P hs) ->
  (0 <= cols r charge_from_surplus_mwh /\ 0 <= cols r charge_from_grid_mwh /\
   0 <= cols r discharge_to_load_mwh /\ 0 <= cols r discharge_to_grid_mwh /\
   0 <= cols r export_from_surplus_ac_mwh /\ 0 <= cols r export_from_arbi_ac_mwh /\
   0 <= cols r import_for_load_ac_mwh /\ 0 <= cols r import_for_arbi_ac_mwh /\
   0 <= cols r wasted_surplus_due_to_export_cap_mwh /\
   0 <= cols r unserved_load_after_cap_ac_mwh /\
   0 <= cols r cap_blocked_dis_ac_mwh /\ 0 <= cols r cap_blocked_ch_ac_mwh) /\
  0 <= cols r e_export_mwh /\ 0 <= cols r e_import_mwh.
Proof.
  intros Hin. apply in_run in Hin. destruct Hin as (h & s & Hin & ->).
  destruct (loop_row_of_an_hour P hs _ _ h s Hin) as (so & sa & ->).
  assert (Hk : forall s, flows_nonneg (buf s) -> flows_nonneg (buf (kpi h s)))
    by (unfold flows_nonneg; step_auto).
  assert (Ht : forall s, totals_ok (buf s) -> totals_ok (buf (kpi h s)))
    by (unfold totals_ok; step_auto).
  assert (Hf : flows_nonneg (cols (row_of h (hour_body P h (hour_init h so sa))))).
  { apply Hk, hour_body_flows_nonneg. unfold flows_nonneg. cbn. repeat split; lra. }
  assert (Hs : totals_ok (cols (row_of h (hour_body P h (hour_init h so sa))))).
  { apply Ht, hour_body_totals. split; reflexivity. }
  split; [exact Hf|].
  unfold flows_nonneg, totals_ok in *. lra.
Qed.

(** The theorem on the hour of scenario S4. *)
Lemma flows_are_never_negative_witness :
  exists r, In r (run full_arbi_Q [hour_S4_Q]) /\
    0 <= cols r export_from_arbi_ac_mwh /\
    0 <= cols r wasted_surplus_due_to_export_cap_mwh /\
    0 <= cols r e_export_mwh.
Proof.
  eexists. split; [left; reflexivity|].
  destruct (flows_are_never_negative full_arbi_Q [hour_S4_Q] _ (or_introl eq_refl))
    as ((_ & _ & _ & _ & _ & H6 & _ & _ & H9 & _) & H13 & _).
  split; [exact H6 | split; [exact H9 | exact H13]].
Defined.

(** ** No negative loss *)

Lemma conv_loss_to_load_nonneg P x :
  eta_dis_frac P <= 1 -> 0 <= x -> 0 <= conv_loss_to_load P x.
Proof.
  intros Heta Hx. unfold conv_loss_to_load, Commit.EPS. unfold_num.
  destruct (Qltb _ _) eqn:E; [|lra]. apply Qltb_true_iff in E.
  assert (1 <= 1 / eta_dis_frac P) by (apply Qle_shift_div_l; lra).
  nra.
Qed.

Lemma deficit_from_oze_losses P s :
  eta_dis_frac P <= 1 ->
  losses_nonneg (buf s) -> losses_nonneg (buf (deficit_from_oze P s)).
Proof.
  intros Heta. unfold losses_nonneg, deficit_from_oze. cbv zeta.
  unfold_num. destruct (Qltb _ _) eqn:E; [|tauto]. apply Qltb_true_iff in E.
  pose proof (conv_loss_to_load_nonneg P (pymin2 (deficit s) (soc_oze s)) Heta) as Hc.
  unfold Commit.EPS in E. unfold_num.
  revert Hc. generalize (conv_loss_to_load P (pymin2 (deficit s) (soc_oze s))).
  intros q Hc. destruct s. unfold_state. intros. specialize (Hc ltac:(lra)). lra.
Qed.

Lemma deficit_from_arbi_losses P s :
  eta_dis_frac P <= 1 ->
  losses_nonneg (buf s) -> losses_nonneg (buf (deficit_from_arbi P s)).
Proof.
  intros Heta. unfold losses_nonneg, deficit_from_arbi. cbv zeta.
  destruct (_ && _); [|tauto].
  unfold_num. destruct (Qltb _ _) eqn:E; [|tauto]. apply Qltb_true_iff in E.
  pose proof (conv_loss_to_load_nonneg P
                (pymin3b (deficit s) (soc_arbi s) (dis_net_budget s)) Heta) as Hc.
  unfold Commit.EPS in E. unfold_num.
  revert Hc E.
  generalize (conv_loss_to_load P (pymin3b (deficit s) (soc_arbi s) (dis_net_budget s))).
  generalize (pymin3b (deficit s) (soc_arbi s) (dis_net_budget s)).
  intros x q Hc E. destruct s. unfold_state. intros. specialize (Hc ltac:(lra)). lra.
Qed.

Lemma arbi_to_grid_losses P h s :
  eta_dis_frac P <= 1 -> soc_ok P s ->
  losses_nonneg (buf s) -> losses_nonneg (buf (arbi_to_grid P h s)).
Proof.
  unfold soc_ok, losses_nonneg, arbi_to_grid. destruct s. unfold_state.
  intros Heta [_ [Ha _]] Hl.
  repeat break_if; unfold_state; try tauto.
  all: try match goal with
       | |- context [?n / ?e] =>
           assert (D1 : n <= n / e) by (apply Qdiv_ge_self; repeat qcase; lra);
           revert D1; generalize (n / e); intros
       end.
  all: repeat qcase; try lra; repeat split; try lra; nra.
Qed.

Lemma arbi_from_grid_losses P h s :
  eta_ch_frac P <= 1 ->
  losses_nonneg (buf s) -> losses_nonneg (buf (arbi_from_grid P h s)).
Proof.
  unfold losses_nonneg, arbi_from_grid. destruct s. unfold_state.
  intros Heta Hl.
  repeat break_if; unfold_state; try tauto.
  all: try match goal with
       | |- context [?n / ?e] =>
           assert (D1 : n <= n / e) by (apply Qdiv_ge_self; repeat qcase; lra);
           revert D1; generalize (n / e); intros
       end.
  all: repeat qcase; lra.
Qed.

Lemma idle_and_snapshot_losses P s :
  soc_ok P s ->
  losses_nonneg (buf s) -> losses_nonneg (buf (idle_and_snapshot P s)).
Proof.
  unfold soc_ok, losses_nonneg, idle_and_snapshot, soc_percentages, snapshot_after,
    idle_loss, snapshot_before.
  destruct s. unfold_state. intros [[Ho _] [Ha _]] Hl.
  destruct (Qltb _ _) eqn:E; unfold_state; [|tauto].
  apply Qltb_true_iff in E.
  assert (0 <= soc_oze0 * bess_lambda_h_frac P) by nra.
  assert (0 <= soc_arbi0 * bess_lambda_h_frac P) by nra.
  lra.
Qed.

Lemma hour_body_losses P h s :
  eta_ch_frac P <= 1 -> eta_dis_frac P <= 1 ->
  soc_ok P s -> losses_nonneg (buf s) -> losses_nonneg (buf (hour_body P h s)).
Proof.
  intros Hch Hdis Hok Hs. unfold hour_body.
  apply idle_and_snapshot_losses; [now apply before_idle_ok|].
  apply (enforce_import_cap_walk P h (fun s => losses_nonneg (buf s)));
    [unfold losses_nonneg; step_auto .. |].
  apply (enforce_export_cap_walk P h (fun s => losses_nonneg (buf s)));
    [unfold losses_nonneg; step_auto .. |].
  apply arbi_from_grid_losses; [exact Hch|].
  apply arbi_to_grid_losses;
    [exact Hdis | now apply cover_deficit_ok, absorb_surplus_ok |].
  apply (cover_deficit_walk P h (fun s => losses_nonneg (buf s)));
    [unfold losses_nonneg; step_auto
    | intros; now apply deficit_from_oze_losses
    | intros; now apply deficit_from_arbi_losses
    | unfold losses_nonneg; step_auto |].
  apply (absorb_surplus_walk P h (fun s => losses_nonneg (buf s)));
    [unfold losses_nonneg; step_auto .. |].
  exact Hs.
Qed.

(** With the initial SOCs within the capacities and both efficiencies at
    most 1, no loss of a row is negative: the two idle losses and the three
    conversion losses. *)
Theorem losses_are_never_negative (P : @scalars Q) (hs : list hour_in) (r : out_row) :
  0 <= soc0_oze_mwh P <= emax_oze_mwh P ->
  0 <= soc0_arbi_mwh P <= emax_arbi_mwh P ->
  eta_ch_frac P <= 1 -> eta_dis_frac P <= 1 ->
  In r (run P hs) ->
  0 <= cols r loss_idle_oze_mwh /\ 0 <= cols r loss_idle_arbi_mwh /\
  0 <= cols r loss_conv_ch_mwh /\ 0 <= cols r loss_conv_dis_to_grid_mwh /\
  0 <= cols r loss_conv_dis_to_load_mwh.
Proof.
  intros Ho Ha Hch Hdis Hin. apply in_run in Hin. destruct Hin as (h & s & Hin & ->).
  destruct (row_of_an_hour P hs _ _ h s Ho Ha Hin) as (so & sa & Hok & ->).
  assert (Hk : forall s, losses_nonneg (buf s) -> losses_nonneg (buf (kpi h s)))
    by (unfold losses_nonneg; step_auto).
  apply Hk, hour_body_losses; try assumption.
  unfold losses_nonneg. cbn. repeat split; lra.
Qed.

(** The theorem on a pool with efficiencies of 0.9. *)
Lemma losses_are_never_negative_witness :
  exists r, In r (run quarter_arbi_Q [hour_import_cut_Q]) /\
    0 <= cols r loss_idle_arbi_mwh /\ 0 <= cols r loss_conv_ch_mwh.
Proof.
  eexists. split; [left; reflexivity|].
  destruct (losses_are_never_negative quarter_arbi_Q [hour_import_cut_Q] _
              ltac:(cbn; lra) ltac:(cbn; lra) ltac:(cbn; lra) ltac:(cbn; lra)
              (or_introl eq_refl)) as (_ & H2 & H3 & _).
  split; [exact H2 | exact H3].
Defined.

(** ** The flags of the cap enforcement *)






(** ** Resuming a run *)

Lemma end_soc_cons {F} (so sa : F) (s : @loop_state F) l :
  end_soc so sa (s :: l) = end_soc (soc_oze s) (soc_arbi s) l.
Proof.
  unfold end_soc. cbn [rev]. destruct (rev l); reflexivity.
Qed.

Lemma loop_app {F} `{Num F} (P : @scalars F) hs2 : forall hs1 so sa,
  loop P so sa (hs1 ++ hs2)
  = loop P so sa hs1
    ++ loop P (fst (end_soc so sa (loop P so sa hs1)))
              (snd (end_soc so sa (loop P so sa hs1))) hs2.
Proof.
  induction hs1 as [|h tl IH]; intros so sa; [reflexivity|].
  cbn [app loop]. rewrite IH, end_soc_cons. reflexivity.
Qed.

Lemma loop_length {F} `{Num F} (P : @scalars F) hs : forall so sa,
  length (loop P so sa hs) = length hs.
Proof. induction hs as [|h tl IH]; intros so sa; cbn; [reflexivity | now rewrite IH]. Qed.

Lemma combine_app {A B} (l1 l2 : list A) (m1 m2 : list B) :
  length l1 = length m1 ->
  combine (l1 ++ l2) (m1 ++ m2) = combine l1 m1 ++ combine l2 m2.
Proof.
  revert m1. induction l1 as [|a l1 IH]; intros [|b m1] E; try discriminate E.
  - reflexivity.
  - cbn. rewrite IH; [reflexivity | now injection E].
Qed.

Lemma absorb_surplus_soc0 {F} `{Num F} (P : @scalars F) so sa h s :
  absorb_surplus (with_soc0 P so sa) h s = absorb_surplus P h s.
Proof. reflexivity. Qed.

Lemma cover_deficit_soc0 {F} `{Num F} (P : @scalars F) so sa h s :
  cover_deficit (with_soc0 P so sa) h s = cover_deficit P h s.
Proof. reflexivity. Qed.

Lemma arbi_to_grid_soc0 {F} `{Num F} (P : @scalars F) so sa h s :
  arbi_to_grid (with_soc0 P so sa) h s = arbi_to_grid P h s.
Proof. reflexivity. Qed.

Lemma arbi_from_grid_soc0 {F} `{Num F} (P : @scalars F) so sa h s :
  arbi_from_grid (with_soc0 P so sa) h s = arbi_from_grid P h s.
Proof. reflexivity. Qed.

Lemma enforce_export_cap_soc0 {F} `{Num F} (P : @scalars F) so sa h s :
  enforce_export_cap (with_soc0 P so sa) h s = enforce_export_cap P h s.
Proof. reflexivity. Qed.

Lemma enforce_import_cap_soc0 {F} `{Num F} (P : @scalars F) so sa h s :
  enforce_import_cap (with_soc0 P so sa) h s = enforce_import_cap P h s.
Proof. reflexivity. Qed.

Lemma idle_and_snapshot_soc0 {F} `{Num F} (P : @scalars F) so sa s :
  idle_and_snapshot (with_soc0 P so sa) s = idle_and_snapshot P s.
Proof. reflexivity. Qed.

Lemma hour_body_soc0 {F} `{Num F} (P : @scalars F) so sa h s :
  hour_body (with_soc0 P so sa) h s = hour_body P h s.
Proof.
  unfold hour_body.
  now rewrite absorb_surplus_soc0, cover_deficit_soc0, arbi_to_grid_soc0,
    arbi_from_grid_soc0, enforce_export_cap_soc0, enforce_import_cap_soc0,
    idle_and_snapshot_soc0.
Qed.

Lemma loop_soc0 {F} `{Num F} (P : @scalars F) so' sa' hs : forall so sa,
  loop (with_soc0 P so' sa') so sa hs = loop P so sa hs.
Proof.
  induction hs as [|h tl IH]; intros so sa; [reflexivity|].
  cbn [loop]. rewrite hour_body_soc0. cbv zeta. now rewrite IH.
Qed.

(** The SOCs a loop state carries on are those of its snapshots after the
    idle loss. *)
Lemma carried_soc {F} `{Num F} (P : @scalars F) (h : hour_in) s :
  soc_oze (hour_body P h s) = cols (row_of h (hour_body P h s)) soc_oze_after_idle_mwh /\
  soc_arbi (hour_body P h s) = cols (row_of h (hour_body P h s)) soc_arbi_after_idle_mwh.
Proof.
  unfold hour_body. generalize (enforce_import_cap P h
    (enforce_export_cap P h (arbi_from_grid P h (arbi_to_grid P h
       (cover_deficit P h (absorb_surplus P h s)))))).
  intros s5. destruct s5.
  unfold idle_and_snapshot, soc_percentages, snapshot_after, idle_loss, snapshot_before.
  destruct (n_ltb _ _); split; reflexivity.
Qed.

Lemma end_soc_rows {F} `{Num F} (P : @scalars F) hs : forall so sa,
  so = soc0_oze_mwh P -> sa = soc0_arbi_mwh P ->
  end_soc so sa (loop P so sa hs)
  = soc_at_end P (map (fun hs => row_of (fst hs) (snd hs))
                      (combine hs (loop P so sa hs))).
Proof.
  intros so sa -> ->. unfold end_soc, soc_at_end.
  generalize (soc0_oze_mwh P) (soc0_arbi_mwh P). intros so sa.
  assert (G : forall hs so sa,
    Forall (fun hs => soc_oze (snd hs)
                      = cols (row_of (fst hs) (snd hs)) soc_oze_after_idle_mwh /\
                      soc_arbi (snd hs)
                      = cols (row_of (fst hs) (snd hs)) soc_arbi_after_idle_mwh)
           (combine hs (loop P so sa hs))).
  { clear. induction hs as [|h tl IH]; intros so sa; cbn [loop combine]; constructor.
    - cbn [fst snd]. apply carried_soc.
    - apply IH. }
  specialize (G hs so sa).
  assert (L : length hs = length (loop P so sa hs)) by (now rewrite loop_length).
  revert G L. generalize (loop P so sa hs) as ss. intros ss G L.
  rewrite <- map_rev.
  assert (R : rev ss = map snd (rev (combine hs ss))).
  { rewrite map_rev. f_equal. clear G. revert ss L.
    induction hs as [|h tl IH]; intros [|s ss] L; try discriminate L; [reflexivity|].
    cbn. f_equal. apply IH. now injection L. }
  rewrite R. apply Forall_rev in G.
  destruct (rev (combine hs ss)) as [|[h s] l]; [reflexivity|].
  cbn [map fst snd]. inversion G as [|x y [E1 E2] G']. cbn [fst snd] in E1, E2.
  now rewrite E1, E2.
Qed.

(** A run over [hs1 ++ hs2] is the run over [hs1] followed by the run over
    [hs2] that starts from the SOCs after the idle loss of the last hour of
    [hs1]: nothing else goes from one hour to the next.  This holds for
    every arithmetic, binary64 included. *)
Theorem run_resumes_from_final_soc
  (F : Type) (N : Num F) (P : @scalars F) (hs1 hs2 : list hour_in) :
  run P (hs1 ++ hs2)
  = run P hs1
    ++ run (with_soc0 P (fst (soc_at_end P (run P hs1))) (snd (soc_at_end P (run P hs1))))
           hs2.
Proof.
  pose proof (end_soc_rows P hs1 _ _ eq_refl eq_refl) as He.
  fold (run P hs1) in He.
  set (e := soc_at_end P (run P hs1)) in *.
  unfold run. rewrite loop_app, He, combine_app by (now rewrite loop_length).
  rewrite map_app. f_equal.
  cbn [soc0_oze_mwh soc0_arbi_mwh with_soc0]. now rewrite loop_soc0.
Qed.

(** ** The deficit and the surplus on the rows, for the stages around *)

Lemma run_row_load_served (P : @scalars Q) hs h r :
  In (h, r) (combine hs (run P hs)) -> load_served h (cols r).
Proof.
  intros Hin. destruct (run_row_of_some_hour P hs h r Hin) as (so & sa & ->).
  assert (Hk : forall s, load_served h (buf s) -> load_served h (buf (kpi h s)))
    by (unfold load_served; step_auto).
  apply Hk, hour_body_load_served.
Qed.

Lemma run_row_surplus_used (P : @scalars Q) hs h r :
  In (h, r) (combine hs (run P hs)) -> surplus_used h (cols r).
Proof.
  intros Hin. destruct (run_row_of_some_hour P hs h r Hin) as (so & sa & ->).
  assert (Hk : forall s, surplus_used h (buf s) -> surplus_used h (buf (kpi h s)))
    by (unfold surplus_used; step_auto).
  apply Hk, hour_body_surplus_used.
Qed.

End CommitProofs.

(* ================================================================== *)
(** * Stage 02: proposer *)
(* ================================================================== *)

Section PairingProofs.
Import Proposer ProposerSpec.
Local Open Scope nat_scope.

(** ** Sorting *)
Section Sorting.
Context {A : Type} (ltb : A -> A -> bool) (R : A -> A -> Prop).
Hypothesis R_trans : forall x y z, R x y -> R y z -> R x z.

Lemma insert_by_perm x l : Permutation (insert_by ltb x l) (x :: l).
Proof.
  induction l as [|y t IH]; cbn; [reflexivity|].
  destruct (ltb y x); [|reflexivity].
  rewrite IH. apply perm_swap.
Qed.

Lemma sort_by_perm l : Permutation (sort_by ltb l) l.
Proof.
  induction l as [|x t IH]; cbn; [reflexivity|].
  rewrite insert_by_perm. now constructor.
Qed.

Lemma insert_by_sorted x l :
  (forall y, In y l -> if ltb y x then R y x else R x y) ->
  StronglySorted R l -> StronglySorted R (insert_by ltb x l).
Proof.
  induction l as [|y t IH]; intros Hx Hs; cbn.
  - repeat constructor.
  - inversion Hs as [|? ? Hst Hall]; subst.
    pose proof (Hx y (or_introl eq_refl)) as Hy.
    destruct (ltb y x) eqn:E.
    + constructor.
      * apply IH; [intros z Hz; apply Hx; now right | exact Hst].
      * rewrite Forall_forall in *. intros z Hz.
        apply (Permutation_in _ (insert_by_perm x t)) in Hz. destruct Hz as [<-|Hz]; auto.
    + constructor; [exact Hs|].
      constructor; [exact Hy|].
      rewrite Forall_forall in *. intros z Hz. eauto.
Qed.

Lemma sort_by_sorted l :
  (forall l1 x l2, l = l1 ++ x :: l2 ->
     forall y, In y l2 -> if ltb y x then R y x else R x y) ->
  StronglySorted R (sort_by ltb l).
Proof.
  induction l as [|x t IH]; intros Hl; cbn; [constructor|].
  apply insert_by_sorted.
  - intros y Hy. apply (Permutation_in _ (sort_by_perm t)) in Hy.
    exact (Hl [] x t eq_refl y Hy).
  - apply IH. intros l1 x' l2 E y Hy. apply (Hl (x :: l1) x' l2); [now rewrite E | exact Hy].
Qed.
End Sorting.

Lemma sorted_app_inv {A} (R : A -> A -> Prop) l1 l2 :
  StronglySorted R (l1 ++ l2) -> forall x y, In x l1 -> In y l2 -> R x y.
Proof.
  induction l1 as [|a t IH]; intros Hs x y Hx Hy; [contradiction|].
  cbn in Hs. inversion Hs as [|? ? Hst Hall]; subst.
  destruct Hx as [<-|Hx].
  - rewrite Forall_forall in Hall. apply Hall, in_or_app. now right.
  - now apply IH.
Qed.

Lemma sorted_app_l {A} (R : A -> A -> Prop) l1 l2 :
  StronglySorted R (l1 ++ l2) -> StronglySorted R l1.
Proof.
  induction l1 as [|a t IH]; intros Hs; [constructor|].
  cbn in Hs. inversion Hs as [|? ? Hst Hall]; subst.
  constructor; [now apply IH|].
  rewrite Forall_forall in *. intros z Hz. apply Hall, in_or_app. now left.
Qed.

Lemma sorted_firstn {A} (R : A -> A -> Prop) k l :
  StronglySorted R l -> StronglySorted R (firstn k l).
Proof. intros Hs. rewrite <- (firstn_skipn k l) in Hs. now apply sorted_app_l in Hs. Qed.

Lemma sorted_lt_seq a n : StronglySorted lt (seq a n).
Proof.
  revert a. induction n as [|n IH]; intros a; cbn; constructor; [apply IH|].
  apply Forall_forall. intros x Hx. apply in_seq in Hx. lia.
Qed.

Lemma sorted_filter {A} (R : A -> A -> Prop) p l :
  StronglySorted R l -> StronglySorted R (filter p l).
Proof.
  induction 1 as [|a t Hst IH Hall]; cbn; [constructor|].
  destruct (p a); [|exact IH].
  constructor; [exact IH|].
  rewrite Forall_forall in *. intros z Hz. apply filter_In in Hz. now apply Hall.
Qed.

Lemma sorted_lt_NoDup l : StronglySorted lt l -> NoDup l.
Proof.
  induction 1 as [|a t Hst IH Hall]; constructor; [|exact IH].
  intro Hin. rewrite Forall_forall in Hall. specialize (Hall a Hin). lia.
Qed.

Lemma firstn_selects (before : nat -> nat -> Prop) k idx S :
  NoDup idx -> Permutation S idx -> StronglySorted before S ->
  selects_first before k idx (firstn k S).
Proof.
  intros Hnd Hp Hs.
  assert (HndS : NoDup S) by (eapply Permutation_NoDup; [symmetry; exact Hp | exact Hnd]).
  repeat split.
  - rewrite <- (firstn_skipn k S) in HndS. now apply NoDup_app_remove_r in HndS.
  - intros x Hx. apply (Permutation_in _ Hp). rewrite <- (firstn_skipn k S).
    apply in_or_app. now left.
  - rewrite length_firstn. now rewrite (Permutation_length Hp).
  - now apply sorted_firstn.
  - intros i j Hi Hj Hnj.
    apply (Permutation_in _ (Permutation_sym Hp)) in Hj.
    rewrite <- (firstn_skipn k S) in Hj, Hs.
    apply in_app_or in Hj. destruct Hj as [Hj|Hj]; [contradiction|].
    eapply sorted_app_inv; eauto.
Qed.

Lemma slice_to_nonneg {A} k (l : list A) : (0 <= k)%Z -> slice_to k l = firstn (Z.to_nat k) l.
Proof. intros Hk. unfold slice_to. apply Z.leb_le in Hk. now rewrite Hk. Qed.

Lemma sorted_map {A B} (f : A -> B) (R : A -> A -> Prop) (R' : B -> B -> Prop) l :
  (forall x y, In x l -> In y l -> R x y -> R' (f x) (f y)) ->
  StronglySorted R l -> StronglySorted R' (map f l).
Proof.
  intros Hf Hs. induction Hs as [|a t Hst IH Hall]; cbn; constructor.
  - apply IH. intros x y Hx Hy. apply Hf; now right.
  - rewrite Forall_forall in *. intros z Hz. apply in_map_iff in Hz.
    destruct Hz as (y & <- & Hy). apply Hf; [now left | now right | now apply Hall].
Qed.

Lemma sorted_weaken {A} (R R' : A -> A -> Prop) l :
  (forall x y, In x l -> In y l -> R x y -> R' x y) ->
  StronglySorted R l -> StronglySorted R' l.
Proof.
  intros Hf Hs. rewrite <- (map_id l). now apply (sorted_map (fun x => x) R R').
Qed.

(** Two sorted lists with the same elements are equal, when no two of the
    elements tie. *)
Lemma sorted_perm_unique {A} (R : A -> A -> Prop) (l1 : list A) : forall l2,
  (forall x y, In x l1 -> In y l1 -> R x y -> R y x -> x = y) ->
  StronglySorted R l1 -> StronglySorted R l2 -> Permutation l1 l2 -> l1 = l2.
Proof.
  induction l1 as [|x t1 IH]; intros l2 Hanti Hs1 Hs2 Hp.
  - now apply Permutation_nil in Hp.
  - destruct l2 as [|y t2]; [apply Permutation_sym, Permutation_nil in Hp; discriminate|].
    inversion Hs1 as [|? ? Hst1 Hall1]; subst. inversion Hs2 as [|? ? Hst2 Hall2]; subst.
    rewrite Forall_forall in Hall1, Hall2.
    assert (Hx : In x (y :: t2)) by (apply (Permutation_in _ Hp); now left).
    assert (Hy : In y (x :: t1))
      by (apply (Permutation_in _ (Permutation_sym Hp)); now left).
    assert (E : x = y).
    { destruct Hx as [->|Hx]; [reflexivity|]. destruct Hy as [->|Hy]; [reflexivity|].
      apply Hanti; [now left | now right | now apply Hall1 | now apply Hall2]. }
    subst y. f_equal. apply IH; [|exact Hst1 | exact Hst2|].
    + intros a b Ha Hb. apply Hanti; now right.
    + now apply Permutation_cons_inv in Hp.
Qed.

Lemma take_seq idx : take idx (seq 0 (length idx)) = idx.
Proof.
  unfold take. induction idx as [|a t IH]; [reflexivity|].
  cbn [length seq map nth]. f_equal.
  rewrite <- seq_shift, map_map. exact IH.
Qed.

Lemma nth_map_in {A B} (f : A -> B) l p d d' :
  p < length l -> nth p (map f l) d = f (nth p l d').
Proof.
  intros Hp. rewrite (nth_indep _ d (f d')) by now rewrite length_map.
  apply map_nth.
Qed.

(** A list whose sorted form is [0 .. n-1] is a permutation of it. *)
Lemma sorted_form_perm l n : sort_by Nat.ltb l = seq 0 n -> Permutation l (seq 0 n).
Proof. intros <-. symmetry. apply sort_by_perm. Qed.


Section Orders.
Local Open Scope Q_scope.

Lemma dearer_irrefl p x : ~ dearer p x x.
Proof. unfold dearer. lra. Qed.

Lemma as_cheap_trans p x y z : as_cheap p x y -> as_cheap p y z -> as_cheap p x z.
Proof. unfold as_cheap. lra. Qed.

(** The stable sort keeps what NumPy promises of every kind. *)
Lemma argsort_stable_ok : argsort_ok (@argsort_stable Q _).
Proof.
  intros a. split; cbn [np_argsort argsort_stable].
  - apply sort_by_perm.
  - apply sort_by_sorted.
    + intros x y z. unfold_num. rewrite !Qltb_false_iff. lra.
    + intros l1 x l2 _ y _. unfold_num.
      destruct (Qltb (nth y a 0) (nth x a 0)) eqn:E; [|reflexivity].
      apply Qltb_true_iff in E. apply Qltb_false_iff. lra.
Qed.
End Orders.

Section CandQ.
Local Open Scope Q_scope.
Context {AS : Argsort Q}.
Hypothesis AS_ok : argsort_ok AS.
Variable price_import price_export : nat -> Q.
Variable K : Z.
Hypothesis K_nonneg : (0 <= K)%Z.

(** The hours of [idx] in the order of [np.argsort] on their keys: all of
    them, none with a smaller key after one with a larger key. *)
Lemma argsort_take (key : nat -> Q) idx :
  Permutation (take idx (np_argsort (map key idx))) idx /\
  StronglySorted (fun i j => key i <= key j) (take idx (np_argsort (map key idx))).
Proof.
  destruct (AS_ok (map key idx)) as [Hp Hs]. rewrite length_map in Hp. split.
  - pose proof (Permutation_map (fun p => nth p idx 0%nat) Hp) as Hm.
    change (map (fun p => nth p idx 0%nat) (seq 0 (length idx)))
      with (take idx (seq 0 (length idx))) in Hm.
    rewrite take_seq in Hm. exact Hm.
  - unfold take. revert Hs. apply sorted_map. intros p q Hp' Hq' HR.
    apply (Permutation_in _ Hp), in_seq in Hp'.
    apply (Permutation_in _ Hp), in_seq in Hq'.
    unfold_num. apply Qltb_false_iff in HR.
    rewrite (nth_map_in key idx q 0 0%nat), (nth_map_in key idx p 0 0%nat) in HR by lia.
    exact HR.
Qed.

Lemma no_argsort_of_nothing : np_argsort (@nil Q) = [].
Proof.
  destruct (AS_ok []) as [Hp _]. cbn in Hp.
  now apply Permutation_sym, Permutation_nil in Hp.
Qed.

Lemma cand_low_selects idx :
  NoDup idx ->
  selects_first (as_cheap price_import) (Z.to_nat K) idx (cand_low price_import K idx).
Proof.
  intros Hnd. unfold cand_low. rewrite slice_to_nonneg by exact K_nonneg.
  destruct (argsort_take price_import idx) as [Hp Hs].
  apply firstn_selects; [exact Hnd | exact Hp | exact Hs].
Qed.

Lemma cand_high_selects idx :
  NoDup idx ->
  selects_first (as_dear price_export) (Z.to_nat K) idx (cand_high price_export K idx).
Proof.
  intros Hnd. unfold cand_high. rewrite slice_to_nonneg by exact K_nonneg.
  destruct (argsort_take (fun i => - price_export i) idx) as [Hp Hs].
  apply firstn_selects; [exact Hnd | exact Hp |].
  revert Hs. apply sorted_weaken. unfold as_dear. intros x y _ _. lra.
Qed.
End CandQ.

Lemma greedy_dicts ch lows : forall used kl kh,
  greedy ch used lows kl kh
  = (rev (greedy_pairs ch used lows) ++ kl, rev (map swap (greedy_pairs ch used lows)) ++ kh).
Proof.
  induction lows as [|l rest IH]; intros used kl kh; cbn; [reflexivity|].
  destruct (next_high ch used l) as [h|]; [|apply IH].
  rewrite IH. cbn. now rewrite <- !app_assoc.
Qed.

Lemma find_first {A} (p : A -> bool) l x :
  find p l = Some x ->
  exists l1 l2, l = l1 ++ x :: l2 /\ p x = true /\ forall y, In y l1 -> p y = false.
Proof.
  induction l as [|a t IH]; cbn; [discriminate|].
  destruct (p a) eqn:E.
  - intros [= <-]. exists [], t. repeat split; [exact E | contradiction].
  - intros Hf. destruct (IH Hf) as (l1 & l2 & -> & Hp & Hl1).
    exists (a :: l1), l2. repeat split; [exact Hp|].
    intros y [<-|Hy]; auto.
Qed.

Lemma existsb_eqb_In h used : existsb (Nat.eqb h) used = true <-> In h used.
Proof.
  rewrite existsb_exists. split.
  - intros (x & Hx & E). apply Nat.eqb_eq in E. now subst.
  - intros Hin. exists h. split; [exact Hin | apply Nat.eqb_refl].
Qed.

Lemma next_high_some ch used l h :
  next_high ch used l = Some h ->
  exists l1 l2, ch = l1 ++ h :: l2 /\ ~ In h used /\ l < h /\
                forall y, In y l1 -> l < y -> In y used.
Proof.
  unfold next_high. intros Hf. apply find_first in Hf.
  destruct Hf as (l1 & l2 & -> & Hp & Hl1).
  apply andb_true_iff in Hp. destruct Hp as [Hu Hlt].
  apply negb_true_iff in Hu. apply Nat.ltb_lt in Hlt.
  exists l1, l2. repeat split; [|exact Hlt|].
  - intro Hin. apply existsb_eqb_In in Hin. congruence.
  - intros y Hy Hly. specialize (Hl1 y Hy). apply andb_false_iff in Hl1.
    destruct Hl1 as [Hu'|Hlt'].
    + apply negb_false_iff in Hu'. now apply existsb_eqb_In.
    + apply Nat.ltb_ge in Hlt'. lia.
Qed.

Lemma next_high_none ch used l :
  next_high ch used l = None -> forall y, In y ch -> l < y -> In y used.
Proof.
  unfold next_high. intros Hf y Hy Hly.
  pose proof (find_none _ _ Hf y Hy) as Hp. cbn in Hp.
  apply andb_false_iff in Hp. destruct Hp as [Hu'|Hlt'].
  - apply negb_false_iff in Hu'. now apply existsb_eqb_In.
  - apply Nat.ltb_ge in Hlt'. lia.
Qed.

Section Greedy.
Variable B : nat -> nat -> Prop.     (* strictly before, among the high candidates *)
Hypothesis B_irrefl : forall x, ~ B x x.
Variable ch : list nat.
Hypothesis ch_sorted : StronglySorted (fun x y => ~ B y x) ch.

Lemma before_in_sorted l1 h l2 h' :
  ch = l1 ++ h :: l2 -> In h' ch -> B h' h -> In h' l1.
Proof.
  intros E Hin Hb. rewrite E in Hin. apply in_app_or in Hin.
  destruct Hin as [Hin|[<-|Hin]]; [exact Hin| |].
  - now apply B_irrefl in Hb.
  - exfalso. pose proof ch_sorted as Hs. rewrite E in Hs.
    apply (sorted_app_inv (fun x y => ~ B y x) (l1 ++ [h]) l2 ltac:(now rewrite <- app_assoc)
             h h'); [apply in_or_app; right; now left | exact Hin | exact Hb].
Qed.

Lemma greedy_pairs_spec lows : forall used,
  StronglySorted lt lows ->
  let R := greedy_pairs ch used lows in
  (forall l h, In (l, h) R -> In l lows /\ In h ch /\ ~ In h used /\ l < h) /\
  NoDup (map fst R) /\
  NoDup (map snd R) /\
  (forall l h, In (l, h) R ->
     forall h', In h' ch -> l < h' -> B h' h ->
       In h' used \/ exists l', l' < l /\ In (l', h') R) /\
  (forall l, In l lows -> ~ In l (map fst R) ->
     forall h', In h' ch -> l < h' ->
       In h' used \/ exists l', l' < l /\ In (l', h') R).
Proof.
  induction lows as [|l0 rest IH]; intros used Hs; cbn zeta.
  - cbn. repeat split; try constructor; try contradiction.
  - inversion Hs as [|? ? Hsr Hall]; subst. rewrite Forall_forall in Hall.
    cbn [greedy_pairs].
    destruct (next_high ch used l0) as [h0|] eqn:Hn.
    + destruct (next_high_some _ _ _ _ Hn) as (l1 & l2 & Ech & Hnu & Hlt & Hbefore).
      destruct (IH (h0 :: used) Hsr) as (I1 & I2 & I3 & I4 & I5). cbv zeta in *.
      assert (Hfst : forall l, In l (map fst (greedy_pairs ch (h0 :: used) rest)) -> l0 < l).
      { intros l Hl. apply in_map_iff in Hl. destruct Hl as ([l' h'] & <- & Hin).
        apply Hall. now apply (I1 l' h'). }
      repeat split.
      * destruct H as [[= <- <-]|Hin]; [now left | right; now apply (I1 l h)].
      * destruct H as [[= <- <-]|Hin]; [rewrite Ech; apply in_or_app; right; now left
                                        | now apply (I1 l h)].
      * destruct H as [[= <- <-]|Hin]; [exact Hnu|].
        intro Hu. apply (I1 l h) in Hin. destruct Hin as (_ & _ & Hnot & _).
        apply Hnot. now right.
      * destruct H as [[= <- <-]|Hin]; [exact Hlt | now apply (I1 l h)].
      * cbn. constructor; [|exact I2]. intro Hin. apply Hfst in Hin. lia.
      * cbn. constructor; [|exact I3]. intro Hin. apply in_map_iff in Hin.
        destruct Hin as ([l' h'] & E & Hin). cbn in E. subst h'.
        apply (I1 l' h0) in Hin. destruct Hin as (_ & _ & Hnot & _). apply Hnot. now left.
      * intros l h [[= <- <-]|Hin] h' Hh' Hlh' Hb.
        -- left. apply Hbefore; [|exact Hlh'].
           eapply before_in_sorted; eauto.
        -- destruct (I4 l h Hin h' Hh' Hlh' Hb) as [[<-|Hu]|(l' & Hl' & Hin')].
           ++ right. exists l0. split; [|now left].
              apply Hall. now apply (I1 l h).
           ++ now left.
           ++ right. exists l'. split; [exact Hl' | now right].
      * intros l [<-|Hl] Hnot h' Hh' Hlh'.
        { exfalso. apply Hnot. cbn. now left. }
        assert (Hnot' : ~ In l (map fst (greedy_pairs ch (h0 :: used) rest))).
        { intro Hin. apply Hnot. cbn. now right. }
        destruct (I5 l Hl Hnot' h' Hh' Hlh') as [[<-|Hu]|(l' & Hl' & Hin')].
        -- right. exists l0. split; [now apply Hall | now left].
        -- now left.
        -- right. exists l'. split; [exact Hl' | now right].
    + pose proof (next_high_none _ _ _ Hn) as Hnone.
      destruct (IH used Hsr) as (I1 & I2 & I3 & I4 & I5). cbv zeta in *.
      repeat split; try (now apply (I1 l h)); try assumption.
      * right. now apply (I1 l h).
      * intros l [<-|Hl] Hnot h' Hh' Hlh'.
        -- left. now apply Hnone.
        -- now apply I5.
Qed.
End Greedy.

(** ** The dicts *)

Lemma lookup_app k d1 d2 :
  lookup k (d1 ++ d2) = match lookup k d1 with Some v => Some v | None => lookup k d2 end.
Proof.
  induction d1 as [|[k' v'] t IH]; cbn; [reflexivity|].
  destruct (Nat.eqb k k'); [reflexivity | exact IH].
Qed.

Lemma lookup_none k d : ~ In k (map fst d) -> lookup k d = None.
Proof.
  induction d as [|[k' v'] t IH]; cbn; intros Hn; [reflexivity|].
  destruct (Nat.eqb k k') eqn:E.
  - apply Nat.eqb_eq in E. subst. exfalso. apply Hn. now left.
  - apply IH. intro Hin. apply Hn. now right.
Qed.

Lemma lookup_in k v d : lookup k d = Some v -> In (k, v) d.
Proof.
  induction d as [|[k' v'] t IH]; cbn; [discriminate|].
  destruct (Nat.eqb k k') eqn:E.
  - apply Nat.eqb_eq in E. subst. intros [= <-]. now left.
  - intros Hl. right. now apply IH.
Qed.

Lemma in_lookup k v d : NoDup (map fst d) -> In (k, v) d -> lookup k d = Some v.
Proof.
  induction d as [|[k' v'] t IH]; cbn; intros Hnd Hin; [contradiction|].
  inversion Hnd as [|? ? Hnot Hnd']; subst.
  destruct Hin as [[= -> ->]|Hin].
  - now rewrite Nat.eqb_refl.
  - destruct (Nat.eqb k k') eqn:E; [|now apply IH].
    apply Nat.eqb_eq in E. subst. exfalso. apply Hnot.
    apply in_map_iff. now exists (k', v).
Qed.

Lemma NoDup_map_fst_rev (d : dict) : NoDup (map fst d) -> NoDup (map fst (rev d)).
Proof.
  intros Hnd. rewrite map_rev. eapply Permutation_NoDup; [apply Permutation_rev | exact Hnd].
Qed.

Lemma lookup_rev k v (d : dict) :
  NoDup (map fst d) -> (lookup k (rev d) = Some v <-> In (k, v) d).
Proof.
  intros Hnd. split.
  - intros Hl. apply in_rev. now apply lookup_in.
  - intros Hin. apply in_lookup; [now apply NoDup_map_fst_rev | now apply in_rev in Hin].
Qed.

Section Days.
Local Open Scope Q_scope.
Context {AS : Argsort Q}.
Hypothesis AS_ok : argsort_ok AS.
Variable date_key : list String.string.
Variable price_import price_export : nat -> Q.
Variable K : Z.
Hypothesis K_nonneg : (0 <= K)%Z.

Lemma pair_day_eq dicts day :
  pair_day date_key price_import price_export K dicts day
  = (rev (day_pairs date_key price_import price_export K day) ++ fst dicts, rev (map swap (day_pairs date_key price_import price_export K day)) ++ snd dicts).
Proof.
  unfold pair_day, day_pairs. destruct (hours_of date_key day) as [|i idx] eqn:E.
  - unfold cand_low, take, slice_to. cbn [map]. rewrite (no_argsort_of_nothing AS_ok).
    cbn [map]. destruct (0 <=? K)%Z; rewrite firstn_nil; cbn; now destruct dicts.
  - apply greedy_dicts.
Qed.

Lemma hours_of_sorted day : StronglySorted lt (hours_of date_key day).
Proof. unfold hours_of. apply sorted_filter, sorted_lt_seq. Qed.

Lemma hours_of_NoDup day : NoDup (hours_of date_key day).
Proof. apply sorted_lt_NoDup, hours_of_sorted. Qed.

Lemma hours_of_day day day' i :
  In i (hours_of date_key day) -> In i (hours_of date_key day') -> day = day'.
Proof.
  unfold hours_of. intros H1 H2. apply filter_In in H1, H2.
  destruct H1 as [_ H1]. destruct H2 as [_ H2].
  apply String.eqb_eq in H1, H2. congruence.
Qed.

Lemma lows_sorted day :
  StronglySorted lt (sort_by Nat.ltb (cand_low price_import K (hours_of date_key day))).
Proof.
  destruct (cand_low_selects AS_ok price_import K K_nonneg _ (hours_of_NoDup day))
    as (Hnd & _).
  apply sort_by_sorted; [intros x y z; apply Nat.lt_trans|].
  intros l1 x l2 E y Hy. rewrite E in Hnd.
  apply NoDup_remove_2 in Hnd.
  assert (x <> y) by (intros ->; apply Hnd, in_or_app; now right).
  destruct (Nat.ltb y x) eqn:L; [apply Nat.ltb_lt in L | apply Nat.ltb_ge in L]; lia.
Qed.

Lemma in_lows day l :
  In l (sort_by Nat.ltb (cand_low price_import K (hours_of date_key day)))
  <-> In l (cand_low price_import K (hours_of date_key day)).
Proof.
  split; apply Permutation_in; [|symmetry]; apply sort_by_perm.
Qed.

(** What [greedy_pairs_spec] says of the pairs of a day. *)
Lemma day_pairs_spec day :
  let lows := cand_low price_import K (hours_of date_key day) in
  let highs := cand_high price_export K (hours_of date_key day) in
  let R := day_pairs date_key price_import price_export K day in
  (forall l h, In (l, h) R -> In l lows /\ In h highs /\ (l < h)%nat) /\
  NoDup (map fst R) /\
  NoDup (map snd R) /\
  (forall l h, In (l, h) R ->
     forall h', In h' highs -> (l < h')%nat -> dearer price_export h' h ->
       exists l', (l' < l)%nat /\ In (l', h') R) /\
  (forall l, In l lows -> ~ In l (map fst R) ->
     forall h', In h' highs -> (l < h')%nat ->
       exists l', (l' < l)%nat /\ In (l', h') R).
Proof.
  cbv zeta.
  destruct (cand_high_selects AS_ok price_export K K_nonneg _ (hours_of_NoDup day))
    as (_ & _ & _ & Hsorted & _).
  assert (Hweak : StronglySorted (fun x y => ~ dearer price_export y x)
                    (cand_high price_export K (hours_of date_key day))).
  { revert Hsorted. apply sorted_weaken. unfold as_dear, dearer. intros x y _ _. lra. }
  destruct (greedy_pairs_spec (dearer price_export) (dearer_irrefl _)
              _ Hweak _ [] (lows_sorted day)) as (G1 & G2 & G3 & G4 & G5).
  cbv zeta in *. fold (day_pairs date_key price_import price_export K day) in *.
  repeat split; try assumption.
  - apply in_lows. now apply (G1 l h).
  - now apply (G1 l h).
  - now apply (G1 l h).
  - intros l h Hin h' Hh' Hlt Hb.
    destruct (G4 l h Hin h' Hh' Hlt Hb) as [[]|Hex]; exact Hex.
  - intros l Hl Hnot h' Hh' Hlt.
    destruct (G5 l (proj2 (in_lows day l) Hl) Hnot h' Hh' Hlt) as [[]|Hex]; exact Hex.
Qed.
End Days.

Section Build.
Local Open Scope Q_scope.
Context {AS : Argsort Q}.
Hypothesis AS_ok : argsort_ok AS.
Variable date_key : list String.string.
Variable price_import price_export : nat -> Q.
Variable K : Z.
Hypothesis K_nonneg : (0 <= K)%Z.

Lemma fold_lookup_other l days : forall dicts,
  (forall d, In d days -> lookup l (rev (day_pairs date_key price_import price_export K d)) = None) ->
  lookup l (fst (fold_left (pair_day date_key price_import price_export K) days dicts)) = lookup l (fst dicts).
Proof.
  induction days as [|d t IH]; intros dicts Hn; cbn [fold_left]; [reflexivity|].
  rewrite IH by (intros d' Hd'; apply Hn; now right).
  rewrite (pair_day_eq AS_ok date_key price_import price_export K). cbn [fst]. rewrite lookup_app, Hn by now left. reflexivity.
Qed.

Lemma fold_lookup_other_high h days : forall dicts,
  (forall d, In d days -> lookup h (rev (map swap (day_pairs date_key price_import price_export K d))) = None) ->
  lookup h (snd (fold_left (pair_day date_key price_import price_export K) days dicts)) = lookup h (snd dicts).
Proof.
  induction days as [|d t IH]; intros dicts Hn; cbn [fold_left]; [reflexivity|].
  rewrite IH by (intros d' Hd'; apply Hn; now right).
  rewrite (pair_day_eq AS_ok date_key price_import price_export K). cbn [snd]. rewrite lookup_app, Hn by now left. reflexivity.
Qed.

Lemma other_day_low day d l :
  d <> day -> In l (hours_of date_key day) -> lookup l (rev (day_pairs date_key price_import price_export K d)) = None.
Proof.
  intros Hd Hl. apply lookup_none. rewrite map_rev, <- in_rev. intro Hin.
  apply in_map_iff in Hin. destruct Hin as ([l' h'] & E & Hin). cbn in E. subst l'.
  destruct (day_pairs_spec AS_ok date_key price_import price_export K K_nonneg d) as (G1 & _).
  apply G1 in Hin. destruct Hin as (Hlow & _).
  destruct (cand_low_selects AS_ok price_import K K_nonneg _ (hours_of_NoDup date_key d))
    as (_ & Hincl & _).
  apply Hd. eapply hours_of_day; eauto.
Qed.

Lemma other_day_high day d h :
  d <> day -> In h (hours_of date_key day) -> lookup h (rev (map swap (day_pairs date_key price_import price_export K d))) = None.
Proof.
  intros Hd Hh. apply lookup_none. rewrite map_rev, <- in_rev. intro Hin.
  rewrite map_map in Hin. apply in_map_iff in Hin.
  destruct Hin as ([l' h'] & E & Hin). cbn in E. subst h'.
  destruct (day_pairs_spec AS_ok date_key price_import price_export K K_nonneg d) as (G1 & _).
  apply G1 in Hin. destruct Hin as (_ & Hhigh & _).
  destruct (cand_high_selects AS_ok price_export K K_nonneg _ (hours_of_NoDup date_key d))
    as (_ & Hincl & _).
  apply Hd. eapply hours_of_day; eauto.
Qed.

Lemma split_unique day :
  In day date_key ->
  exists d1 d2, unique date_key = d1 ++ day :: d2 /\
                forall d, In d (d1 ++ d2) -> d <> day.
Proof.
  intros Hin. unfold unique.
  assert (Hin' : In day (nodup String.string_dec date_key)) by now apply nodup_In.
  destruct (in_split _ _ Hin') as (d1 & d2 & E). exists d1, d2. split; [exact E|].
  pose proof (NoDup_nodup String.string_dec date_key) as Hnd. rewrite E in Hnd.
  apply NoDup_remove_2 in Hnd. intros d Hd ->. contradiction.
Qed.

(** For an hour of [day], the two dicts answer as the pairs of [day] do. *)
Lemma build_lookup day i :
  In day date_key -> In i (hours_of date_key day) ->
  let dicts := _build_daily_pairs date_key price_import price_export K in
  lookup i (fst dicts) = lookup i (rev (day_pairs date_key price_import price_export K day)) /\
  lookup i (snd dicts) = lookup i (rev (map swap (day_pairs date_key price_import price_export K day))).
Proof.
  intros Hday Hi. cbv zeta. unfold _build_daily_pairs.
  destruct (split_unique day Hday) as (d1 & d2 & -> & Hother).
  rewrite fold_left_app. cbn [fold_left]. split.
  - rewrite fold_lookup_other.
    2:{ intros d Hd. apply (other_day_low day); [|exact Hi].
        apply Hother, in_or_app. now right. }
    rewrite (pair_day_eq AS_ok date_key price_import price_export K). cbn [fst]. rewrite lookup_app.
    rewrite fold_lookup_other.
    2:{ intros d Hd. apply (other_day_low day); [|exact Hi].
        apply Hother, in_or_app. now left. }
    cbn. now destruct (lookup i (rev (day_pairs date_key price_import price_export K day))).
  - rewrite fold_lookup_other_high.
    2:{ intros d Hd. apply (other_day_high day); [|exact Hi].
        apply Hother, in_or_app. now right. }
    rewrite (pair_day_eq AS_ok date_key price_import price_export K). cbn [snd]. rewrite lookup_app.
    rewrite fold_lookup_other_high.
    2:{ intros d Hd. apply (other_day_high day); [|exact Hi].
        apply Hother, in_or_app. now left. }
    cbn. now destruct (lookup i (rev (map swap (day_pairs date_key price_import price_export K day)))).
Qed.

Lemma map_fst_swap (R : list (nat * nat)) : map fst (map swap R) = map snd R.
Proof. rewrite map_map. reflexivity. Qed.

Lemma in_swap l h (R : list (nat * nat)) : In (h, l) (map swap R) <-> In (l, h) R.
Proof.
  rewrite in_map_iff. split.
  - intros ([l' h'] & [= <- <-] & Hin). exact Hin.
  - intros Hin. now exists (l, h).
Qed.

(** Whatever order [np.argsort] gives to hours of equal price: for a day of
    the calendar and a non-negative cycles_per_day = K, the low candidates
    are K hours of the day (all when the day has fewer) none of which is
    dearer to buy in than an hour left out, the high candidates K hours none
    of which is cheaper to sell in than an hour left out.  An hour [l] of
    the day is paired with [h] only if [l] is a low candidate, [h] a high
    candidate and [l < h]; the two dicts are inverse to each other; every
    high candidate later than [l] and strictly dearer than [h] was taken by
    an earlier low.  A low candidate that is not paired has every high
    candidate later than it taken by an earlier low. *)
Theorem daily_pairs_are_greedy_extrema (day : String.string) :
  In day date_key ->
  let idx := hours_of date_key day in
  let lows := cand_low price_import K idx in
  let highs := cand_high price_export K idx in
  let k_low_by_hour := fst (_build_daily_pairs date_key price_import price_export K) in
  let k_high_by_hour := snd (_build_daily_pairs date_key price_import price_export K) in
  selects_first (as_cheap price_import) (Z.to_nat K) idx lows /\
  selects_first (as_dear price_export) (Z.to_nat K) idx highs /\
  (forall l, In l idx ->
     match lookup l k_low_by_hour with
     | Some h =>
       In l lows /\ In h highs /\ (l < h)%nat /\ lookup h k_high_by_hour = Some l /\
       forall h', In h' highs -> (l < h')%nat -> dearer price_export h' h ->
         exists l', In l' lows /\ (l' < l)%nat /\ lookup l' k_low_by_hour = Some h'
     | None =>
       In l lows ->
       forall h', In h' highs -> (l < h')%nat ->
         exists l', In l' lows /\ (l' < l)%nat /\ lookup l' k_low_by_hour = Some h'
     end) /\
  (forall h l, In h idx -> lookup h k_high_by_hour = Some l ->
     lookup l k_low_by_hour = Some h).
Proof.
  intros Hday. cbv zeta.
  pose proof (cand_low_selects AS_ok price_import K K_nonneg _ (hours_of_NoDup date_key day))
    as Hlow.
  pose proof (cand_high_selects AS_ok price_export K K_nonneg _ (hours_of_NoDup date_key day))
    as Hhigh.
  destruct (day_pairs_spec AS_ok date_key price_import price_export K K_nonneg day)
    as (G1 & G2 & G3 & G4 & G5). cbv zeta in *.
  assert (Hlow_incl : incl (cand_low price_import K (hours_of date_key day))
                           (hours_of date_key day)) by apply Hlow.
  assert (Hhigh_incl : incl (cand_high price_export K (hours_of date_key day))
                            (hours_of date_key day)) by apply Hhigh.
  assert (Hk_low : forall l h, In (l, h) (day_pairs date_key price_import price_export K day) ->
            lookup l (fst (_build_daily_pairs date_key price_import price_export K))
            = Some h).
  { intros l h Hin. destruct (G1 l h Hin) as (Hl & _).
    rewrite (proj1 (build_lookup day l Hday (Hlow_incl l Hl))).
    now apply lookup_rev. }
  assert (Hk_high : forall l h, In (l, h) (day_pairs date_key price_import price_export K day) ->
            lookup h (snd (_build_daily_pairs date_key price_import price_export K))
            = Some l).
  { intros l h Hin. destruct (G1 l h Hin) as (_ & Hh & _).
    rewrite (proj2 (build_lookup day h Hday (Hhigh_incl h Hh))).
    apply lookup_rev; [now rewrite map_fst_swap | now apply (proj2 (in_swap l h _))]. }
  split; [exact Hlow|]. split; [exact Hhigh|]. split.
  - intros l Hl.
    rewrite (proj1 (build_lookup day l Hday Hl)).
    destruct (lookup l (rev (day_pairs date_key price_import price_export K day))) as [h|] eqn:E.
    + apply lookup_rev in E; [|exact G2].
      destruct (G1 l h E) as (Hlo & Hhi & Hlt).
      repeat split; try assumption; [now apply Hk_high|].
      intros h' Hh' Hlt' Hb.
      destruct (G4 l h E h' Hh' Hlt' Hb) as (l' & Hl' & Hin').
      exists l'. repeat split; [now apply (G1 l' h') | exact Hl' | now apply Hk_low].
    + intros Hlo h' Hh' Hlt'.
      assert (Hnot : ~ In l (map fst (day_pairs date_key price_import price_export K day))).
      { intro Hin. apply in_map_iff in Hin. destruct Hin as ([l' h] & E' & Hin).
        cbn in E'. subst l'. apply (lookup_rev l h _ G2) in Hin. congruence. }
      destruct (G5 l Hlo Hnot h' Hh' Hlt') as (l' & Hl' & Hin').
      exists l'. repeat split; [now apply (G1 l' h') | exact Hl' | now apply Hk_low].
  - intros h l Hh E.
    rewrite (proj2 (build_lookup day h Hday Hh)) in E.
    apply lookup_rev in E; [|now rewrite map_fst_swap].
    apply (proj1 (in_swap l h _)) in E. now apply Hk_low.
Qed.
End Build.

(** The theorem on the three hours of [chain_days], K = 2, with a stable
    [np.argsort]. *)
Lemma daily_pairs_are_greedy_extrema_witness :
  selects_first (as_cheap chain_import) 2 (hours_of chain_days day_2025_01_01)
                (cand_low (AS := argsort_stable) chain_import 2
                          (hours_of chain_days day_2025_01_01)) /\
  selects_first (as_dear chain_export) 2 (hours_of chain_days day_2025_01_01)
                (cand_high (AS := argsort_stable) chain_export 2
                           (hours_of chain_days day_2025_01_01)) /\
  (forall h l,
     In h (hours_of chain_days day_2025_01_01) ->
     lookup h (snd (_build_daily_pairs (AS := argsort_stable)
                      chain_days chain_import chain_export 2)) = Some l ->
     lookup l (fst (_build_daily_pairs (AS := argsort_stable)
                      chain_days chain_import chain_export 2)) = Some h).
Proof.
  assert (HK : (0 <= 2)%Z) by lia.
  destruct (daily_pairs_are_greedy_extrema argsort_stable_ok
              chain_days chain_import chain_export 2 HK
              day_2025_01_01 (or_introl eq_refl)) as (H1 & H2 & _ & H4).
  exact (conj H1 (conj H2 H4)).
Defined.

(** ** Hours of equal price *)


End PairingProofs.

Section ProposerProofs.
Import Proposer ProposerSpec.
Local Open Scope Q_scope.
Context {AS : Argsort Q}.

(** ** The thresholds *)


Lemma day_boundary_cycles {F} `{Num F} (P : @scalars F) day st :
  cycles_used (day_boundary P day st) = cycles_used st.
Proof.
  unfold day_boundary. destruct (prev_day st) as [d|]; [destruct (negb _)|]; reflexivity.
Qed.







End ProposerProofs.

Section ProposerScenarios.
Import Proposer ProposerSpec.
Local Open Scope Q_scope.


(** ** Both flags in one hour *)

(** The rows depend on [np.argsort] through the pairs only. *)
Lemma hour_body_pairs {F} `{Num F} (A B : Argsort F) (P : @scalars F) hs i r st :
  pairs (AS := A) P hs = pairs (AS := B) P hs ->
  hour_body (AS := A) P hs i r st = hour_body (AS := B) P hs i r st.
Proof. intros E. unfold hour_body, k_low_by_hour, k_high_by_hour. now rewrite E. Qed.

Lemma loop_pairs {F} `{Num F} (A B : Argsort F) (P : @scalars F) hs rs : forall i st,
  pairs (AS := A) P hs = pairs (AS := B) P hs ->
  loop (AS := A) P hs i rs st = loop (AS := B) P hs i rs st.
Proof.
  induction rs as [|r rs' IH]; intros i st E; cbn [loop]; [reflexivity|].
  rewrite (hour_body_pairs A B P hs i r st E).
  destruct (hour_body P hs i r st) as [st' o]. now rewrite IH.
Qed.

Lemma run_pairs {F} `{Num F} (A B : Argsort F) (P : @scalars F) hs :
  pairs (AS := A) P hs = pairs (AS := B) P hs ->
  run (AS := A) P hs = run (AS := B) P hs.
Proof. apply loop_pairs. Qed.

(** Three values no two of which tie are sorted in one way only. *)
Lemma argsort_of_three (AS : Argsort float) (a : list float) (perm : list nat) :
  length a = 3%nat ->
  (forall x y, In x [0; 1; 2]%nat -> In y [0; 1; 2]%nat -> x <> y ->
     PrimFloat.ltb (nth y a 0%float) (nth x a 0%float) = true \/
     PrimFloat.ltb (nth x a 0%float) (nth y a 0%float) = true) ->
  StronglySorted (fun p q => PrimFloat.ltb (nth q a 0%float) (nth p a 0%float) = false) perm ->
  Permutation perm [0; 1; 2]%nat ->
  sorts AS a -> np_argsort a = perm.
Proof.
  intros Hlen Hdist Hsp Hpp [Hp Hs]. rewrite Hlen in Hp. cbn [seq] in Hp.
  apply (sorted_perm_unique
           (fun p q => PrimFloat.ltb (nth q a 0%float) (nth p a 0%float) = false)).
  - intros x y Hx Hy Rxy Ryx.
    apply (Permutation_in _ Hp) in Hx. apply (Permutation_in _ Hp) in Hy.
    destruct (Nat.eq_dec x y) as [E|N]; [exact E|].
    destruct (Hdist x y Hx Hy N); congruence.
  - exact Hs.
  - exact Hsp.
  - now rewrite Hp, Hpp.
Qed.

(** C9 at [hours_chain], in binary64, whatever [np.argsort] does beyond
    sorting the two vectors it is called on for the day (no two of their
    values tie): hour 1 is charged as the low hour of the pair (1, 2) and
    discharged as the high hour of the pair (0, 1); it has both dec_ch and
    dec_dis, and the validator counts it. *)
Lemma both_flags_in_one_hour (AS : Argsort float) :
  sorts AS chain_low_keys -> sorts AS chain_high_keys ->
  (let idx := hours_of (map date_key hours_chain) day_2025_01_01 in
   map (price_import_at hours_chain) idx = chain_low_keys /\
   map (fun i => n_opp (price_export_at hours_chain i)) idx = chain_high_keys) /\
  pairs scalars_chain hours_chain = ([(1, 2); (0, 1)], [(2, 1); (1, 0)])%nat /\
  map (fun o => (dec_ch o, dec_dis o)) (run scalars_chain hours_chain)
  = [(true, false); (true, true); (false, true)] /\
  both_flags (run scalars_chain hours_chain) = 1%nat.
Proof.
  intros Hlow Hhigh.
  assert (E1 : np_argsort [10; 20; 100]%float = [0; 1; 2]%nat).
  { apply (argsort_of_three AS chain_low_keys); [reflexivity | | | reflexivity | exact Hlow].
    - intros x y [<-|[<-|[<-|[]]]] [<-|[<-|[<-|[]]]] N; try congruence;
        vm_compute; tauto.
    - repeat (constructor; [|repeat (constructor; [vm_compute; reflexivity|]); constructor]).
      constructor. }
  assert (E2 : np_argsort ltac:(let l := eval vm_compute in chain_high_keys in exact l)
               = [1; 2; 0]%nat).
  { apply (argsort_of_three AS chain_high_keys); [reflexivity | | | | exact Hhigh].
    - intros x y [<-|[<-|[<-|[]]]] [<-|[<-|[<-|[]]]] N; try congruence;
        vm_compute; tauto.
    - repeat (constructor; [|repeat (constructor; [vm_compute; reflexivity|]); constructor]).
      constructor.
    - apply (sorted_form_perm _ 3). reflexivity. }
  assert (Ep : pairs scalars_chain hours_chain
               = ([(1, 2); (0, 1)], [(2, 1); (1, 0)])%nat).
  { unfold pairs, _build_daily_pairs.
    replace (unique (map date_key hours_chain)) with [day_2025_01_01]
      by (vm_compute; reflexivity).
    cbn [fold_left]. unfold pair_day.
    replace (hours_of (map date_key hours_chain) day_2025_01_01) with [0; 1; 2]%nat
      by (vm_compute; reflexivity).
    unfold cand_low, cand_high.
    repeat match goal with
           | |- context [@np_argsort _ AS ?l] =>
               let l' := eval vm_compute in l in progress change l with l'
           end.
    rewrite E1, E2. vm_compute. reflexivity. }
  split; [split; vm_compute; reflexivity|].
  split; [exact Ep|].
  rewrite (run_pairs AS argsort_stable scalars_chain hours_chain)
    by (rewrite Ep; vm_compute; reflexivity).
  split; vm_compute; reflexivity.
Qed.

(** The lemma with a stable [np.argsort]. *)
Lemma both_flags_in_one_hour_witness :
  both_flags (run (AS := argsort_stable) scalars_chain hours_chain) = 1%nat.
Proof.
  apply (both_flags_in_one_hour argsort_stable).
  - split; [apply sorted_form_perm; reflexivity|].
    repeat (constructor; [|repeat (constructor; [vm_compute; reflexivity|]); constructor]).
    constructor.
  - split; [apply sorted_form_perm; reflexivity|].
    repeat (constructor; [|repeat (constructor; [vm_compute; reflexivity|]); constructor]).
    constructor.
Defined.
End ProposerScenarios.

(* ================================================================== *)
(** * Stage 02: the proposals and the simulated state *)
(* ================================================================== *)

Section ProposerLawsProofs.
Import Proposer ProposerSpec ProposerLaws.
Local Open Scope Q_scope.
Context {AS : Argsort Q}.

Lemma eps_max_pos (eta : Q) : 0 < pymax2 eta (1 # 1000000000000).
Proof. destruct (pymax2_Q eta (1 # 1000000000000)) as [[-> L]|[-> L]]; lra. Qed.

Lemma day_boundary_sim_ok P day st : sim_ok P st -> sim_ok P (day_boundary P day st).
Proof.
  unfold sim_ok, day_boundary. intros [Hs Hp].
  destruct (prev_day st) as [d|]; [destruct (negb _)|]; cbn;
    try destruct (allow_carry_over P); split; try assumption; lra.
Qed.

(** The state and the proposals of one hour. *)
Lemma hour_body_sim P hs i r st :
  sim_ok P st ->
  sim_ok P (fst (hour_body P hs i r st)) /\
  proposals_ok P r (snd (hour_body P hs i r st)) /\
  soc_arbi_sim_mwh (snd (hour_body P hs i r st)) = soc_curr (fst (hour_body P hs i r st)).
Proof.
  intros Hok. apply (day_boundary_sim_ok P (date_key r)) in Hok.
  unfold hour_body. cbv zeta.
  revert Hok. generalize (day_boundary P (date_key r) st). intros st1 [Hs Hp].
  destruct (negb _).
  { cbn. repeat split; try assumption; try lra; intros; discriminate. }
  destruct (if contains i (k_low_by_hour P hs) then _ else _) as [il ih].
  generalize (price_export_at hs ih - price_import_at hs il)%num. intros dk.
  unfold sim_ok, proposals_ok, Proposer.EPS. unfold_num.
  pose proof (eps_max_pos (eta_ch_frac P)) as Mch.
  pose proof (eps_max_pos (eta_dis_frac P)) as Mdis.
  revert Mch Mdis.
  generalize (pymax2 (eta_ch_frac P) (1 # 1000000000000)).
  generalize (pymax2 (eta_dis_frac P) (1 # 1000000000000)).
  intros mdis mch Mch Mdis.
  assert (Qd : cap_eff_dis_ac P r / mdis * mdis == cap_eff_dis_ac P r) by (field; lra).
  revert Qd.
  generalize (cap_eff_dis_ac P r / mdis). generalize (cap_eff_ch_ac P r) (cap_eff_dis_ac P r).
  intros cch cdis qd Qd.
  destruct st1 as [soc pend cyc pd]. cbn [soc_curr pending_arbi_net cycles_used prev_day] in *.
  generalize (contains i (k_low_by_hour P hs)) (contains i (k_high_by_hour P hs)).
  intros is_low is_high.
  generalize (thr_l_of P (bonus_hrs_ch r)
                (Qle_bool soc (emax_arbi_mwh P * (soc_low_threshold P / 100)))).
  generalize (thr_h_of P (bonus_hrs_dis r)
                (Qle_bool (emax_arbi_mwh P * (soc_high_threshold P / 100)) soc)).
  intros th tl.
  repeat (match goal with
          | |- context [if ?b then _ else _] =>
              no_if b; let E := fresh "E" in destruct b eqn:E
          end;
          cbn [fst snd soc_curr pending_arbi_net cycles_used prev_day
               prop_arbi_ch_from_grid_ac_mwh prop_arbi_dis_to_grid_ac_mwh dec_ch dec_dis
               soc_arbi_sim_mwh] in *).
  all: repeat match goal with
       | E : _ && _ = true |- _ => apply andb_true_iff in E; destruct E
       end.
  all: repeat match goal with
       | E : Qltb _ _ = true |- _ => apply Qltb_true_iff in E
       | E : Qle_bool _ _ = true |- _ => apply Qle_bool_iff in E
       end.
  all: try match goal with
       | |- context [?n / ?e] =>
           assert (D1 : 0 < n / e) by (apply Qdiv_pos; repeat qcase; lra);
           assert (D2 : n / e <= cch)
             by (apply Qle_shift_div_r; [lra | repeat qcase; lra]);
           revert D1 D2; generalize (n / e); intros
       end.
  all: repeat qcase.
  all: repeat split; intros; try discriminate; try reflexivity; try lra; try nra.
Qed.

Lemma cycles_of_cons day d n c :
  cycles_of day ((d, n) :: c) = if String.eqb day d then n else cycles_of day c.
Proof. reflexivity. Qed.

(** The cycle counters of one hour. *)
Lemma hour_body_cycles P hs i r st :
  cycles_ok P st ->
  cycles_ok P (fst (hour_body P hs i r st)) /\
  cycles_used_today (snd (hour_body P hs i r st))
  = cycles_of (date_key r) (cycles_used (fst (hour_body P hs i r st))) /\
  ((cycles_per_day P <= 0)%Z ->
   dec_ch (snd (hour_body P hs i r st)) = false /\
   dec_dis (snd (hour_body P hs i r st)) = false).
Proof.
  unfold cycles_ok. intros Hc.
  assert (Hc1 : forall day,
             (0 <= cycles_of day (cycles_used (day_boundary P (date_key r) st))
              <= Z.max 0 (cycles_per_day P))%Z)
    by (intros; rewrite day_boundary_cycles; apply Hc).
  unfold hour_body. cbv zeta. revert Hc1.
  generalize (day_boundary P (date_key r) st). clear Hc st. intros st Hc.
  destruct (negb _).
  { cbn. repeat split; try apply Hc; reflexivity. }
  destruct (if contains i (k_low_by_hour P hs) then _ else _) as [il ih].
  set (day := date_key r) in *.
  pose proof (Hc day) as Hday.
  destruct (cycles_of day (cycles_used st) <? cycles_per_day P)%Z eqn:Ecy.
  - apply Z.ltb_lt in Ecy.
    repeat (match goal with
            | |- context [if ?b then _ else _] => no_if b; destruct b
            end;
            cbn [fst snd soc_curr pending_arbi_net cycles_used prev_day
                 dec_ch dec_dis cycles_used_today] in *).
    all: repeat split; intros; try reflexivity; try lia; try apply Hc.
    all: try (rewrite cycles_of_cons; rewrite ?String.eqb_refl;
              destruct (String.eqb _ day); try lia; apply Hc).
  - pose proof Ecy as Ecy'. apply Z.ltb_ge in Ecy. rewrite !andb_false_r. cbn [andb].
    cbn [fst snd soc_curr pending_arbi_net cycles_used prev_day
         dec_ch dec_dis cycles_used_today].
    rewrite Ecy', !andb_false_r.
    cbn [fst snd soc_curr pending_arbi_net cycles_used prev_day
         dec_ch dec_dis cycles_used_today].
    repeat split; try reflexivity; apply Hc.
Qed.

Lemma cap_eff_within_grid_caps (P : @scalars Q) (r : hour_in) :
  cap_eff_ch_ac P r <= cap_grid_import_ac_mwh r /\
  cap_eff_dis_ac P r <= cap_grid_export_ac_mwh r.
Proof.
  unfold cap_eff_ch_ac, cap_eff_dis_ac, np_minimum. unfold_num.
  destruct (cap_bess_charge_net_mwh r), (cap_bess_discharge_net_mwh r);
    repeat break_if; lra.
Qed.

(** Every row with the hour it belongs to, and the state the hour started
    in. *)
Lemma loop_rows (P : @scalars Q) hs (I : loop_state -> Prop) :
  (forall i r st, I st -> I (fst (hour_body P hs i r st))) ->
  forall rs i0 st r o,
    I st -> In (r, o) (combine rs (loop P hs i0 rs st)) ->
    exists i st0, I st0 /\ o = snd (hour_body P hs i r st0).
Proof.
  intros Hstep. induction rs as [|r0 rs' IH]; intros i0 st r o Hst Hin; [destruct Hin|].
  cbn [loop] in Hin. pose proof (Hstep i0 r0 st Hst) as Hnext.
  destruct (hour_body P hs i0 r0 st) as [st' o0] eqn:E. cbn [combine] in Hin.
  destruct Hin as [Heq|Hin].
  - injection Heq as <- <-. exists i0, st. split; [exact Hst | now rewrite E].
  - exact (IH (S i0) st' r o Hnext Hin).
Qed.

(** With the initial SOC within the capacity, the simulated SOC of every
    row is within [0, emax_arbi], the pending energy is not negative, and a
    proposal is zero when its decision flag is off and otherwise positive
    and within the effective AC cap of the hour, which is at most the grid
    cap: commit is never asked for more than the grid connection allows. *)
Theorem proposals_fit_the_caps (P : @scalars Q) (hs : list hour_in) (r : hour_in)
  (o : out_row) :
  0 <= soc0_arbi_mwh P <= emax_arbi_mwh P ->
  In (r, o) (combine hs (run P hs)) ->
  0 <= soc_arbi_sim_mwh o <= emax_arbi_mwh P /\
  (dec_ch o = false -> prop_arbi_ch_from_grid_ac_mwh o == 0) /\
  (dec_ch o = true ->
   0 < prop_arbi_ch_from_grid_ac_mwh o <= cap_grid_import_ac_mwh r) /\
  (dec_dis o = false -> prop_arbi_dis_to_grid_ac_mwh o == 0) /\
  (dec_dis o = true ->
   0 < prop_arbi_dis_to_grid_ac_mwh o <= cap_grid_export_ac_mwh r).
Proof.
  intros H0 Hin. unfold run in Hin.
  destruct (loop_rows P hs (sim_ok P)
              (fun i r st Hst => proj1 (hour_body_sim P hs i r st Hst))
              hs 0%nat (init_state P) r o) as (i & st0 & Hst0 & ->).
  { unfold sim_ok, init_state. cbn. lra. }
  { exact Hin. }
  destruct (hour_body_sim P hs i r st0 Hst0) as ([Hs _] & (P1 & P2 & P3 & P4) & E).
  destruct (cap_eff_within_grid_caps P r) as [C1 C2].
  rewrite E. split; [exact Hs|].
  split; [exact P1|]. split; [intros Hd; specialize (P2 Hd); lra|].
  split; [exact P3|]. intros Hd. specialize (P4 Hd). lra.
Qed.

(** In every row cycles_used_today is at least 0 and at most cycles_per_day
    (at most 0 when cycles_per_day is negative); with cycles_per_day at most
    0 no hour gets a decision flag. *)
Theorem cycles_stay_within_the_daily_limit (P : @scalars Q) (hs : list hour_in)
  (r : hour_in) (o : out_row) :
  In (r, o) (combine hs (run P hs)) ->
  (0 <= cycles_used_today o <= Z.max 0 (cycles_per_day P))%Z /\
  ((cycles_per_day P <= 0)%Z -> dec_ch o = false /\ dec_dis o = false).
Proof.
  intros Hin. unfold run in Hin.
  destruct (loop_rows P hs (cycles_ok P)
              (fun i r st Hst => proj1 (hour_body_cycles P hs i r st Hst))
              hs 0%nat (init_state P) r o) as (i & st0 & Hst0 & ->).
  { intros day. cbn. lia. }
  { exact Hin. }
  destruct (hour_body_cycles P hs i r st0 Hst0) as (Hc & E & Hz).
  rewrite E. split; [apply Hc | exact Hz].
Qed.

End ProposerLawsProofs.

Section ProposerLawsScenarios.
Import Proposer ProposerSpec ProposerLaws.
Local Open Scope Q_scope.

(** The theorem on the two hours of scenario S5, with a stable
    [np.argsort]. *)
Lemma proposals_fit_the_caps_witness :
  exists o,
    In (hour_S5 100 100, o) (combine hours_S5_85 (run (AS := argsort_stable) scalars_S5 hours_S5_85)) /\
    0 <= soc_arbi_sim_mwh o <= 1 /\
    (dec_ch o = true -> 0 < prop_arbi_ch_from_grid_ac_mwh o <= 1).
Proof.
  assert (Hin : exists o,
             In (hour_S5 100 100, o)
                (combine hours_S5_85 (run (AS := argsort_stable) scalars_S5 hours_S5_85)))
    by (vm_compute; eexists; left; reflexivity).
  destruct Hin as [o Hin]. exists o. split; [exact Hin|].
  destruct (proposals_fit_the_caps (AS := argsort_stable) scalars_S5 hours_S5_85 (hour_S5 100 100) o
              ltac:(cbn; lra) Hin) as (H1 & _ & H3 & _).
  split; [exact H1 | exact H3].
Defined.

(** The theorem on the two hours of scenario S5, one cycle a day, with a
    stable [np.argsort]. *)
Lemma cycles_stay_within_the_daily_limit_witness :
  exists o,
    In (hour_S5 150 185, o) (combine hours_S5_85 (run (AS := argsort_stable) scalars_S5 hours_S5_85)) /\
    (0 <= cycles_used_today o <= 1)%Z.
Proof.
  assert (Hin : exists o,
             In (hour_S5 150 185, o)
                (combine hours_S5_85 (run (AS := argsort_stable) scalars_S5 hours_S5_85)))
    by (vm_compute; eexists; right; left; reflexivity).
  destruct Hin as [o Hin]. exists o. split; [exact Hin|].
  exact (proj1 (cycles_stay_within_the_daily_limit (AS := argsort_stable) scalars_S5 hours_S5_85
                  (hour_S5 150 185) o Hin)).
Defined.

End ProposerLawsScenarios.

(* ================================================================== *)
(** * Stage 01: the zone masks *)
(* ================================================================== *)

Section IngestProofs.
Import Ingest IngestSpec.
Local Open Scope Z_scope.

Lemma assign_slice_map (a b : Z) (f : nat -> Z) (n : nat) :
  assign_slice a b (map f (seq 0 n))
  = map (fun h => if (a <=? Z.of_nat h) && (Z.of_nat h <? b) then 1 else f h) (seq 0 n).
Proof.
  unfold assign_slice. rewrite length_map, length_seq, combine_map_self, map_map.
  reflexivity.
Qed.

Lemma zeros24_map : zeros24 = map (fun _ : nat => 0) (seq 0 24).
Proof. reflexivity. Qed.

(** The mask of a window holds a 1 exactly at the hours [in_window] marks. *)
Lemma _mask_from_se_in_window (s e : Z) :
  _mask_from_se s e = mask_of (in_window s e).
Proof.
  unfold _mask_from_se, mask_of, in_window. cbv zeta.
  destruct ((s =? e) && (e =? 0)) eqn:E0.
  - apply andb_true_iff in E0 as [E1 E2].
    apply Z.eqb_eq in E1, E2. subst. reflexivity.
  - assert (N : (s =? 0) && (e =? 0) = false).
    { apply andb_false_iff. apply andb_false_iff in E0. lia. }
    rewrite N. cbn [negb andb].
    destruct (s <? e) eqn:Ese.
    + rewrite zeros24_map, assign_slice_map. apply map_ext. intros h.
      now destruct ((s <=? Z.of_nat h) && (Z.of_nat h <? e)).
    + rewrite zeros24_map, !assign_slice_map. apply map_ext_in. intros h Hh.
      apply in_seq in Hh.
      assert (L0 : (0 <=? Z.of_nat h) = true) by lia.
      assert (L24 : (Z.of_nat h <? 24) = true) by lia.
      rewrite L0, L24, andb_true_r. cbn [andb].
      destruct (Z.of_nat h <? e), (s <=? Z.of_nat h); reflexivity.
Qed.

(** ** Sums of 0/1 vectors *)

Lemma fold_left_add (l : list Z) (a : Z) :
  fold_left Z.add l a = a + Ingest.sum l.
Proof.
  unfold Ingest.sum. revert a.
  induction l as [|x l IH]; intros a; cbn; [lia|].
  rewrite IH, (IH x). lia.
Qed.

Lemma sum_cons (x : Z) (l : list Z) : Ingest.sum (x :: l) = x + Ingest.sum l.
Proof. unfold Ingest.sum at 1. cbn. apply fold_left_add. Qed.

Lemma sum_b2z_nonneg {A} (f : A -> bool) (l : list A) :
  0 <= Ingest.sum (map (fun x => Z.b2z (f x)) l).
Proof.
  induction l as [|x l IH]; [reflexivity|].
  cbn [map]. rewrite sum_cons. destruct (f x); cbn [Z.b2z]; lia.
Qed.

Lemma sum_b2z_zero {A} (f : A -> bool) (l : list A) :
  Ingest.sum (map (fun x => Z.b2z (f x)) l) = 0 <-> (forall x, In x l -> f x = false).
Proof.
  induction l as [|x l IH].
  - split; [intros _ y [] | reflexivity].
  - cbn [map]. rewrite sum_cons.
    pose proof (sum_b2z_nonneg f l) as Hn. split.
    + intros E y [<-|Hy].
      * destruct (f x); cbn [Z.b2z] in E; [lia | reflexivity].
      * apply IH; [|exact Hy]. destruct (f x); cbn [Z.b2z] in E; lia.
    + intros Hall. rewrite (Hall x (or_introl eq_refl)). cbn [Z.b2z].
      rewrite (proj2 IH); [reflexivity|]. intros y Hy. apply Hall. now right.
Qed.

Lemma sum_b2z_pos {A} (f : A -> bool) (l : list A) (x : A) :
  In x l -> f x = true -> 0 < Ingest.sum (map (fun x => Z.b2z (f x)) l).
Proof.
  intros Hx Hf. pose proof (sum_b2z_nonneg f l) as Hn.
  destruct (Z.eq_dec (Ingest.sum (map (fun x => Z.b2z (f x)) l)) 0) as [E|E]; [|lia].
  rewrite sum_b2z_zero in E. rewrite (E x Hx) in Hf. discriminate.
Qed.

Lemma land_b2z (a b : bool) : Z.land (Z.b2z a) (Z.b2z b) = Z.b2z (a && b).
Proof. now destruct a, b. Qed.

(** Without a common hour the complement and the two masks count every
    hour once. *)
Lemma sum_complement {A} (f g : A -> bool) (l : list A) :
  (forall x, In x l -> f x && g x = false) ->
  Ingest.sum (map (fun x => 1 - Z.lor (Z.b2z (f x)) (Z.b2z (g x))) l)
  + Ingest.sum (map (fun x => Z.b2z (f x)) l)
  + Ingest.sum (map (fun x => Z.b2z (g x)) l) = Z.of_nat (length l).
Proof.
  induction l as [|x l IH]; intros Hd; [reflexivity|].
  cbn [map length]. rewrite !sum_cons, Nat2Z.inj_succ.
  specialize (IH (fun y Hy => Hd y (or_intror Hy))).
  pose proof (Hd x (or_introl eq_refl)) as Hx.
  destruct (f x), (g x); cbn [Z.b2z andb Z.lor] in Hx |- *; try discriminate; lia.
Qed.

Lemma nth_mask_of (f : nat -> bool) (h : nat) :
  (h < 24)%nat -> nth h (mask_of f) 0 = Z.b2z (f h).
Proof.
  intros Hh. unfold mask_of.
  rewrite (nth_indep _ 0 (Z.b2z (f 0%nat))) by (now rewrite length_map, length_seq).
  rewrite (map_nth (fun h => Z.b2z (f h)) (seq 0 24) 0%nat h), seq_nth by exact Hh.
  reflexivity.
Qed.

(** ** Which windows are empty *)

Lemma in_window_true_iff (s e : Z) (h : nat) :
  in_window s e h = true <->
  ~ (s = 0 /\ e = 0) /\
  ((s < e /\ s <= Z.of_nat h < e) \/ (e <= s /\ (s <= Z.of_nat h \/ Z.of_nat h < e))).
Proof.
  unfold in_window.
  destruct (Z.eqb_spec s 0), (Z.eqb_spec e 0), (Z.ltb_spec s e),
    (Z.leb_spec s (Z.of_nat h)), (Z.ltb_spec (Z.of_nat h) e);
    cbn [negb andb orb]; split; intros Hw; try discriminate; try reflexivity; lia.
Qed.

Lemma in_window_false_iff (s e : Z) (h : nat) :
  in_window s e h = false <->
  (s = 0 /\ e = 0) \/
  ((s < e -> ~ s <= Z.of_nat h < e) /\ (e <= s -> Z.of_nat h < s /\ e <= Z.of_nat h)).
Proof.
  rewrite <- not_true_iff_false, in_window_true_iff. lia.
Qed.

Lemma window_empty_iff (s e : Z) :
  in_range s -> in_range e ->
  ((forall h, (h < 24)%nat -> in_window s e h = false) <-> (e = 0 /\ (s = 0 \/ s = 24))).
Proof.
  unfold in_range. intros Hs He. split.
  - intros Hall.
    pose proof (proj1 (in_window_false_iff s e 0) (Hall 0%nat ltac:(lia))) as H0.
    pose proof (proj1 (in_window_false_iff s e 23) (Hall 23%nat ltac:(lia))) as H23.
    destruct (Z_lt_le_dec s e) as [L|L]; [|lia].
    pose proof (proj1 (in_window_false_iff s e (Z.to_nat s)) (Hall (Z.to_nat s) ltac:(lia))) as Hs0.
    rewrite Z2Nat.id in Hs0 by lia. lia.
  - intros [-> Hs0] h Hh. apply in_window_false_iff. lia.
Qed.

Lemma window_whole_day (s : Z) (h : nat) :
  s <> 0 -> in_window s s h = true.
Proof. intros Hs. apply in_window_true_iff. lia. Qed.

(** ** The masks of a month *)

Lemma month_masks_eq (s_morn e_morn s_aft e_aft : Z) :
  in_range s_morn -> in_range e_morn -> in_range s_aft -> in_range e_aft ->
  month_masks s_morn e_morn s_aft e_aft
  = let am := mask_of (in_window s_morn e_morn) in
    let pm := mask_of (in_window s_aft e_aft) in
    if (Ingest.sum am =? 0) && (Ingest.sum pm =? 0) then Ok (zeros24, zeros24, ones24)
    else if Ingest.sum (mask_of (fun h => in_window s_morn e_morn h && in_window s_aft e_aft h)) >? 0
         then RuntimeError
         else
           let off := map (fun h => 1 - Z.lor (Z.b2z (in_window s_morn e_morn h))
                                              (Z.b2z (in_window s_aft e_aft h))) (seq 0 24) in
           if negb (Ingest.sum off + Ingest.sum am + Ingest.sum pm =? 24) then RuntimeError
           else Ok (am, pm, off).
Proof.
  unfold in_range. intros H1 H2 H3 H4.
  unfold month_masks, _build_peak_masks_24h_am_pm, _window.
  assert (W1 : (0 <=? s_morn) && (s_morn <=? 24) && (0 <=? e_morn) && (e_morn <=? 24) = true).
  { rewrite !andb_true_iff. lia. }
  assert (W2 : (0 <=? s_aft) && (s_aft <=? 24) && (0 <=? e_aft) && (e_aft <=? 24) = true).
  { rewrite !andb_true_iff. lia. }
  rewrite W1, W2, !_mask_from_se_in_window. cbv zeta.
  unfold mask_of. rewrite combine_map_map, !map_map. cbn [fst snd].
  rewrite (map_ext (fun x => Z.land (Z.b2z (in_window s_morn e_morn x))
                                    (Z.b2z (in_window s_aft e_aft x)))
                   (fun h => Z.b2z (in_window s_morn e_morn h && in_window s_aft e_aft h)))
    by (intros; apply land_b2z).
  reflexivity.
Qed.

Lemma sum_mask_zero (f : nat -> bool) :
  Ingest.sum (mask_of f) = 0 <-> (forall h, (h < 24)%nat -> f h = false).
Proof.
  unfold mask_of. rewrite sum_b2z_zero. split; intros Hall h Hh.
  - apply Hall, in_seq. lia.
  - apply Hall. apply in_seq in Hh. lia.
Qed.

Lemma sum_mask_pos (f : nat -> bool) (h : nat) :
  (h < 24)%nat -> f h = true -> 0 < Ingest.sum (mask_of f).
Proof.
  intros Hh Hf. unfold mask_of.
  apply (sum_b2z_pos f (seq 0 24) h); [apply in_seq; lia | exact Hf].
Qed.

(** C6, as the code has it.  For bounds within 0..24: a window marks no
    hour exactly when its bounds are 0 and 0 or 24 and 0, and a window with
    equal bounds other than 0 marks all 24 hours.  When neither window
    marks an hour the month gets OFF = 24 hours and empty AM and PM masks;
    when some hour is marked by both windows the stage raises; otherwise
    AM and PM are the masks of the two windows, OFF is their complement,
    every hour is in exactly one of the three and the three sums add up to
    24. *)
Theorem month_masks_partition_the_day (s_morn e_morn s_aft e_aft : Z) :
  in_range s_morn -> in_range e_morn -> in_range s_aft -> in_range e_aft ->
  let morn := in_window s_morn e_morn in
  let aft := in_window s_aft e_aft in
  ((forall h, (h < 24)%nat -> morn h = false) <->
   (e_morn = 0 /\ (s_morn = 0 \/ s_morn = 24))) /\
  ((forall h, (h < 24)%nat -> aft h = false) <->
   (e_aft = 0 /\ (s_aft = 0 \/ s_aft = 24))) /\
  (s_morn = e_morn -> s_morn <> 0 -> forall h, morn h = true) /\
  (s_aft = e_aft -> s_aft <> 0 -> forall h, aft h = true) /\
  ((forall h, (h < 24)%nat -> morn h = false /\ aft h = false) ->
   month_masks s_morn e_morn s_aft e_aft = Ok (zeros24, zeros24, ones24)) /\
  ((exists h, (h < 24)%nat /\ morn h = true /\ aft h = true) ->
   month_masks s_morn e_morn s_aft e_aft = RuntimeError) /\
  ((exists h, (h < 24)%nat /\ (morn h = true \/ aft h = true)) ->
   (forall h, (h < 24)%nat -> morn h && aft h = false) ->
   exists off,
     month_masks s_morn e_morn s_aft e_aft = Ok (mask_of morn, mask_of aft, off) /\
     Ingest.sum (mask_of morn) + Ingest.sum (mask_of aft) + Ingest.sum off = 24 /\
     (forall h, (h < 24)%nat ->
        nth h off 0 = 1 - Z.lor (nth h (mask_of morn) 0) (nth h (mask_of aft) 0) /\
        nth h (mask_of morn) 0 + nth h (mask_of aft) 0 + nth h off 0 = 1)).
Proof.
  intros H1 H2 H3 H4 morn aft.
  split; [exact (window_empty_iff s_morn e_morn H1 H2)|].
  split; [exact (window_empty_iff s_aft e_aft H3 H4)|].
  split; [intros <- Hn h; now apply window_whole_day|].
  split; [intros <- Hn h; now apply window_whole_day|].
  rewrite (month_masks_eq s_morn e_morn s_aft e_aft H1 H2 H3 H4). cbv zeta.
  fold morn aft.
  split; [|split].
  - intros Hall.
    rewrite (proj2 (sum_mask_zero morn)) by (intros h Hh; apply Hall, Hh).
    rewrite (proj2 (sum_mask_zero aft)) by (intros h Hh; apply Hall, Hh).
    reflexivity.
  - intros (h & Hh & Hm & Ha).
    pose proof (sum_mask_pos morn h Hh Hm) as Pm.
    pose proof (sum_mask_pos (fun h => morn h && aft h) h Hh) as Po.
    cbv beta in Po. rewrite Hm, Ha in Po. specialize (Po eq_refl).
    assert (E : (Ingest.sum (mask_of morn) =? 0) = false) by lia.
    rewrite E. cbn [andb].
    assert (G : (Ingest.sum (mask_of (fun h => morn h && aft h)) >? 0) = true) by lia.
    now rewrite G.
  - intros (h & Hh & Hma) Hdisj.
    set (off := map (fun h => 1 - Z.lor (Z.b2z (morn h)) (Z.b2z (aft h))) (seq 0 24)).
    assert (E : (Ingest.sum (mask_of morn) =? 0) && (Ingest.sum (mask_of aft) =? 0) = false).
    { apply andb_false_iff.
      destruct Hma as [Hm|Ha];
        [left; pose proof (sum_mask_pos morn h Hh Hm)
        |right; pose proof (sum_mask_pos aft h Hh Ha)]; lia. }
    assert (G : (Ingest.sum (mask_of (fun h => morn h && aft h)) >? 0) = false).
    { rewrite (proj2 (sum_mask_zero (fun h => morn h && aft h))) by exact Hdisj.
      reflexivity. }
    assert (T : Ingest.sum off + Ingest.sum (mask_of morn) + Ingest.sum (mask_of aft) = 24).
    { unfold off, mask_of.
      rewrite (sum_complement morn aft (seq 0 24)); [reflexivity|].
      intros x Hx. apply Hdisj. apply in_seq in Hx. lia. }
    rewrite E, G, T. cbn [Z.eqb Pos.eqb negb].
    exists off. split; [reflexivity|]. split; [lia|].
    intros k Hk. rewrite !nth_mask_of by exact Hk.
    assert (O : nth k off 0 = 1 - Z.lor (Z.b2z (morn k)) (Z.b2z (aft k))).
    { unfold off.
      rewrite (nth_indep _ 0 (1 - Z.lor (Z.b2z (morn 0%nat)) (Z.b2z (aft 0%nat))))
        by (now rewrite length_map, length_seq).
      rewrite (map_nth (fun h => 1 - Z.lor (Z.b2z (morn h)) (Z.b2z (aft h)))
                       (seq 0 24) 0%nat k), seq_nth by exact Hk.
      reflexivity. }
    rewrite O. split; [reflexivity|].
    specialize (Hdisj k Hk).
    destruct (morn k), (aft k); cbn [Z.b2z andb Z.lor] in Hdisj |- *;
      try discriminate; reflexivity.
Qed.

(** The theorem for the windows 7..13 and 16..21, for two empty windows and
    for two windows that share the hours 10, 11 and 12. *)
Lemma month_masks_partition_the_day_witness :
  (exists off,
     month_masks 7 13 16 21 = Ok (mask_of (in_window 7 13), mask_of (in_window 16 21), off) /\
     Ingest.sum (mask_of (in_window 7 13)) + Ingest.sum (mask_of (in_window 16 21))
     + Ingest.sum off = 24) /\
  month_masks 0 0 24 0 = Ok (zeros24, zeros24, ones24) /\
  month_masks 7 13 10 21 = RuntimeError.
Proof.
  assert (R : forall z, (0 <=? z) && (z <=? 24) = true -> in_range z).
  { intros z Hz. apply andb_true_iff in Hz. unfold in_range. lia. }
  split; [|split].
  - destruct (month_masks_partition_the_day 7 13 16 21
                (R 7 eq_refl) (R 13 eq_refl) (R 16 eq_refl) (R 21 eq_refl))
      as (_ & _ & _ & _ & _ & _ & H).
    destruct H as (off & E & Hsum & _).
    + exists 7%nat. split; [lia | left; reflexivity].
    + intros h Hh. do 24 (destruct h as [|h]; [reflexivity|]). lia.
    + exists off. split; [exact E | exact Hsum].
  - apply (month_masks_partition_the_day 0 0 24 0
             (R 0 eq_refl) (R 0 eq_refl) (R 24 eq_refl) (R 0 eq_refl)).
    intros h Hh. do 24 (destruct h as [|h]; [split; reflexivity|]). lia.
  - apply (month_masks_partition_the_day 7 13 10 21
             (R 7 eq_refl) (R 13 eq_refl) (R 10 eq_refl) (R 21 eq_refl)).
    exists 10%nat. split; [lia | split; reflexivity].
Defined.

(** C6 as stated fails: the windows 5..5 and 0..0 both have no hour as
    half-open intervals on the ring, and the stage makes AM the whole day
    and OFF empty. *)
Lemma equal_bounds_window_is_the_whole_day :
  ~ (forall s_morn e_morn s_aft e_aft,
       in_range s_morn -> in_range e_morn -> in_range s_aft -> in_range e_aft ->
       ring_size s_morn e_morn = 0 -> ring_size s_aft e_aft = 0 ->
       month_masks s_morn e_morn s_aft e_aft = Ok (zeros24, zeros24, ones24)).
Proof.
  intros C.
  assert (E : month_masks 5 5 0 0 = Ok (ones24, zeros24, zeros24)) by (vm_compute; reflexivity).
  rewrite (C 5 5 0 0) in E; unfold in_range, ring_size; try lia; try reflexivity.
  discriminate E.
Qed.

End IngestProofs.

(* ================================================================== *)
(** * Stage 04b: the K coefficient of a day *)
(* ================================================================== *)

Section PricingProofs.
Import Pricing PricingSpec.
Local Open Scope Q_scope.

Lemma of_nat_succ (n : nat) :
  inject_Z (Z.of_nat (S n)) == inject_Z (Z.of_nat n) + 1.
Proof. rewrite Nat2Z.inj_succ. unfold Z.succ. now rewrite inject_Z_plus. Qed.

Lemma of_nat_pos (n : nat) : (0 < n)%nat -> 0 < inject_Z (Z.of_nat n).
Proof. intros Hn. change 0 with (inject_Z 0). rewrite <- Zlt_Qlt. lia. Qed.

Lemma fold_left_const (c : Q) (l : list Q) : forall a,
  (forall x, In x l -> x == c) ->
  fold_left Qplus l a == a + c * inject_Z (Z.of_nat (length l)).
Proof.
  induction l as [|x l IH]; intros a Hc.
  - cbn. ring.
  - cbn [fold_left length].
    rewrite IH by (intros y Hy; apply Hc; now right).
    rewrite of_nat_succ, (Hc x (or_introl eq_refl)). ring.
Qed.

(** The sum of a vector whose entries all equal [c]. *)
Lemma np_sum_const (c : Q) (l : list Q) :
  (forall x, In x l -> x == c) ->
  np_sum l == c * inject_Z (Z.of_nat (length l)).
Proof.
  intros Hc. unfold np_sum. cbn [n_add n_zero NumQ].
  rewrite (fold_left_const c l 0 Hc). ring.
Qed.

(** The mean of a non-empty vector whose entries all equal [c]. *)
Lemma mean_const (c : Q) (l : list Q) :
  (0 < length l)%nat ->
  (forall x, In x l -> x == c) ->
  np_sum l / inject_Z (Z.of_nat (Nat.max (length l) 1)) == c.
Proof.
  intros Hn Hc. rewrite (np_sum_const c l Hc).
  replace (Nat.max (length l) 1) with (length l) by lia.
  pose proof (of_nat_pos (length l) Hn) as Hp.
  field. lra.
Qed.

Section Day.
Variable hs : list (@hour Q).
Variable did : Z.
Hypothesis has_peak : exists h, In h hs /\ day_id h = did /\ is_cap_peak h = 1%Z.
Hypothesis has_off : exists h, In h hs /\ day_id h = did /\ is_cap_peak h = 0%Z.
Hypothesis peak_6 :
  forall h, In h hs -> day_id h = did -> is_cap_peak h = 1%Z -> pobor h == 6.
Hypothesis off_2 :
  forall h, In h hs -> day_id h = did -> is_cap_peak h = 0%Z -> pobor h == 2.

Let peak := map pobor (filter (fun h => (is_cap_peak h =? 1)%Z)
                              (filter (fun h => (day_id h =? did)%Z) hs)).
Let off := map pobor (filter (fun h => (is_cap_peak h =? 0)%Z)
                             (filter (fun h => (day_id h =? did)%Z) hs)).

Lemma subset_nonempty (v : Z) :
  (exists h, In h hs /\ day_id h = did /\ is_cap_peak h = v) ->
  (0 < length (map pobor (filter (fun h => (is_cap_peak h =? v)%Z)
                                 (filter (fun h => (day_id h =? did)%Z) hs))))%nat.
Proof.
  intros (h & Hin & Hd & Hv).
  assert (I : In (pobor h)
                 (map pobor (filter (fun h => (is_cap_peak h =? v)%Z)
                                    (filter (fun h => (day_id h =? did)%Z) hs)))).
  { apply in_map, filter_In. split; [apply filter_In; split; [exact Hin|] |]; lia. }
  revert I. generalize (pobor h).
  destruct (map pobor (filter (fun h => (is_cap_peak h =? v)%Z)
                              (filter (fun h => (day_id h =? did)%Z) hs)));
    [intros x [] | cbn; lia].
Qed.

Lemma subset_const (v : Z) (c : Q) :
  (forall h, In h hs -> day_id h = did -> is_cap_peak h = v -> pobor h == c) ->
  forall x, In x (map pobor (filter (fun h => (is_cap_peak h =? v)%Z)
                                    (filter (fun h => (day_id h =? did)%Z) hs))) ->
            x == c.
Proof.
  intros Hc x Hx. apply in_map_iff in Hx as (h & <- & Hh).
  apply filter_In in Hh as [Hh Hv]. apply filter_In in Hh as [Hh Hd].
  apply Hc; [exact Hh | lia | lia].
Qed.

Lemma delta_s_200 : delta_s_of_day hs did == 200.
Proof.
  unfold delta_s_of_day. cbv zeta. fold peak off.
  pose proof (subset_nonempty 1%Z has_peak) as Np. fold peak in Np.
  pose proof (subset_nonempty 0%Z has_off) as Nf. fold off in Nf.
  pose proof (mean_const 6 peak Np (subset_const 1%Z 6 peak_6)) as Mp.
  pose proof (mean_const 2 off Nf (subset_const 0%Z 2 off_2)) as Mo.
  destruct (Nat.eqb_spec (length off) 0) as [E|_]; [lia|].
  cbn [n_div n_of_nat n_leb n_ltb n_zero n_sub n_mul n_one n_hundred n_big NumQ].
  set (avg_peak := np_sum peak / inject_Z (Z.of_nat (Nat.max (length peak) 1))) in *.
  set (avg_off := np_sum off / inject_Z (Z.of_nat (Nat.max (length off) 1))) in *.
  assert (L : Qle_bool avg_off 0 = false).
  { apply Qle_bool_false_iff. rewrite Mo. lra. }
  rewrite L. cbn [andb]. rewrite Mp, Mo. reflexivity.
Qed.
End Day.

Lemma to_K_K4 (ds : Q) : ds == 200 -> to_K [5; 10; 15] ds = Some K4.
Proof.
  intros E. unfold to_K. cbn [n_ltb NumQ].
  rewrite !(proj2 (Qltb_false_iff _ _)) by (rewrite E; lra).
  reflexivity.
Qed.

(** With three thresholds [to_K] returns. *)
Lemma to_K_three {F} `{Num F} (t0 t1 t2 ds : F) :
  exists Kg, to_K [t0; t1; t2] ds = Some Kg.
Proof.
  unfold to_K.
  destruct (n_ltb ds t0); [now exists K1|].
  destruct (n_ltb ds t1); [now exists K2|].
  destruct (n_ltb ds t2); [now exists K3 | now exists K4].
Qed.

Lemma day_entry_map {A} (f : Z -> A) (did : Z) (l : list Z) :
  In did l -> day_entry did (map (fun d => (d, f d)) l) = Some (f did).
Proof.
  induction l as [|d l IH]; intros Hin; [destruct Hin|].
  cbn [map day_entry].
  destruct (Z.eqb_spec d did) as [->|Hne]; [reflexivity|].
  apply IH. destruct Hin; [contradiction | assumption].
Qed.

Lemma day_entry_by_day {F} `{Num F} (hs : list (@hour F)) thr k_A_values h :
  In h hs ->
  day_entry (day_id h) (by_day hs thr k_A_values)
  = Some (delta_s_of_day hs (day_id h),
          match to_K thr (delta_s_of_day hs (day_id h)) with
          | Some Kg => Some (A_of k_A_values Kg, Kg)
          | None => None
          end).
Proof.
  intros Hin. unfold by_day.
  apply (day_entry_map
           (fun did => (delta_s_of_day hs did,
                        match to_K thr (delta_s_of_day hs did) with
                        | Some Kg => Some (A_of k_A_values Kg, Kg)
                        | None => None
                        end))).
  apply nodup_In, in_map, Hin.
Qed.

(** With three thresholds every hour gets the row of its day. *)
Lemma _compute_K_A_per_day_rows {F} `{Num F} (hs : list (@hour F))
      k_thresholds_pct k_A_values t0 t1 t2 :
  sort_by n_ltb k_thresholds_pct = [t0; t1; t2] ->
  _compute_K_A_per_day hs k_thresholds_pct k_A_values
  = Some (map (fun h => day_row hs [t0; t1; t2] k_A_values (day_id h)) hs).
Proof.
  intros Hthr. unfold _compute_K_A_per_day. cbv zeta. rewrite Hthr.
  assert (G : forall l, incl l hs ->
    fold_right
      (fun h acc =>
         match acc, day_entry (day_id h) (by_day hs [t0; t1; t2] k_A_values) with
         | Some rows, Some (delta_s, Some (A, Kg)) => Some ((delta_s, A, Kg) :: rows)
         | _, _ => None
         end) (Some []) l
    = Some (map (fun h => day_row hs [t0; t1; t2] k_A_values (day_id h)) l)).
  { induction l as [|h l IH]; intros Hl; [reflexivity|].
    cbn [fold_right map].
    rewrite IH by (intros x Hx; apply Hl; now right).
    rewrite (day_entry_by_day hs [t0; t1; t2] k_A_values h (Hl h (or_introl eq_refl))).
    unfold day_row. cbv zeta.
    destruct (to_K_three t0 t1 t2 (delta_s_of_day hs (day_id h))) as [Kg ->].
    reflexivity. }
  apply G, incl_refl.
Qed.

Lemma sys_moc_per_hour_fees {F} `{Num F} (rate : F) (hs : list (@hour F))
      k_thresholds_pct k_A_values t0 t1 t2 :
  sort_by n_ltb k_thresholds_pct = [t0; t1; t2] ->
  sys_moc_per_hour rate hs k_thresholds_pct k_A_values
  = Some (map (fun h => sys_moc rate h
                          (snd (fst (day_row hs [t0; t1; t2] k_A_values (day_id h))))) hs).
Proof.
  intros Hthr. unfold sys_moc_per_hour.
  rewrite (_compute_K_A_per_day_rows hs k_thresholds_pct k_A_values t0 t1 t2 Hthr).
  rewrite combine_map_self, map_map. reflexivity.
Qed.

(** C7.  When the sorted thresholds are 5, 10 and 15, [k_A_values] gives 1
    for K4, and a day has at least one peak-fee hour and one off hour, all
    its peak-fee hours at 6 MWh and all its off hours at 2 MWh: the stage
    returns; Delta-S of every hour of that day is 200, its group K4 and its
    A is 1; the capacity fee of such an hour is consumption times the rate,
    6 * rate, when it is a peak-fee hour, and 0 otherwise. *)
Theorem capacity_fee_in_group_K4
  (hs : list (@hour Q)) (k_thresholds_pct : list Q) (k_A_values : Kgroup -> option Q)
  (sys_moc_rate : Q) (did : Z) :
  sort_by Qltb k_thresholds_pct = [5; 10; 15] ->
  A_of k_A_values K4 == 1 ->
  (exists h, In h hs /\ day_id h = did /\ is_cap_peak h = 1%Z) ->
  (exists h, In h hs /\ day_id h = did /\ is_cap_peak h = 0%Z) ->
  (forall h, In h hs -> day_id h = did -> is_cap_peak h = 1%Z -> pobor h == 6) ->
  (forall h, In h hs -> day_id h = did -> is_cap_peak h = 0%Z -> pobor h == 2) ->
  delta_s_of_day hs did == 200 /\
  exists rows fees,
    _compute_K_A_per_day hs k_thresholds_pct k_A_values = Some rows /\
    sys_moc_per_hour sys_moc_rate hs k_thresholds_pct k_A_values = Some fees /\
    forall i h, nth_error hs i = Some h -> day_id h = did ->
      exists delta_s A fee,
        nth_error rows i = Some (delta_s, A, K4) /\
        nth_error fees i = Some fee /\
        delta_s == 200 /\ A == 1 /\
        (is_cap_peak h = 1%Z -> fee == pobor h * sys_moc_rate /\ fee == 6 * sys_moc_rate) /\
        (is_cap_peak h <> 1%Z -> fee == 0).
Proof.
  intros Hthr HA Hp Ho H6 H2.
  pose proof (delta_s_200 hs did Hp Ho H6 H2) as D.
  split; [exact D|].
  eexists. eexists.
  split; [exact (_compute_K_A_per_day_rows hs k_thresholds_pct k_A_values 5 10 15 Hthr)|].
  split; [exact (sys_moc_per_hour_fees sys_moc_rate hs k_thresholds_pct k_A_values
                   5 10 15 Hthr)|].
  intros i h Hi Hd.
  rewrite !nth_error_map, Hi. cbn [option_map]. rewrite Hd.
  unfold day_row. cbv zeta. rewrite (to_K_K4 _ D). cbn [fst snd].
  exists (delta_s_of_day hs did), (A_of k_A_values K4),
    (sys_moc sys_moc_rate h (A_of k_A_values K4)).
  split; [reflexivity|]. split; [reflexivity|]. split; [exact D|]. split; [exact HA|].
  unfold sys_moc. cbn [n_mul n_one n_zero NumQ]. split.
  - intros Hpk. rewrite Hpk. cbn [Z.eqb Pos.eqb].
    pose proof (H6 h (nth_error_In _ _ Hi) Hd Hpk) as E6.
    rewrite HA. split; [ring | rewrite E6; ring].
  - intros Hpk. destruct (Z.eqb_spec (is_cap_peak h) 1) as [E|_]; [contradiction | ring].
Qed.

(** The theorem at [hours_S6], with the thresholds given as 15, 5, 10 and
    the default coefficients, for the rate 100. *)
Lemma capacity_fee_in_group_K4_witness :
  delta_s_of_day hours_S6 1 == 200 /\
  exists rows fees,
    _compute_K_A_per_day hours_S6 [15; 5; 10] k_A_default = Some rows /\
    sys_moc_per_hour 100 hours_S6 [15; 5; 10] k_A_default = Some fees /\
    forall i h, nth_error hours_S6 i = Some h -> day_id h = 1%Z ->
      exists delta_s A fee,
        nth_error rows i = Some (delta_s, A, K4) /\
        nth_error fees i = Some fee /\
        delta_s == 200 /\ A == 1 /\
        (is_cap_peak h = 1%Z -> fee == pobor h * 100 /\ fee == 6 * 100) /\
        (is_cap_peak h <> 1%Z -> fee == 0).
Proof.
  apply (capacity_fee_in_group_K4 hours_S6 [15; 5; 10] k_A_default 100 1).
  - reflexivity.
  - reflexivity.
  - exists {| pobor := 6; is_cap_peak := 1; day_id := 1 |}.
    split; [right; left; reflexivity | split; reflexivity].
  - exists {| pobor := 2; is_cap_peak := 0; day_id := 1 |}.
    split; [left; reflexivity | split; reflexivity].
  - intros h [<-|[<-|[<-|[<-|[<-|[]]]]]] Hd Hp; try discriminate; reflexivity.
  - intros h [<-|[<-|[<-|[<-|[<-|[]]]]]] Hd Hp; try discriminate; reflexivity.
Defined.

End PricingProofs.
